(** * Experiment utilities ([src/utils.py]): model and specification

    The module is a set of helpers for a training loop: seeding, a logger per
    experiment, a metrics CSV per metric, checkpoints of a model and its
    optimizer.  Every helper is a few library calls glued together, so the
    development has two layers:

    - a model of the library calls the helpers make (POSIX path functions, a
      file system with open file handles, the [csv] writer and reader, the
      root logger, the tensor serializer);
    - the helpers themselves, translated line by line into a state and
      exception monad over that model.

    Strings are byte strings.  The file system identifies a node by the text
    of its path: no normalisation of [.], [..], repeated separators or
    symbolic links takes place.  A dict is the list of its entries in the
    order of the dict, with string keys; the tensors of a module and the
    groups of an optimizer are kept in the order of their registration, with
    the invariants the framework keeps (distinct names, no option called
    [params]) as part of the objects.  The two plotting helpers
    ([display_image], [display_dataset_sample]) touch neither files nor
    checkpoints and are left out. *)

From Stdlib Require Import ZArith String Ascii List Bool Lia.
From Stdlib Require Import DecimalString DecimalPos DecimalN DecimalZ SpecFloat.
From stdpp Require Import countable gmap strings list.

Local Open Scope string_scope.

(** ** Byte strings *)

Module Str.

Definition sep : ascii := "/"%char.

Definition is_empty (s : string) : bool :=
  match s with EmptyString => true | String _ _ => false end.

(** [s.startswith(c)] and [s.endswith(c)] for a one character [c]. *)
Definition startswith (c : ascii) (s : string) : bool :=
  match s with
  | EmptyString => false
  | String a _ => Ascii.eqb a c
  end.

Fixpoint endswith (c : ascii) (s : string) : bool :=
  match s with
  | EmptyString => false
  | String a EmptyString => Ascii.eqb a c
  | String _ r => endswith c r
  end.

(** [c in s] *)
Fixpoint contains (c : ascii) (s : string) : bool :=
  match s with
  | EmptyString => false
  | String a r => Ascii.eqb a c || contains c r
  end.

(** [s == c * len(s)] *)
Fixpoint all_eq (c : ascii) (s : string) : bool :=
  match s with
  | EmptyString => true
  | String a r => Ascii.eqb a c && all_eq c r
  end.

(** [s.rstrip(c)] *)
Fixpoint rstrip (c : ascii) (s : string) : string :=
  match s with
  | EmptyString => EmptyString
  | String a r =>
      match rstrip c r with
      | EmptyString => if Ascii.eqb a c then EmptyString else String a EmptyString
      | r' => String a r'
      end
  end.

(** [(s[:i], s[i:])] for [i = s.rfind(c) + 1] *)
Fixpoint rcut (c : ascii) (s : string) : string * string :=
  match s with
  | EmptyString => (EmptyString, EmptyString)
  | String a r =>
      if contains c (String a r)
      then let '(h, t) := rcut c r in (String a h, t)
      else (EmptyString, String a r)
  end.

(** [str(n)] for a Python [int] *)
Definition of_Z (n : Z) : string := NilZero.string_of_int (Z.to_int n).
Definition of_N (n : N) : string := NilZero.string_of_uint (N.to_uint n).

End Str.

(** ** [os.path] on POSIX *)

Module Path.
Import Str.

(** One round of the loop of [posixpath.join]. *)
Definition join2 (path b : string) : string :=
  if startswith sep b then b
  else if is_empty path || endswith sep path then path ++ b
  else path ++ String sep b.

(** [os.path.join(a, *p)] *)
Definition join (a : string) (p : list string) : string :=
  fold_left join2 p a.

(** [os.path.split(p)] *)
Definition split (p : string) : string * string :=
  let '(head, tail) := rcut sep p in
  let head :=
    if negb (is_empty head) && negb (all_eq sep head)
    then rstrip sep head else head in
  (head, tail).

Definition dirname (p : string) : string := fst (split p).

End Path.

(** ** Python values, tensors and the objects of the framework *)

Inductive device := CPU | CUDA.

(** A tensor: its shape, its elements and where it lives.  All tensors have
    one element type: conversions between element types are not modelled. *)
Record tensor := Tensor {
  t_shape : list N;
  t_data : list Z;          (* the elements, as bit patterns *)
  t_device : device
}.

(** The values that reach the serializer: a checkpoint is a [VDict]. *)
#[local] Set Warnings "-register-all".
Inductive pyval :=
| VNone
| VInt (z : Z)
| VFloat (x : spec_float)
| VStr (s : string)
| VTensor (t : tensor)
| VList (l : list pyval)
| VDict (d : list (string * pyval)).

Inductive exn :=
| FileNotFoundError (p : string)
| FileExistsError (p : string)
| IsADirectoryError (p : string)
| NotADirectoryError (p : string)
| UnpicklingError
| KeyError (k : string)
| IndexError
| TypeError
| AttributeError
| ValueError
| RuntimeError.

Inductive result (A : Type) :=
| Ok (a : A)
| Err (e : exn).
Arguments Ok {A} a.
Arguments Err {A} e.

(** [d.get(k)] on the entries of a dict, in the order of the dict: keys are
    unique in a dict, the first binding is the binding. *)
Fixpoint dict_get (k : string) (d : list (string * pyval)) : option pyval :=
  match d with
  | [] => None
  | (k', v) :: d' => if String.eqb k' k then Some v else dict_get k d'
  end.

(** [k in d] and [{k': v for k', v in d.items() if k' != k}] *)
Fixpoint has_key (k : string) (d : list (string * pyval)) : bool :=
  match d with
  | [] => false
  | (k', _) :: d' => String.eqb k' k || has_key k d'
  end.

Fixpoint del_key (k : string) (d : list (string * pyval)) : list (string * pyval) :=
  match d with
  | [] => []
  | (k', v) :: d' => if String.eqb k' k then del_key k d' else (k', v) :: del_key k d'
  end.

(** [v[k]] for a string key *)
Definition getitem (v : pyval) (k : string) : result pyval :=
  match v with
  | VDict d => match dict_get k d with
               | Some x => Ok x
               | None => Err (KeyError k)
               end
  | _ => Err TypeError
  end.

Definition pylen (v : pyval) : result nat :=
  match v with
  | VList l => Ok (length l)
  | VDict d => Ok (length d)
  | VStr s => Ok (String.length s)
  | _ => Err TypeError
  end.

(** What [for x in v] yields, for the values that have a length. *)
Definition items (v : pyval) : list pyval :=
  match v with
  | VList l => l
  | VDict d => map (fun kv => VStr (fst kv)) d
  | VStr s => map (fun c => VStr (String c EmptyString)) (list_ascii_of_string s)
  | _ => []
  end.

(** A list and a dict cannot be the key of a dict. *)
Definition hashable (v : pyval) : bool :=
  match v with
  | VList _ | VDict _ => false
  | _ => true
  end.

Definition tensor_to (dev : device) (t : tensor) : tensor :=
  {| t_shape := t_shape t; t_data := t_data t; t_device := dev |}.

(** [map_location]: every tensor of the loaded value is moved to [dev]. *)
Fixpoint map_location (dev : device) (v : pyval) : pyval :=
  match v with
  | VTensor t => VTensor (tensor_to dev t)
  | VList l => VList (map (map_location dev) l)
  | VDict d => VDict (map (fun kv => (fst kv, map_location dev (snd kv))) d)
  | _ => v
  end.

(** *** Modules *)

Fixpoint distinct (names : list string) : bool :=
  match names with
  | [] => true
  | n :: ns => negb (existsb (String.eqb n) ns) && distinct ns
  end.

(** [torch.nn.Module], as far as checkpointing observes it: the named tensors
    of its state, parameters and persistent buffers alike, in the order in
    which they were registered, which is the order of [state_dict()].  The
    names are distinct: the module keeps them in dicts. *)
Record module_obj := {
  m_params : list (string * tensor);
  m_distinct : distinct (map fst m_params)
}.

(** The tensor of a name. *)
Fixpoint named (k : string) (ps : list (string * tensor)) : option tensor :=
  match ps with
  | [] => None
  | (k', t) :: ps' => if String.eqb k' k then Some t else named k ps'
  end.

(** The module with its tensors replaced.  Every use below keeps the names;
    a list whose names are not distinct would leave the module as it is. *)
Definition with_params (m : module_obj) (ps : list (string * tensor)) : module_obj :=
  match decide (Is_true (distinct (map fst ps))) with
  | left H => {| m_params := ps; m_distinct := H |}
  | right _ => m
  end.

(** [model.state_dict()] *)
Definition Module_state_dict (m : module_obj) : pyval :=
  VDict (map (fun kt => (fst kt, VTensor (snd kt))) (m_params m)).

Definition shape_eqb (a b : list N) : bool := bool_decide (a = b).

(** [param.copy_(input)]: the values of [input], the device of [param]. *)
Definition copy_ (param input : tensor) : tensor :=
  {| t_shape := t_shape param; t_data := t_data input; t_device := t_device param |}.

(** [input[0]] for a tensor of one dimension: its first element as a tensor of
    no dimension, [IndexError] when it has none. *)
Definition first_element (input : tensor) : result tensor :=
  match t_data input with
  | [] => Err IndexError
  | x :: _ => Ok {| t_shape := []; t_data := [x]; t_device := t_device input |}
  end.

(** What [_load_from_state_dict] does with one tensor of the module: the
    entry of its name is copied into it, or is not usable (missing, not a
    tensor, of another shape), which is reported when all tensors have been
    gone through, or indexing raises at once. *)
Inductive param_result :=
| Copied (p' : tensor)
| Unusable
| Raised (e : exn).

Definition load_param (d : list (string * pyval)) (k : string) (p : tensor)
  : param_result :=
  match dict_get k d with
  | Some (VTensor input) =>
      (* backward compatibility: a tensor of one dimension for a parameter of
         none stands for its first element *)
      let input' :=
        if Nat.eqb (length (t_shape p)) 0 && Nat.eqb (length (t_shape input)) 1
        then first_element input else Ok input in
      match input' with
      | Err e => Raised e
      | Ok input' =>
          if shape_eqb (t_shape input') (t_shape p) then Copied (copy_ p input')
          else Unusable
      end
  | _ => Unusable
  end.

(** The tensors of the module in their order: the new tensors, whether every
    entry was usable, and the exception that ended the loop, if any (the
    tensors after it are not reached). *)
Fixpoint load_params (d : list (string * pyval)) (ps : list (string * tensor))
  : list (string * tensor) * bool * option exn :=
  match ps with
  | [] => ([], true, None)
  | (k, p) :: ps' =>
      match load_param d k p with
      | Raised e => ((k, p) :: ps', true, Some e)
      | Unusable =>
          let '(ps'', _, e) := load_params d ps' in ((k, p) :: ps'', false, e)
      | Copied p' =>
          let '(ps'', ok, e) := load_params d ps' in ((k, p') :: ps'', ok, e)
      end
  end.

(** [model.load_state_dict(sd)] with [strict=True]: usable entries are copied
    in place, then missing, unexpected or mismatching entries raise. *)
Definition Module_load_state_dict (m : module_obj) (sd : pyval)
  : module_obj * option exn :=
  match sd with
  | VDict d =>
      let '(ps, all_loaded, raised) := load_params d (m_params m) in
      let none_unexpected :=
        forallb (fun kv => bool_decide (is_Some (named (fst kv) (m_params m)))) d in
      (with_params m ps,
       match raised with
       | Some e => Some e
       | None => if all_loaded && none_unexpected then None else Some RuntimeError
       end)
  | _ => (m, Some TypeError)
  end.

(** *** Optimizers *)

(** A parameter group of [torch.optim.Optimizer]: the numbers [state_dict()]
    gives its parameters, and its other entries (learning rate and so on). *)
Record param_group := {
  pg_params : list Z;
  pg_options : list (string * pyval);
  pg_clean : negb (has_key "params" pg_options)
}.

(** The optimizer, as far as checkpointing observes it: the entries of its
    state (a dict from the numbers of the parameters, written as text) and
    its groups.  The tensors of a state live where their parameters live:
    loading keeps a state as it was read. *)
Record optimizer_obj := {
  o_state : list (string * pyval);
  o_groups : list param_group
}.

(** A group as [state_dict()] packs it: its entries other than [params], then
    [params]. *)
Definition group_val (g : param_group) : pyval :=
  VDict (pg_options g ++ [("params", VList (map VInt (pg_params g)))]).

(** [optimizer.state_dict()] *)
Definition Optimizer_state_dict (o : optimizer_obj) : pyval :=
  VDict [("state", VDict (o_state o));
         ("param_groups", VList (map group_val (o_groups o)))].

(** [len(g['params']) != len(saved['params'])] raises [ValueError]. *)
Definition check_group (g : param_group) (saved : pyval) : result unit :=
  match getitem saved "params" with
  | Err e => Err e
  | Ok ps =>
      match pylen ps with
      | Err e => Err e
      | Ok n => if Nat.eqb (length (pg_params g)) n then Ok tt else Err ValueError
      end
  end.

Fixpoint check_groups (gs : list param_group) (saved : list pyval) : result unit :=
  match gs, saved with
  | g :: gs', s :: saved' =>
      match check_group g s with
      | Err e => Err e
      | Ok _ => check_groups gs' saved'
      end
  | _, _ => Ok tt
  end.

(** The numbers of the saved parameters become keys of a dict. *)
Definition check_ids (saved : list pyval) : result unit :=
  if forallb (fun s => match getitem s "params" with
                       | Ok ps => forallb hashable (items ps)
                       | Err _ => true
                       end) saved
  then Ok tt else Err TypeError.

(** [update_group]: the saved group with the parameters of the own one. *)
Definition update_group (g : param_group) (saved : pyval) : param_group :=
  match saved with
  | VDict d =>
      match decide (Is_true (negb (has_key "params" (del_key "params" d)))) with
      | left H => {| pg_params := pg_params g; pg_options := del_key "params" d;
                     pg_clean := H |}
      | right _ => g
      end
  | _ => g
  end.

Fixpoint update_groups (gs : list param_group) (saved : list pyval) : list param_group :=
  match gs, saved with
  | g :: gs', s :: saved' => update_group g s :: update_groups gs' saved'
  | _, _ => []
  end.

(** [optimizer.load_state_dict(sd)]: the groups are validated first, nothing
    is changed when the validation raises. *)
Definition Optimizer_load_state_dict (o : optimizer_obj) (sd : pyval)
  : result optimizer_obj :=
  match getitem sd "param_groups" with
  | Err e => Err e
  | Ok saved_groups =>
      match pylen saved_groups with
      | Err e => Err e
      | Ok n =>
          if negb (Nat.eqb (length (o_groups o)) n) then Err ValueError
          else
            let saved := items saved_groups in
            match check_groups (o_groups o) saved with
            | Err e => Err e
            | Ok _ =>
                match check_ids saved with
                | Err e => Err e
                | Ok _ =>
                    match getitem sd "state" with
                    | Err e => Err e
                    | Ok (VDict st) =>
                        Ok {| o_state := st;
                              o_groups := update_groups (o_groups o) saved |}
                    | Ok _ => Err AttributeError
                    end
                end
            end
      end
  end.

Inductive object :=
| OModule (m : module_obj)
| OOptimizer (o : optimizer_obj).

(** ** The world the helpers run in *)

Inductive node :=
| Dir
| File (data : string).

Inductive mode := ModeR | ModeW | ModeA.

Record handle := { h_path : string; h_mode : mode }.

Inductive log_handler :=
| FileHandler (fd : N) (filename : string) (formatter : option string)
| StreamHandler (formatter : option string).

(** [time.struct_time], the fields [strftime] reads here. *)
Record struct_time := {
  tm_year : N; tm_mon : N; tm_mday : N; tm_hour : N; tm_min : N
}.

(** What lives in the interpreter between calls: the root logger of [logging],
    the seeds of the generators, [os.environ]. *)
Record proc := {
  root_handlers : list log_handler;
  root_level : N;
  random_seed : option Z;
  numpy_seed : option Z;
  torch_seed : option Z;
  cuda_seed : option Z;
  environ : gmap string string
}.

Record world := {
  w_fs : gmap string node;          (* the file system *)
  w_open : gmap N handle;           (* the open file handles of the process *)
  w_heap : gmap N object;           (* the objects the caller passes by reference *)
  w_proc : proc;
  w_cuda_available : bool;          (* torch.cuda.is_available() *)
  w_localtime : struct_time         (* the wall clock *)
}.

Definition set_fs (f : gmap string node → gmap string node) (w : world) : world :=
  {| w_fs := f (w_fs w); w_open := w_open w; w_heap := w_heap w; w_proc := w_proc w;
     w_cuda_available := w_cuda_available w; w_localtime := w_localtime w |}.

Definition set_open (f : gmap N handle → gmap N handle) (w : world) : world :=
  {| w_fs := w_fs w; w_open := f (w_open w); w_heap := w_heap w; w_proc := w_proc w;
     w_cuda_available := w_cuda_available w; w_localtime := w_localtime w |}.

Definition set_heap (f : gmap N object → gmap N object) (w : world) : world :=
  {| w_fs := w_fs w; w_open := w_open w; w_heap := f (w_heap w); w_proc := w_proc w;
     w_cuda_available := w_cuda_available w; w_localtime := w_localtime w |}.

Definition set_proc (f : proc → proc) (w : world) : world :=
  {| w_fs := w_fs w; w_open := w_open w; w_heap := w_heap w; w_proc := f (w_proc w);
     w_cuda_available := w_cuda_available w; w_localtime := w_localtime w |}.

(** ** State and exception monad

    A raised exception keeps the state reached so far: what a call wrote before
    it raised stays written. *)

Definition M (A : Type) : Type := world → result A * world.

Definition ret {A} (a : A) : M A := fun w => (Ok a, w).

Definition raise {A} (e : exn) : M A := fun w => (Err e, w).

Definition bind {A B} (c : M A) (k : A → M B) : M B :=
  fun w => match c w with
           | (Ok a, w') => k a w'
           | (Err e, w') => (Err e, w')
           end.

Definition gets {A} (f : world → A) : M A := fun w => (Ok (f w), w).

Definition modify (f : world → world) : M unit := fun w => (Ok tt, f w).

Definition lift {A} (r : result A) : M A := fun w => (r, w).

Notation "x <- c ;; k" := (bind c (fun x => k))
  (at level 100, c at next level, right associativity).
Notation "c ;;; k" := (bind c (fun _ => k))
  (at level 100, right associativity).

(** ** File system calls *)

Module FS.
Import Str.

Definition NUL : ascii := "000"%char.

(** The node a path names, if any.  The root is always there; a path with an
    embedded NUL names nothing. *)
Definition stat (fs : gmap string node) (p : string) : option node :=
  if contains NUL p then None
  else if negb (is_empty p) && all_eq sep p then Some Dir
  else fs !! p.

(** [os.path.exists], [os.path.isfile] *)
Definition exists_ (p : string) : M bool :=
  gets (fun w => bool_decide (is_Some (stat (w_fs w) p))).

Definition isfile (p : string) : M bool :=
  gets (fun w => match stat (w_fs w) p with Some (File _) => true | _ => false end).

(** The directory an entry [p] is created or looked up in has to exist. *)
Definition check_parent (fs : gmap string node) (p : string) : result unit :=
  if contains NUL p then Err ValueError
  else
    let '(head, tail) := Path.split p in
    if is_empty tail
    then Err (if is_empty p then FileNotFoundError p else IsADirectoryError p)
    else if is_empty head then Ok tt
    else match stat fs head with
         | Some Dir => Ok tt
         | Some (File _) => Err (NotADirectoryError p)
         | None => Err (FileNotFoundError p)
         end.

(** [os.mkdir(p)] *)
Definition mkdir (p : string) : M unit :=
  fun w =>
    match check_parent (w_fs w) p with
    | Err e => (Err e, w)
    | Ok _ =>
        match w_fs w !! p with
        | Some _ => (Err (FileExistsError p), w)
        | None => (Ok tt, set_fs (insert p Dir) w)
        end
    end.

(** [os.makedirs(name)] with [exist_ok=False]; [n] bounds the recursion, which
    is on a strictly shorter path. *)
Fixpoint makedirs_rec (n : nat) (name : string) : M unit :=
  match n with
  | O => raise RuntimeError
  | S n' =>
      let '(head, tail) := Path.split name in
      let '(head, tail) :=
        if is_empty tail then Path.split head else (head, tail) in
      head_exists <- exists_ head ;;
      skip <-
        (if negb (is_empty head) && negb (is_empty tail) && negb head_exists
         then
           (fun w => match makedirs_rec n' head w with
                     | (Err (FileExistsError _), w') => (Ok tt, w')
                     | r => r
                     end) ;;;
           ret (String.eqb tail ".")
         else ret false) ;;
      if skip : bool then ret tt else mkdir name
  end.

Definition makedirs (name : string) : M unit :=
  makedirs_rec (S (String.length name)) name.

(** [open(p, mode)]: the new handle. *)
Definition open (p : string) (m : mode) : M N :=
  fun w =>
    match check_parent (w_fs w) p with
    | Err e => (Err e, w)
    | Ok _ =>
        let fd := fresh (dom (w_open w)) in
        let opened := set_open (insert fd {| h_path := p; h_mode := m |}) in
        match w_fs w !! p, m with
        | Some Dir, _ => (Err (IsADirectoryError p), w)
        | Some (File _), ModeW => (Ok fd, opened (set_fs (insert p (File EmptyString)) w))
        | Some (File _), _ => (Ok fd, opened w)
        | None, ModeR => (Err (FileNotFoundError p), w)
        | None, _ => (Ok fd, opened (set_fs (insert p (File EmptyString)) w))
        end
    end.

(** [file.write(s)]: both writing modes used here write at the end. *)
Definition write (fd : N) (s : string) : M unit :=
  fun w =>
    match w_open w !! fd with
    | Some {| h_path := p; h_mode := ModeW |}
    | Some {| h_path := p; h_mode := ModeA |} =>
        match w_fs w !! p with
        | Some (File data) => (Ok tt, set_fs (insert p (File (data ++ s))) w)
        | _ => (Err ValueError, w)
        end
    | _ => (Err ValueError, w)
    end.

(** [file.read()] *)
Definition read (fd : N) : M string :=
  fun w =>
    match w_open w !! fd with
    | Some {| h_path := p; h_mode := ModeR |} =>
        match w_fs w !! p with
        | Some (File data) => (Ok data, w)
        | _ => (Err ValueError, w)
        end
    | _ => (Err ValueError, w)
    end.

(** [file.close()] *)
Definition close (fd : N) : M unit := modify (set_open (delete fd)).

(** [with open(p, mode) as file: body]: the handle is closed when the body
    is left, by its end or by an exception, which goes on unchanged. *)
Definition with_open {A} (p : string) (m : mode) (body : N → M A) : M A :=
  fd <- open p m ;;
  fun w => let '(r, w1) := body fd w in
           let '(_, w2) := close fd w1 in
           (r, w2).

End FS.

(** ** [time.strftime], [logging], the seeds *)

Definition pad2 (n : N) : string :=
  if (n <? 10)%N then String "0" (Str.of_N n) else Str.of_N n.

(** [time.strftime('%Y-%m-%d-%H-%M')] of the local time *)
Definition strftime_Ymd_HM (t : struct_time) : string :=
  Str.of_N (tm_year t) ++ "-" ++ pad2 (tm_mon t) ++ "-" ++ pad2 (tm_mday t)
    ++ "-" ++ pad2 (tm_hour t) ++ "-" ++ pad2 (tm_min t).

(** The root logger is one object for the whole process. *)
Inductive logger := RootLogger.

Module Logging.

Definition INFO : N := 20.
Definition WARNING : N := 30.

Definition set_handlers (hs : list log_handler) (p : proc) : proc :=
  {| root_handlers := hs; root_level := root_level p;
     random_seed := random_seed p; numpy_seed := numpy_seed p;
     torch_seed := torch_seed p; cuda_seed := cuda_seed p; environ := environ p |}.

Definition set_level (l : N) (p : proc) : proc :=
  {| root_handlers := root_handlers p; root_level := l;
     random_seed := random_seed p; numpy_seed := numpy_seed p;
     torch_seed := torch_seed p; cuda_seed := cuda_seed p; environ := environ p |}.

(** [logging.basicConfig(filename=..., format=...)]: does nothing when the
    root logger has a handler already; otherwise a [FileHandler] opens the
    file for appending and keeps it open. *)
Definition basicConfig (filename fmt : string) : M unit :=
  hs <- gets (fun w => root_handlers (w_proc w)) ;;
  match hs with
  | [] =>
      h <- (if Str.is_empty filename then ret (StreamHandler (Some fmt))
            else fd <- FS.open filename ModeA ;;
                 ret (FileHandler fd filename (Some fmt))) ;;
      modify (set_proc (set_handlers [h]))
  | _ :: _ => ret tt
  end.

Definition getLogger : M logger := ret RootLogger.

Definition setLevel (_ : logger) (l : N) : M unit :=
  modify (set_proc (set_level l)).

Definition handlers (_ : logger) : M (list log_handler) :=
  gets (fun w => root_handlers (w_proc w)).

Definition addHandler (_ : logger) (h : log_handler) : M unit :=
  modify (set_proc (fun p => set_handlers (root_handlers p ++ [h]) p)).

End Logging.

Module Seed.

Definition set_random (s : Z) (p : proc) : proc :=
  {| root_handlers := root_handlers p; root_level := root_level p;
     random_seed := Some s; numpy_seed := numpy_seed p;
     torch_seed := torch_seed p; cuda_seed := cuda_seed p; environ := environ p |}.

Definition set_numpy (s : Z) (p : proc) : proc :=
  {| root_handlers := root_handlers p; root_level := root_level p;
     random_seed := random_seed p; numpy_seed := Some s;
     torch_seed := torch_seed p; cuda_seed := cuda_seed p; environ := environ p |}.

Definition set_torch (s : Z) (p : proc) : proc :=
  {| root_handlers := root_handlers p; root_level := root_level p;
     random_seed := random_seed p; numpy_seed := numpy_seed p;
     torch_seed := Some s; cuda_seed := cuda_seed p; environ := environ p |}.

Definition set_cuda (s : Z) (p : proc) : proc :=
  {| root_handlers := root_handlers p; root_level := root_level p;
     random_seed := random_seed p; numpy_seed := numpy_seed p;
     torch_seed := torch_seed p; cuda_seed := Some s; environ := environ p |}.

Definition set_environ (k v : string) (p : proc) : proc :=
  {| root_handlers := root_handlers p; root_level := root_level p;
     random_seed := random_seed p; numpy_seed := numpy_seed p;
     torch_seed := torch_seed p; cuda_seed := cuda_seed p;
     environ := <[k := v]> (environ p) |}.

(** [random.seed(seed)] *)
Definition random_seed_ (seed : Z) : M unit := modify (set_proc (set_random seed)).

(** [np.random.seed(seed)]: the seed has to fit 32 bits. *)
Definition np_random_seed (seed : Z) : M unit :=
  if ((0 <=? seed) && (seed <? 2 ^ 32))%Z
  then modify (set_proc (set_numpy seed))
  else raise ValueError.

(** [torch.manual_seed(seed)]: the seed has to fit 64 bits. *)
Definition torch_manual_seed (seed : Z) : M unit :=
  if ((- 2 ^ 63 <=? seed) && (seed <? 2 ^ 64))%Z
  then modify (set_proc (set_torch seed))
  else raise RuntimeError.

(** [torch.cuda.manual_seed_all(seed)] *)
Definition torch_cuda_manual_seed_all (seed : Z) : M unit :=
  modify (set_proc (set_cuda seed)).

Definition torch_cuda_is_available : M bool := gets w_cuda_available.

End Seed.

(** ** [csv.writer] with the default dialect

    Delimiter [,], quote character, doubled quotes, minimal quoting, line
    terminator CR LF, no escape character. *)

Module Csv.

Definition delimiter : ascii := ","%char.
Definition quotechar : ascii := "034"%char.
Definition CR : ascii := "013"%char.
Definition LF : ascii := "010"%char.
Definition lineterminator : string := String CR (String LF EmptyString).

(** A character that makes the writer quote the field. *)
Definition special (c : ascii) : bool :=
  Ascii.eqb c delimiter || Ascii.eqb c quotechar || Str.contains c lineterminator.

Fixpoint needs_quotes (s : string) : bool :=
  match s with
  | EmptyString => false
  | String c r => special c || needs_quotes r
  end.

Fixpoint escape (s : string) : string :=
  match s with
  | EmptyString => EmptyString
  | String c r =>
      if Ascii.eqb c quotechar then String quotechar (String c (escape r))
      else String c (escape r)
  end.

Definition field_text (s : string) : string :=
  if needs_quotes s
  then String quotechar (escape s ++ String quotechar EmptyString)
  else s.

Fixpoint join_fields (fields : list string) : string :=
  match fields with
  | [] => EmptyString
  | [f] => field_text f
  | f :: rest => field_text f ++ String delimiter (join_fields rest)
  end.

(** A record of one empty field is written as an empty quoted field. *)
Definition record_text (fields : list string) : string :=
  let rec := join_fields fields in
  match fields with
  | _ :: _ =>
      if Str.is_empty rec then String quotechar (String quotechar EmptyString)
      else rec
  | [] => rec
  end.

Definition row_text (fields : list string) : string :=
  record_text fields ++ lineterminator.

End Csv.

(** ** The helpers of [utils.py] *)

(** A cell of a CSV row before the writer turns it into text. *)
Inductive cell :=
| CStr (s : string)
| CInt (z : Z)
| CFloat (x : spec_float).

Section Utils.

(** [repr] of a float (the shortest decimal text that reads back as the same
    float): the algorithm is the interpreter's, only its result is used. *)
Variable float_repr : spec_float → string.

(** The serializer of the framework: [torch.save] writes [torch_dumps v],
    [torch.load] reads a value back or raises what the text it cannot read
    makes it raise. *)
Variable torch_dumps : pyval → string.
Variable torch_loads : string → result pyval.

Definition cell_text (c : cell) : string :=
  match c with
  | CStr s => s
  | CInt z => Str.of_Z z
  | CFloat x => float_repr x
  end.

(** [csv.writer(file).writerow(row)] *)
Definition writerow (file : N) (row : list cell) : M unit :=
  FS.write file (Csv.row_text (map cell_text row)).

(** [torch.save(obj, f)]: the writer of the framework opens the file itself
    and reports a file it cannot open as a [RuntimeError]. *)
Definition torch_save (obj : pyval) (f : string) : M unit :=
  fun w =>
    match FS.open f ModeW w with
    | (Err _, w') => (Err RuntimeError, w')
    | (Ok file, w') =>
        let '(r, w1) := FS.write file (torch_dumps obj) w' in
        let '(_, w2) := FS.close file w1 in
        (r, w2)
    end.

(** [torch.load(f, map_location=...)] *)
Definition torch_load (f : string) (map_loc : option device) : M pyval :=
  FS.with_open f ModeR (fun file =>
    data <- FS.read file ;;
    match torch_loads data with
    | Ok v => ret (match map_loc with
                   | Some dev => map_location dev v
                   | None => v
                   end)
    | Err e => raise e
    end).

(** [obj.state_dict()]: a method of modules and of optimizers. *)
Definition state_dict (obj : N) : M pyval :=
  o <- gets (fun w => w_heap w !! obj) ;;
  match o with
  | Some (OModule m) => ret (Module_state_dict m)
  | Some (OOptimizer o) => ret (Optimizer_state_dict o)
  | None => raise AttributeError
  end.

(** [obj.load_state_dict(sd)]: the object is updated where it lives. *)
Definition load_state_dict (obj : N) (sd : pyval) : M unit :=
  o <- gets (fun w => w_heap w !! obj) ;;
  match o with
  | Some (OModule m) =>
      let '(m', err) := Module_load_state_dict m sd in
      modify (set_heap (insert obj (OModule m'))) ;;;
      match err with
      | Some e => raise e
      | None => ret tt
      end
  | Some (OOptimizer o) =>
      match Optimizer_load_state_dict o sd with
      | Ok o' => modify (set_heap (insert obj (OOptimizer o')))
      | Err e => raise e
      end
  | None => raise AttributeError
  end.

Definition fix_all_seeds (seed : Z) : M unit :=
  Seed.random_seed_ seed ;;;
  Seed.np_random_seed seed ;;;
  modify (set_proc (Seed.set_environ "PYTHONHASHSEED" (Str.of_Z seed))) ;;;
  Seed.torch_manual_seed seed ;;;
  cuda <- Seed.torch_cuda_is_available ;;
  if cuda : bool then Seed.torch_cuda_manual_seed_all seed else ret tt.

Definition create_logger (experiment_id : string) : M logger :=
  let experiment_dir := Path.join "out" [experiment_id] in
  let log_dir := Path.join experiment_dir ["logs"] in
  present <- FS.exists_ log_dir ;;
  (if negb present then FS.makedirs log_dir else ret tt) ;;;
  time_str <- gets (fun w => strftime_Ymd_HM (w_localtime w)) ;;
  let log_fn := Path.join log_dir [time_str ++ ".log"] in
  Logging.basicConfig log_fn "%(asctime)-15s %(message)s" ;;;
  logger <- Logging.getLogger ;;
  Logging.setLevel logger Logging.INFO ;;;
  hs <- Logging.handlers logger ;;
  (if Nat.eqb (length hs) 1
   then Logging.addHandler logger (StreamHandler None)
   else ret tt) ;;;
  ret logger.

Definition save_plotting_data (experiment_id metric : string) (epoch : Z)
    (metric_val : spec_float) : M unit :=
  let fn := Path.join "out" [experiment_id; metric ++ ".csv"] in
  is_file <- FS.isfile fn ;;
  (if negb is_file
   then FS.with_open fn ModeW (fun file => writerow file [CStr "epoch"; CStr metric])
   else ret tt) ;;;
  FS.with_open fn ModeA (fun file => writerow file [CInt epoch; CFloat metric_val]).

Definition default_filename : string := "checkpoint.pth.tar".

Definition save_checkpoint (experiment_id : string) (next_epoch : Z)
    (best_acc : spec_float) (model optimizer : N) (filename : string) : M unit :=
  model_state <- state_dict model ;;
  optimizer_state <- state_dict optimizer ;;
  let d := VDict [("next_epoch", VInt next_epoch);
                  ("best_acc", VFloat best_acc);
                  ("model_state_dict", model_state);
                  ("optimizer_state_dict", optimizer_state)] in
  let experiment_dir := Path.join "out" [experiment_id] in
  torch_save d (Path.join experiment_dir [filename]).

Definition load_checkpoint (experiment_id : string) (model optimizer : N)
  : M (N * N * pyval * pyval) :=
  let filename := Path.join "out" [experiment_id; "checkpoint.pth.tar"] in
  checkpoint <- torch_load filename None ;;
  model_state <- lift (getitem checkpoint "model_state_dict") ;;
  load_state_dict model model_state ;;;
  optimizer_state <- lift (getitem checkpoint "optimizer_state_dict") ;;
  load_state_dict optimizer optimizer_state ;;;
  next_epoch <- lift (getitem checkpoint "next_epoch") ;;
  best_acc <- lift (getitem checkpoint "best_acc") ;;
  ret (model, optimizer, next_epoch, best_acc).

Definition load_best_model (experiment_id : string) (model : N) : M N :=
  let filename := Path.join "out" [experiment_id; "best_model.pth.tar"] in
  cuda <- Seed.torch_cuda_is_available ;;
  model_state_dict <- torch_load filename (Some (if cuda : bool then CUDA else CPU)) ;;
  load_state_dict model model_state_dict ;;;
  ret model.

Definition save_model (model : N) (experiment_id filename : string) : M unit :=
  let experiment_dir := Path.join "out" [experiment_id] in
  model_state <- state_dict model ;;
  torch_save model_state (Path.join experiment_dir [filename]).

End Utils.

(** ** [csv.reader] with the default dialect

    The reader is the state machine of the interpreter's [_csv] module, fed
    with the lines of a file opened with [newline=''] (a line ends after LF,
    after CR LF, or after a CR that no LF follows; its terminator stays in the
    line).  After each line the machine is fed an end-of-line mark; a record is
    complete when the mark leaves the machine at the start of a record. *)

Module CsvReader.
Import Csv.

Inductive rstate :=
| START_RECORD
| START_FIELD
| IN_FIELD
| IN_QUOTED_FIELD
| QUOTE_IN_QUOTED_FIELD
| EAT_CRNL.

Inductive input :=
| Ch (c : ascii)
| EOL.

Record reader := {
  state : rstate;
  field : string;              (* the field being read *)
  fields : list string         (* the fields of the record read so far *)
}.

Definition init : reader :=
  {| state := START_RECORD; field := EmptyString; fields := [] |}.

Definition set_state (s : rstate) (r : reader) : reader :=
  {| state := s; field := field r; fields := fields r |}.

(** [parse_add_char], [parse_save_field] *)
Definition add_char (c : ascii) (r : reader) : reader :=
  {| state := state r; field := field r ++ String c EmptyString; fields := fields r |}.

Definition save_field (r : reader) : reader :=
  {| state := state r; field := EmptyString; fields := fields r ++ [field r] |}.

Definition is_newline (c : ascii) : bool := Ascii.eqb c LF || Ascii.eqb c CR.

(** The case [START_FIELD] of [parse_process_char]. *)
Definition start_field (r : reader) (i : input) : reader :=
  match i with
  | EOL => set_state START_RECORD (save_field r)
  | Ch c =>
      if is_newline c then set_state EAT_CRNL (save_field r)
      else if Ascii.eqb c quotechar then set_state IN_QUOTED_FIELD r
      else if Ascii.eqb c delimiter then set_state START_FIELD (save_field r)
      else set_state IN_FIELD (add_char c r)
  end.

(** [parse_process_char]; [None] is [csv.Error]. *)
Definition process_char (r : reader) (i : input) : option reader :=
  match state r with
  | START_RECORD =>
      match i with
      | EOL => Some r
      | Ch c => if is_newline c then Some (set_state EAT_CRNL r)
                else Some (start_field r i)
      end
  | START_FIELD => Some (start_field r i)
  | IN_FIELD =>
      match i with
      | EOL => Some (set_state START_RECORD (save_field r))
      | Ch c =>
          if is_newline c then Some (set_state EAT_CRNL (save_field r))
          else if Ascii.eqb c delimiter then Some (set_state START_FIELD (save_field r))
          else Some (add_char c r)
      end
  | IN_QUOTED_FIELD =>
      match i with
      | EOL => Some r
      | Ch c =>
          if Ascii.eqb c quotechar then Some (set_state QUOTE_IN_QUOTED_FIELD r)
          else Some (add_char c r)
      end
  | QUOTE_IN_QUOTED_FIELD =>
      match i with
      | EOL => Some (set_state START_RECORD (save_field r))
      | Ch c =>
          if Ascii.eqb c quotechar then Some (set_state IN_QUOTED_FIELD (add_char c r))
          else if Ascii.eqb c delimiter then Some (set_state START_FIELD (save_field r))
          else if is_newline c then Some (set_state EAT_CRNL (save_field r))
          else Some (set_state IN_FIELD (add_char c r))
      end
  | EAT_CRNL =>
      match i with
      | EOL => Some (set_state START_RECORD r)
      | Ch c => if is_newline c then Some r else None
      end
  end.

(** The characters of a text in reading order, with the end-of-line marks. *)
Fixpoint events (s : string) : list input :=
  match s with
  | EmptyString => []
  | String c r =>
      if Ascii.eqb c LF then Ch c :: EOL :: events r
      else if Ascii.eqb c CR then
        match r with
        | String c' r' =>
            if Ascii.eqb c' LF then Ch c :: Ch c' :: EOL :: events r'
            else Ch c :: EOL :: events r
        | EmptyString => [Ch c; EOL]
        end
      else
        match r with
        | EmptyString => [Ch c; EOL]
        | String _ _ => Ch c :: events r
        end
  end.

(** The records the reader yields, one call of [next] after the other. *)
Fixpoint run (r : reader) (evs : list input) : option (list (list string)) :=
  match evs with
  | [] =>
      match state r with
      | IN_QUOTED_FIELD => Some [fields (save_field r)]
      | _ => if Str.is_empty (field r) then Some [] else Some [fields (save_field r)]
      end
  | i :: evs' =>
      match process_char r i with
      | None => None
      | Some r' =>
          match i, state r' with
          | EOL, START_RECORD => option_map (cons (fields r')) (run init evs')
          | _, _ => run r' evs'
          end
      end
  end.

(** [list(csv.reader(file))] for a file with the text [s]. *)
Definition read_all (s : string) : option (list (list string)) :=
  run init (events s).

End CsvReader.

(** ** Notions the statements use *)

(** The value [torch.load] hands out under a [map_location]. *)
Definition located (ml : option device) (v : pyval) : pyval :=
  match ml with
  | Some dev => map_location dev v
  | None => v
  end.

(** What [obj.state_dict()] returns for an object of the heap. *)
Definition object_state_dict (o : object) : pyval :=
  match o with
  | OModule m => Module_state_dict m
  | OOptimizer o => Optimizer_state_dict o
  end.

(** The directory of an experiment, [experiment_dir] in the helpers. *)
Definition experiment_dir (experiment_id : string) : string :=
  Path.join "out" [experiment_id].

(** The mapping [d] that [save_checkpoint] hands to the serializer. *)
Definition checkpoint_dict (next_epoch : Z) (best_acc : spec_float)
    (model_state optimizer_state : pyval) : pyval :=
  VDict [("next_epoch", VInt next_epoch);
         ("best_acc", VFloat best_acc);
         ("model_state_dict", model_state);
         ("optimizer_state_dict", optimizer_state)].

(** Two worlds that differ at most in what the process holds: the root logger,
    the seeds, the environment, the open handles, the clock. *)
Definition agree (w1 w2 : world) : Prop :=
  w_fs w1 = w_fs w2 ∧ w_heap w1 = w_heap w2
  ∧ w_cuda_available w1 = w_cuda_available w2.

(** A computation that reads and writes nothing of the process: its result and
    its effect on files and objects are the same in worlds that agree, the
    state of the process and the open handles are as before when it ends. *)
Definition quiet {A} (c : M A) : Prop :=
  ∀ w1 w2, agree w1 w2 →
    fst (c w1) = fst (c w2)
    ∧ agree (snd (c w1)) (snd (c w2))
    ∧ w_proc (snd (c w1)) = w_proc w1
    ∧ w_open (snd (c w1)) = w_open w1
    ∧ w_localtime (snd (c w1)) = w_localtime w1.

(** ** A serializer and a world to run the helpers in

    Any serializer that reads back what it wrote will do for the statements
    below.  This one writes the binary numeral of the code of a value in a
    countable enumeration, and rejects every other text as the unpickler
    does. *)

Definition leaf : Type :=
  Z + string + (list N * list Z * bool) + (bool + bool + unit + bool * positive * Z).

Definition float_code (x : spec_float) : bool + bool + unit + bool * positive * Z :=
  match x with
  | S754_zero s => inl (inl (inl s))
  | S754_infinity s => inl (inl (inr s))
  | S754_nan => inl (inr tt)
  | S754_finite s m e => inr (s, m, e)
  end.

Definition float_decode (c : bool + bool + unit + bool * positive * Z) : spec_float :=
  match c with
  | inl (inl (inl s)) => S754_zero s
  | inl (inl (inr s)) => S754_infinity s
  | inl (inr _) => S754_nan
  | inr (s, m, e) => S754_finite s m e
  end.

Definition tensor_code (t : tensor) : list N * list Z * bool :=
  (t_shape t, t_data t, match t_device t with CPU => false | CUDA => true end).

Definition tensor_decode (c : list N * list Z * bool) : tensor :=
  let '(sh, dat, dev) := c in
  {| t_shape := sh; t_data := dat; t_device := if dev then CUDA else CPU |}.

Fixpoint pyval_tree (v : pyval) : gen_tree leaf :=
  match v with
  | VNone => GenNode 0 []
  | VInt z => GenLeaf (inl (inl (inl z)))
  | VStr s => GenLeaf (inl (inl (inr s)))
  | VTensor t => GenLeaf (inl (inr (tensor_code t)))
  | VFloat x => GenLeaf (inr (float_code x))
  | VList l => GenNode 1 (map pyval_tree l)
  | VDict d =>
      GenNode 2 (map (fun kv => GenNode 3 [GenLeaf (inl (inl (inr (fst kv))));
                                           pyval_tree (snd kv)]) d)
  end.

Fixpoint tree_pyval (t : gen_tree leaf) : pyval :=
  match t with
  | GenLeaf (inl (inl (inl z))) => VInt z
  | GenLeaf (inl (inl (inr s))) => VStr s
  | GenLeaf (inl (inr c)) => VTensor (tensor_decode c)
  | GenLeaf (inr c) => VFloat (float_decode c)
  | GenNode 1 l => VList (map tree_pyval l)
  | GenNode 2 l =>
      VDict (map (fun e => match e with
                           | GenNode _ [GenLeaf (inl (inl (inr k))); t'] =>
                               (k, tree_pyval t')
                           | _ => (EmptyString, VNone)
                           end) l)
  | GenNode _ _ => VNone
  end.

Fixpoint bits_of_pos (p : positive) : string :=
  match p with
  | xH => EmptyString
  | xO p => String "0" (bits_of_pos p)
  | xI p => String "1" (bits_of_pos p)
  end.

Fixpoint pos_of_bits (s : string) : option positive :=
  match s with
  | EmptyString => Some xH
  | String c r =>
      match pos_of_bits r with
      | Some p => if Ascii.eqb c "0" then Some (xO p)
                  else if Ascii.eqb c "1" then Some (xI p) else None
      | None => None
      end
  end.

Definition bits_dumps (v : pyval) : string := bits_of_pos (encode (pyval_tree v)).

Definition bits_loads (s : string) : result pyval :=
  match pos_of_bits s with
  | Some p => match decode p with
              | Some t => Ok (tree_pyval t)
              | None => Err UnpicklingError
              end
  | None => Err UnpicklingError
  end.

(** A float whose text is known: 0.5 and 0.75. *)
Definition half : spec_float := S754_finite false 1 (-1).
Definition three_quarters : spec_float := S754_finite false 3 (-2).

Definition sample_repr (x : spec_float) : string :=
  match x with
  | S754_finite false 1 (-1) => "0.5"
  | S754_finite false 3 (-2) => "0.75"
  | S754_zero false => "0.0"
  | S754_nan => "nan"
  | _ => "1.0"
  end.

Definition sample_time : struct_time :=
  {| tm_year := 2022; tm_mon := 1; tm_mday := 9; tm_hour := 17; tm_min := 5 |}.

(** The process as the interpreter starts it. *)
Definition fresh_proc : proc :=
  {| root_handlers := []; root_level := Logging.WARNING;
     random_seed := None; numpy_seed := None; torch_seed := None; cuda_seed := None;
     environ := ∅ |}.

Definition sample_tensor : tensor :=
  {| t_shape := [2%N]; t_data := [1; 2]%Z; t_device := CPU |}.

Definition sample_module : module_obj :=
  {| m_params := [("weight", sample_tensor)]; m_distinct := I |}.

Definition sample_model : object := OModule sample_module.

Definition sample_group : param_group :=
  {| pg_params := [0%Z]; pg_options := [("lr", VFloat half)]; pg_clean := I |}.

Definition sample_optimizer : object :=
  OOptimizer {| o_state := []; o_groups := [sample_group] |}.

(** A model at reference 0, its optimizer at reference 1, and a file system. *)
Definition sample_world (fs : gmap string node) : world :=
  {| w_fs := fs; w_open := ∅;
     w_heap := {[ 0%N := sample_model; 1%N := sample_optimizer ]};
     w_proc := fresh_proc; w_cuda_available := false; w_localtime := sample_time |}.

(** The directory of experiment [e] is there. *)
Definition fs_with_experiment : gmap string node :=
  {[ "out" := Dir; "out/e" := Dir ]}.

(** The paths [create_logger] computes, and its first step. *)
Definition log_dir (experiment_id : string) : string :=
  Path.join (experiment_dir experiment_id) ["logs"].

Definition log_fn (experiment_id : string) (now : struct_time) : string :=
  Path.join (log_dir experiment_id) [strftime_Ymd_HM now ++ ".log"].

Definition log_format : string := "%(asctime)-15s %(message)s".

Definition ensure_log_dir (experiment_id : string) : M unit :=
  present <- FS.exists_ (log_dir experiment_id) ;;
  if negb present then FS.makedirs (log_dir experiment_id) else ret tt.

(** Experiment [a] has logged already, in the minute of [sample_time]. *)
Definition fs_logged : gmap string node :=
  {[ "out" := Dir; "out/a" := Dir; "out/a/logs" := Dir;
     "out/a/logs/2022-01-09-17-05.log" := File EmptyString ]}.

(** ** Sequences of calls of [save_plotting_data] *)

(** The text of consecutive rows. *)
Fixpoint rows_text (rows : list (list string)) : string :=
  match rows with
  | [] => EmptyString
  | r :: rs => Csv.row_text r ++ rows_text rs
  end.

(** The header row and the row of one call, as lists of fields. *)
Definition header_row (metric : string) : list string := ["epoch"; metric].

Definition data_row (float_repr : spec_float → string) (call : Z * spec_float)
  : list string :=
  [Str.of_Z (fst call); float_repr (snd call)].

(** [save_plotting_data] called for each (epoch, value) of [calls], in order,
    for one experiment and one metric. *)
Fixpoint save_plotting_data_all (float_repr : spec_float → string)
    (experiment_id metric : string) (calls : list (Z * spec_float)) : M unit :=
  match calls with
  | [] => ret tt
  | call :: calls' =>
      save_plotting_data float_repr experiment_id metric (fst call) (snd call) ;;;
      save_plotting_data_all float_repr experiment_id metric calls'
  end.

(** Experiment [/data/run] was given by an absolute path. *)
Definition fs_absolute : gmap string node :=
  {[ "/data" := Dir; "/data/run" := Dir ]}.

(** A file system is well formed when every node sits in a directory. *)
Definition fs_wf (fs : gmap string node) : Prop :=
  ∀ p n, fs !! p = Some n → FS.check_parent fs p = Ok tt.

(** A directory name: one path component, not [.] or [..]. *)
Definition dir_name (s : string) : bool :=
  negb (Str.is_empty s) && negb (Str.contains Str.sep s)
  && negb (Str.contains FS.NUL s)
  && negb (String.eqb s ".") && negb (String.eqb s "..").


(** ** More notions for the statements *)

(** One call after the other. *)
Definition then_ {A B} (c : M A) (k : M B) : M B := bind c (fun _ => k).

(** [fs'] is [fs] with directories added where nothing was. *)
Definition adds_dirs (fs fs' : gmap string node) : Prop :=
  ∀ p, fs' !! p = fs !! p ∨ (fs !! p = None ∧ fs' !! p = Some Dir).

(** The path of a metrics file is taken by a directory. *)
Definition fs_csv_dir : gmap string node :=
  {[ "out" := Dir; "out/e" := Dir; "out/e/acc.csv" := Dir ]}.

(** Two modules with the same parameter names, of the same shapes. *)
Definition same_shapes (m1 m2 : module_obj) : Prop :=
  ∀ k, t_shape <$> named k (m_params m1) = t_shape <$> named k (m_params m2).

(** The parameters of [m2] with the values of [m1]. *)
Definition with_values_of (m1 m2 : module_obj) : module_obj :=
  with_params m2
    (map (fun kt => (fst kt, match named (fst kt) (m_params m1) with
                             | Some p1 => copy_ (snd kt) p1
                             | None => snd kt
                             end)) (m_params m2)).

(** The model of [sample_world] after some training. *)
Definition trained_tensor : tensor :=
  {| t_shape := [2%N]; t_data := [5; 8]%Z; t_device := CPU |}.

Definition trained_model : module_obj :=
  {| m_params := [("weight", trained_tensor)]; m_distinct := I |}.




(** The optimizer of [sample_world] after some training, and one with no
    group at all. *)
Definition trained_optimizer : optimizer_obj :=
  {| o_state := [("0", VDict [("momentum_buffer", VTensor trained_tensor)])];
     o_groups := [ {| pg_options := [("lr", VFloat three_quarters)];
                      pg_params := [0%Z]; pg_clean := I |} ] |}.


(** What [load_best_model] raises on a file that holds a checkpoint, by the
    object it is asked to load into: a module rejects the unexpected keys, an
    optimizer misses its own, a dangling reference has no method. *)
Definition checkpoint_as_weights_error (o : option object) : exn :=
  match o with
  | Some (OModule _) => RuntimeError
  | Some (OOptimizer _) => KeyError "param_groups"
  | None => AttributeError
  end.


(** ** Notions of the statements about files read back and objects loaded *)

(** The integer a decimal numeral denotes, with a minus sign or without: what
    [int] makes of the text [str] gives for an integer. *)
Definition decimal_value (s : string) : option Z :=
  option_map Z.of_int (NilZero.int_of_string s).

(** A [repr] of floats that reads back, with its reader: the text of the
    sample serializer. *)
Definition bits_repr (x : spec_float) : string := bits_dumps (VFloat x).

Definition bits_float (s : string) : option spec_float :=
  match bits_loads s with
  | Ok (VFloat x) => Some x
  | _ => None
  end.

(** The metrics file of experiment [e] holds text that is no row of the CSV
    writer: an opening quote that nothing closes. *)
Definition fs_open_quote : gmap string node :=
  {[ "out" := Dir; "out/e" := Dir;
     "out/e/acc.csv" := File (String Csv.quotechar "abc") ]}.

(** A group as a state dict holds it: a dict with the numbers of the
    parameters under [params] and, under every other key, what the group has
    there. *)
Definition packs_group (g : param_group) (v : pyval) : Prop :=
  ∃ d, v = VDict d
       ∧ dict_get "params" d = Some (VList (map VInt (pg_params g)))
       ∧ ∀ k, k ≠ "params" → dict_get k d = dict_get k (pg_options g).

(** The state dict of an object, entry by entry.  Of a module: a dict whose
    keys are the names of its tensors, in their order, each bound to the
    tensor of that name.  Of an optimizer: a dict of [state], bound to the
    entries of its state, and [param_groups], bound to its groups. *)
Definition holds_state (o : object) (sd : pyval) : Prop :=
  match o with
  | OModule m =>
      ∃ d, sd = VDict d
           ∧ map fst d = map fst (m_params m)
           ∧ ∀ k, dict_get k d = VTensor <$> named k (m_params m)
  | OOptimizer opt =>
      ∃ gs, sd = VDict [("state", VDict (o_state opt)); ("param_groups", VList gs)]
            ∧ Forall2 packs_group (o_groups opt) gs
  end.

(** The tensor [p'] is the tensor [p] after the entry [v] of a state dict
    was copied into it: the shape and the device are those of [p], the
    elements those of the entry, which has the shape of [p] (or, for a [p] of
    no dimension, one dimension, and gives its first element). *)
Definition holds_entry (p : tensor) (v : option pyval) (p' : tensor) : Prop :=
  t_shape p' = t_shape p ∧ t_device p' = t_device p
  ∧ ∃ input, v = Some (VTensor input)
      ∧ (t_shape input = t_shape p ∧ t_data p' = t_data input
         ∨ t_shape p = [] ∧ length (t_shape input) = 1
           ∧ ∃ x rest, t_data input = x :: rest ∧ t_data p' = [x]).

(** The module [m'] is the module [m] after the state dict [d] was loaded:
    the same names in the same order, every tensor with the elements of its
    entry. *)
Definition module_loaded (d : list (string * pyval)) (m m' : module_obj) : Prop :=
  Forall2 (fun kp kp' => fst kp' = fst kp
                         ∧ holds_entry (snd kp) (dict_get (fst kp) d) (snd kp'))
    (m_params m) (m_params m').

(** The group [g'] is the group [g] after the saved group [s] was loaded:
    the parameters of [g], the other entries of [s]. *)
Definition group_loaded (g : param_group) (s : pyval) (g' : param_group) : Prop :=
  pg_params g' = pg_params g
  ∧ ∃ d, s = VDict d
         ∧ ∀ k, k ≠ "params" → dict_get k (pg_options g') = dict_get k d.

(** The optimizer [o'] is the optimizer [o] after the state dict [d] was
    loaded: the state of [d], and group by group the parameters of [o] with
    the entries of the saved group. *)
Definition optimizer_loaded (d : list (string * pyval)) (o o' : optimizer_obj)
  : Prop :=
  dict_get "state" d = Some (VDict (o_state o'))
  ∧ ∃ saved, dict_get "param_groups" d = Some saved
             ∧ Forall3 group_loaded (o_groups o) (items saved) (o_groups o').

Definition object_loaded (sd : pyval) (o o' : object) : Prop :=
  match sd, o, o' with
  | VDict d, OModule m, OModule m' => module_loaded d m m'
  | VDict d, OOptimizer opt, OOptimizer opt' => optimizer_loaded d opt opt'
  | _, _, _ => False
  end.

(** The checkpoint file of experiment [e] holds the state of a trained model
    and nothing else. *)
Definition fs_weights_only : gmap string node :=
  {[ "out" := Dir; "out/e" := Dir;
     "out/e/checkpoint.pth.tar" :=
       File (bits_dumps (VDict [("model_state_dict", Module_state_dict trained_model)])) ]}.
(** * Properties *)

(** ** The model at work *)

Example join_relative :
  Path.join "out" ["exp1"; "acc.csv"] = "out/exp1/acc.csv".
Proof. reflexivity. Qed.

Example join_absolute :
  Path.join "out" ["/data/exp1"; "acc.csv"] = "/data/exp1/acc.csv".
Proof. reflexivity. Qed.

Example split_nested : Path.split "out/exp1//logs" = ("out/exp1", "logs").
Proof. reflexivity. Qed.

Example split_root : Path.split "/tmp" = ("/", "tmp").
Proof. reflexivity. Qed.

Example str_of_Z_neg : Str.of_Z (-12) = "-12".
Proof. reflexivity. Qed.

Example str_of_Z_zero : Str.of_Z 0 = "0".
Proof. reflexivity. Qed.

Example strftime_example :
  strftime_Ymd_HM {| tm_year := 2022; tm_mon := 1; tm_mday := 9;
                     tm_hour := 17; tm_min := 5 |} = "2022-01-09-17-05".
Proof. reflexivity. Qed.

Example row_plain : Csv.row_text ["epoch"; "acc"] = "epoch,acc" ++ Csv.lineterminator.
Proof. reflexivity. Qed.

Example row_quoted :
  Csv.row_text ["epoch"; "top,1"]
  = "epoch," ++ String Csv.quotechar ("top,1" ++ String Csv.quotechar Csv.lineterminator).
Proof. reflexivity. Qed.

Example read_two_rows :
  CsvReader.read_all (Csv.row_text ["epoch"; "top,1"] ++ Csv.row_text ["3"; "0.5"])
  = Some [["epoch"; "top,1"]; ["3"; "0.5"]].
Proof. reflexivity. Qed.

Example read_embedded_newline :
  CsvReader.read_all (Csv.row_text ["epoch"; Csv.lineterminator] ++ Csv.row_text ["3"; "0.5"])
  = Some [["epoch"; Csv.lineterminator]; ["3"; "0.5"]].
Proof. reflexivity. Qed.

Example read_single_empty_field :
  CsvReader.read_all (Csv.row_text [EmptyString]) = Some [[EmptyString]].
Proof. reflexivity. Qed.

Example read_unterminated_quote :
  CsvReader.read_all (String Csv.quotechar "abc" ++ Csv.row_text ["3"; "0.5"])
  = Some [["abc3,0.5" ++ Csv.lineterminator]].
Proof. reflexivity. Qed.

(** ** Strings and paths *)


Lemma append_cons (a : ascii) (s t : string) : String a s ++ t = String a (s ++ t).
Proof. reflexivity. Qed.

Lemma rcut_app (c : ascii) (s : string) :
  fst (Str.rcut c s) ++ snd (Str.rcut c s) = s.
Proof.
  induction s as [|a r IH]; [done|].
  cbn [Str.rcut]. destruct (Str.contains c (String a r)); [|done].
  destruct (Str.rcut c r) as [h t]. simpl in *. by rewrite append_cons, IH.
Qed.

Lemma rstrip_length (c : ascii) (s : string) :
  String.length (Str.rstrip c s) <= String.length s.
Proof.
  induction s as [|a r IH]; [done|].
  cbn [Str.rstrip]. destruct (Str.rstrip c r); [destruct (Ascii.eqb a c)|]; simpl in *; lia.
Qed.

Lemma length_append (s t : string) :
  String.length (s ++ t) = String.length s + String.length t.
Proof. induction s; [done|]. rewrite append_cons. simpl. by rewrite IHs. Qed.

Lemma split_length (p : string) :
  String.length (fst (Path.split p)) + String.length (snd (Path.split p))
  <= String.length p.
Proof.
  unfold Path.split. pose proof (rcut_app Str.sep p) as H.
  destruct (Str.rcut Str.sep p) as [h t]. simpl in H. subst p.
  rewrite length_append. simpl.
  destruct (_ && _); [|lia]. pose proof (rstrip_length Str.sep h). lia.
Qed.

Lemma check_parent_insert (fs : gmap string node) (p : string) (n : node) :
  FS.check_parent fs p = Ok tt → FS.check_parent (<[p := n]> fs) p = Ok tt.
Proof.
  unfold FS.check_parent. destruct (Str.contains FS.NUL p); [done|].
  pose proof (split_length p) as Hlen.
  destruct (Path.split p) as [head tail]. simpl in Hlen.
  destruct tail as [|a tail]; [by destruct (Str.is_empty p)|]. simpl.
  destruct (Str.is_empty head); [done|].
  unfold FS.stat. destruct (Str.contains FS.NUL head); [done|].
  destruct (_ && _); [done|].
  rewrite lookup_insert_ne; [done|].
  intros ->. simpl in Hlen. lia.
Qed.

(** ** Modules and optimizers *)

Lemma module_eq (m1 m2 : module_obj) : m_params m1 = m_params m2 → m1 = m2.
Proof.
  destruct m1 as [ps1 H1], m2 as [ps2 H2]. cbn. intros ->.
  f_equal. apply proof_irrel.
Qed.

Lemma group_eq (g1 g2 : param_group) :
  pg_params g1 = pg_params g2 → pg_options g1 = pg_options g2 → g1 = g2.
Proof.
  destruct g1 as [ps1 o1 H1], g2 as [ps2 o2 H2]. cbn. intros -> ->.
  f_equal. apply proof_irrel.
Qed.

Lemma with_params_params (m : module_obj) (ps : list (string * tensor)) :
  distinct (map fst ps) → m_params (with_params m ps) = ps.
Proof. intros H. unfold with_params. by destruct (decide _). Qed.

Lemma with_params_id (m : module_obj) : with_params m (m_params m) = m.
Proof. apply module_eq, with_params_params, m_distinct. Qed.

Lemma with_params_names (m : module_obj) (ps : list (string * tensor)) :
  map fst ps = map fst (m_params m) → m_params (with_params m ps) = ps.
Proof. intros H. apply with_params_params. rewrite H. apply m_distinct. Qed.

Lemma dict_get_named (k : string) (ps : list (string * tensor)) :
  dict_get k (map (fun kt => (fst kt, VTensor (snd kt))) ps) = VTensor <$> named k ps.
Proof.
  induction ps as [|[k' t] ps IH]; [done|]. cbn.
  by destruct (String.eqb k' k).
Qed.

Lemma named_elem_of (k : string) (p : tensor) (ps : list (string * tensor)) :
  named k ps = Some p → (k, p) ∈ ps.
Proof.
  induction ps as [|[k' t] ps IH]; [done|]. cbn.
  destruct (String.eqb_spec k' k) as [->|Hne].
  - intros [= ->]. left.
  - intros H. right. by apply IH.
Qed.

Lemma existsb_eqb_false (k : string) (names : list string) :
  existsb (String.eqb k) names = false → k ∉ names.
Proof.
  induction names as [|n names IH]; cbn; [intros _; apply not_elem_of_nil|].
  intros [Hn H]%orb_false_iff. apply not_elem_of_cons. split; [|by apply IH].
  intros ->. by rewrite String.eqb_refl in Hn.
Qed.

Lemma distinct_named (k : string) (p : tensor) (ps : list (string * tensor)) :
  distinct (map fst ps) → (k, p) ∈ ps → named k ps = Some p.
Proof.
  induction ps as [|[k' t] ps IH]; [by intros _ ?%elem_of_nil|]. cbn.
  intros [Hk' Hd]%andb_True Hin. apply negb_True, Is_true_false in Hk'.
  apply elem_of_cons in Hin as [[= -> ->]|Hin].
  - by rewrite String.eqb_refl.
  - destruct (String.eqb_spec k' k) as [->|Hne]; [|by apply IH].
    apply existsb_eqb_false in Hk'. destruct Hk'.
    apply list_elem_of_fmap. by exists (k, p).
Qed.

Lemma named_is_Some (k : string) (ps : list (string * tensor)) :
  is_Some (named k ps) ↔ k ∈ map fst ps.
Proof.
  induction ps as [|[k' t] ps IH]; cbn.
  - split; [by intros [? ?]|by intros ?%elem_of_nil].
  - destruct (String.eqb_spec k' k) as [->|Hne].
    + split; [intros _; left|eauto].
    + rewrite IH. split; [by right|]. by intros [?|?]%elem_of_cons.
Qed.

Lemma copy_self (p : tensor) : copy_ p p = p.
Proof. by destruct p. Qed.

(** An entry of the shape of the tensor is copied. *)
Lemma load_param_same_shape (d : list (string * pyval)) (k : string) (p t : tensor) :
  dict_get k d = Some (VTensor t) → t_shape t = t_shape p →
  load_param d k p = Copied (copy_ p t).
Proof.
  intros Hd Hshape. unfold load_param. rewrite Hd, Hshape.
  destruct (t_shape p) as [|n sh]; cbn; unfold shape_eqb;
    by rewrite bool_decide_eq_true_2.
Qed.

Lemma load_param_own (ps : list (string * tensor)) (k : string) (p : tensor) :
  named k ps = Some p →
  load_param (map (fun kt => (fst kt, VTensor (snd kt))) ps) k p = Copied p.
Proof.
  intros H. rewrite (load_param_same_shape _ k p p); [by rewrite copy_self| |done].
  by rewrite dict_get_named, H.
Qed.

Lemma load_params_own (d : list (string * pyval)) (ps : list (string * tensor)) :
  (∀ k p, (k, p) ∈ ps → load_param d k p = Copied p) →
  load_params d ps = (ps, true, None).
Proof.
  induction ps as [|[k p] ps IH]; [done|]. intros H. cbn.
  rewrite (H k p) by left. rewrite IH; [done|]. intros k' p' Hin. apply H. by right.
Qed.

Lemma Module_load_own (m : module_obj) :
  Module_load_state_dict m (Module_state_dict m) = (m, None).
Proof.
  unfold Module_load_state_dict, Module_state_dict.
  rewrite load_params_own.
  - rewrite with_params_id.
    assert (forallb (fun kv => bool_decide (is_Some (named (fst kv) (m_params m))))
              (map (fun kt => (fst kt, VTensor (snd kt))) (m_params m)) = true) as ->;
      [|done].
    apply forallb_forall. intros [k v] Hin.
    apply in_map_iff in Hin as ([k' t] & [= <- <-] & Hin). cbn.
    apply bool_decide_eq_true_2, named_is_Some, list_elem_of_fmap.
    exists (k', t). split; [done|]. by apply list_elem_of_In.
  - intros k p Hin. apply load_param_own, distinct_named; [apply m_distinct|done].
Qed.

Lemma dict_get_app_clean (k : string) (d : list (string * pyval)) (v : pyval) :
  negb (has_key k d) → dict_get k (d ++ [(k, v)]) = Some v.
Proof.
  induction d as [|[k' v'] d IH]; cbn; [by rewrite String.eqb_refl|].
  destruct (String.eqb k' k); [done|]. apply IH.
Qed.

Lemma del_key_app_clean (k : string) (d : list (string * pyval)) (v : pyval) :
  negb (has_key k d) → del_key k (d ++ [(k, v)]) = d.
Proof.
  induction d as [|[k' v'] d IH]; cbn; [by rewrite String.eqb_refl|].
  destruct (String.eqb k' k); [done|]. intros H. by rewrite IH.
Qed.

Lemma has_key_del_key (k : string) (d : list (string * pyval)) :
  has_key k (del_key k d) = false.
Proof.
  induction d as [|[k' v'] d IH]; [done|]. cbn.
  destruct (String.eqb k' k) eqn:E; [done|]. cbn. by rewrite E.
Qed.

(** What [update_group] makes of a saved dict. *)
Lemma update_group_dict (g : param_group) (d : list (string * pyval)) :
  pg_params (update_group g (VDict d)) = pg_params g
  ∧ pg_options (update_group g (VDict d)) = del_key "params" d.
Proof.
  unfold update_group. destruct (decide _) as [H|H]; [done|].
  destruct H. by rewrite has_key_del_key.
Qed.

Lemma update_group_own (g : param_group) : update_group g (group_val g) = g.
Proof.
  unfold group_val. destruct (update_group_dict g
    (pg_options g ++ [("params", VList (map VInt (pg_params g)))])) as [Hp Ho].
  apply group_eq; [done|]. rewrite Ho. apply del_key_app_clean, pg_clean.
Qed.

Lemma check_group_val (g g' : param_group) :
  length (pg_params g) = length (pg_params g') →
  check_group g (group_val g') = Ok tt.
Proof.
  intros Hlen. unfold check_group, group_val, getitem.
  rewrite dict_get_app_clean by apply pg_clean. cbn.
  by rewrite length_map, Hlen, Nat.eqb_refl.
Qed.

Lemma check_ids_vals (gs : list param_group) : check_ids (map group_val gs) = Ok tt.
Proof.
  unfold check_ids.
  assert (forallb (fun s => match getitem s "params" with
                            | Ok ps => forallb hashable (items ps)
                            | Err _ => true
                            end) (map group_val gs) = true) as ->; [|done].
  apply forallb_forall. intros s Hin. apply in_map_iff in Hin as (g & <- & _).
  unfold group_val, getitem. rewrite dict_get_app_clean by apply pg_clean. cbn.
  apply forallb_forall. by intros v (z & <- & _)%in_map_iff.
Qed.

Lemma load_groups_own (gs : list param_group) :
  check_groups gs (map group_val gs) = Ok tt
  ∧ update_groups gs (map group_val gs) = gs.
Proof.
  induction gs as [|g gs [IH1 IH2]]; [done|]. cbn [map check_groups update_groups].
  by rewrite check_group_val, IH1, update_group_own, IH2.
Qed.

Lemma Optimizer_load_own (o : optimizer_obj) :
  Optimizer_load_state_dict o (Optimizer_state_dict o) = Ok o.
Proof.
  destruct o as [st gs]. unfold Optimizer_load_state_dict, Optimizer_state_dict.
  cbn. rewrite length_map, Nat.eqb_refl. cbn.
  destruct (load_groups_own gs) as [-> ->]. by rewrite check_ids_vals.
Qed.

(** ** Files and the serializer *)


Lemma fresh_handle_closed (opens : gmap N handle) (h : handle) :
  delete (fresh (dom opens)) (<[fresh (dom opens) := h]> opens) = opens.
Proof.
  rewrite delete_insert_eq. apply delete_id.
  apply not_elem_of_dom, is_fresh.
Qed.

Lemma with_open_write (p s : string) (m : mode) (w : world) :
  m ≠ ModeR →
  FS.with_open p m (fun file => FS.write file s) w =
  match FS.check_parent (w_fs w) p with
  | Err e => (Err e, w)
  | Ok _ =>
      match w_fs w !! p with
      | Some Dir => (Err (IsADirectoryError p), w)
      | Some (File data) =>
          (Ok tt, set_fs (insert p (File (match m with ModeW => s | _ => data ++ s end))) w)
      | None => (Ok tt, set_fs (insert p (File s)) w)
      end
  end.
Proof.
  intros Hm. unfold FS.with_open, bind, FS.open.
  destruct (FS.check_parent (w_fs w) p) as [[]|e]; [|done].
  destruct w as [fs opens heap pr cuda now]; simpl.
  destruct (fs !! p) as [[|data]|] eqn:Hp; [done| |];
    destruct m; try done; simpl;
    unfold FS.write, FS.close, modify, set_fs, set_open; simpl;
    rewrite ?lookup_insert_eq; simpl; rewrite ?Hp, ?lookup_insert_eq; simpl;
    rewrite ?fresh_handle_closed, ?insert_insert_eq; done.
Qed.

Lemma torch_load_spec (loads : string → result pyval) (p : string)
    (ml : option device) (w : world) :
  torch_load loads p ml w =
  match FS.check_parent (w_fs w) p with
  | Err e => (Err e, w)
  | Ok _ =>
      match w_fs w !! p with
      | Some Dir => (Err (IsADirectoryError p), w)
      | Some (File data) =>
          match loads data with
          | Ok v => (Ok (located ml v), w)
          | Err e => (Err e, w)
          end
      | None => (Err (FileNotFoundError p), w)
      end
  end.
Proof.
  unfold torch_load, FS.with_open, bind, FS.open.
  destruct (FS.check_parent (w_fs w) p) as [[]|e]; [|done].
  destruct w as [fs opens heap pr cuda now]; simpl.
  destruct (fs !! p) as [[|data]|] eqn:Hp; [done| |done].
  unfold FS.read, FS.close, modify, set_open; simpl.
  rewrite lookup_insert_eq; simpl. rewrite Hp.
  destruct (loads data) as [v|]; unfold ret, raise; simpl;
    by rewrite fresh_handle_closed.
Qed.

Lemma torch_save_spec (dumps : pyval → string) (obj : pyval) (p : string) (w : world) :
  torch_save dumps obj p w =
  match FS.check_parent (w_fs w) p with
  | Err e => (Err RuntimeError, w)
  | Ok _ =>
      match w_fs w !! p with
      | Some Dir => (Err RuntimeError, w)
      | _ => (Ok tt, set_fs (insert p (File (dumps obj))) w)
      end
  end.
Proof.
  unfold torch_save, FS.open.
  destruct (FS.check_parent (w_fs w) p) as [[]|e]; [|done].
  destruct w as [fs opens heap pr cuda now]; simpl.
  destruct (fs !! p) as [[|data]|] eqn:Hp; [done| |];
    unfold FS.write, FS.close, modify, set_fs, set_open; simpl;
    rewrite ?lookup_insert_eq; simpl; rewrite ?Hp, ?lookup_insert_eq; simpl;
    rewrite ?fresh_handle_closed, ?insert_insert_eq; done.
Qed.

Lemma state_dict_spec (obj : N) (w : world) :
  state_dict obj w =
  match w_heap w !! obj with
  | Some o => (Ok (object_state_dict o), w)
  | None => (Err AttributeError, w)
  end.
Proof.
  unfold state_dict, bind, gets. by destruct (w_heap w !! obj) as [[]|].
Qed.

Lemma save_checkpoint_spec dumps eid ne ba m o filename w :
  save_checkpoint dumps eid ne ba m o filename w =
  match w_heap w !! m, w_heap w !! o with
  | Some mo, Some oo =>
      torch_save dumps
        (checkpoint_dict ne ba (object_state_dict mo) (object_state_dict oo))
        (Path.join (experiment_dir eid) [filename]) w
  | _, _ => (Err AttributeError, w)
  end.
Proof.
  unfold save_checkpoint, bind. rewrite !state_dict_spec.
  destruct (w_heap w !! m) as [mo|]; [|done].
  rewrite state_dict_spec.
  by destruct (w_heap w !! o) as [oo|].
Qed.

Lemma set_heap_insert_id (obj : N) (o : object) (w : world) :
  w_heap w !! obj = Some o → set_heap (insert obj o) w = w.
Proof.
  intros H. destruct w as [fs opens heap pr cuda now]. unfold set_heap. simpl in *.
  by rewrite insert_id.
Qed.

Lemma load_state_dict_own (obj : N) (o : object) (w : world) :
  w_heap w !! obj = Some o →
  load_state_dict obj (object_state_dict o) w = (Ok tt, w).
Proof.
  intros H. unfold load_state_dict, bind, gets. rewrite H.
  destruct o as [m|opt]; cbn [object_state_dict].
  - rewrite Module_load_own. unfold modify, ret. by rewrite set_heap_insert_id.
  - rewrite Optimizer_load_own. unfold modify. by rewrite set_heap_insert_id.
Qed.

(** ** Checkpoints *)

(** C1: a checkpoint saved under the default file name and loaded again, for
    the same experiment, model and optimizer, gives back the epoch and the
    accuracy that were saved, provided the serializer of the framework reads
    back what it wrote. *)
Theorem checkpoint_roundtrip
    (dumps : pyval → string) (loads : string → result pyval)
    (experiment_id : string) (next_epoch : Z) (best_acc : spec_float)
    (model optimizer : N) (w w' : world) :
  (∀ v, loads (dumps v) = Ok v) →
  save_checkpoint dumps experiment_id next_epoch best_acc model optimizer
    default_filename w = (Ok tt, w') →
  load_checkpoint loads experiment_id model optimizer w'
  = (Ok (model, optimizer, VInt next_epoch, VFloat best_acc), w').
Proof.
  intros Hrt. rewrite save_checkpoint_spec.
  destruct (w_heap w !! model) as [mo|] eqn:Hm; [|done].
  destruct (w_heap w !! optimizer) as [oo|] eqn:Ho; [|done].
  rewrite torch_save_spec.
  destruct (FS.check_parent _ _) as [[]|] eqn:Hparent; [|done].
  set (p := Path.join (experiment_dir experiment_id) [default_filename]) in *.
  set (d := checkpoint_dict _ _ _ _).
  intros Hsaved.
  assert (w' = set_fs (insert p (File (dumps d))) w) as ->
    by (destruct (w_fs w !! p) as [[]|]; congruence).
  clear Hsaved.
  unfold load_checkpoint, bind.
  change (Path.join "out" [experiment_id; "checkpoint.pth.tar"]) with p.
  rewrite torch_load_spec. cbn [w_fs set_fs].
  rewrite (check_parent_insert _ _ _ Hparent), lookup_insert_eq, Hrt.
  cbn [located lift]. subst d. cbn [getitem checkpoint_dict dict_get String.eqb Ascii.eqb Bool.eqb].
  rewrite (load_state_dict_own model mo) by done.
  rewrite (load_state_dict_own optimizer oo) by done.
  done.
Qed.

(** ** Helpers that keep to the file system and their arguments *)

Lemma quiet_ret {A} (a : A) : quiet (ret a).
Proof. by intros w1 w2 ?. Qed.

Lemma quiet_raise {A} (e : exn) : quiet (raise (A := A) e).
Proof. by intros w1 w2 ?. Qed.

Lemma quiet_lift {A} (r : result A) : quiet (lift r).
Proof. by intros w1 w2 ?. Qed.

Lemma quiet_bind {A B} (c : M A) (k : A → M B) :
  quiet c → (∀ a, quiet (k a)) → quiet (bind c k).
Proof.
  intros Hc Hk w1 w2 Hagree. unfold bind.
  specialize (Hc w1 w2 Hagree).
  destruct (c w1) as [r1 w1'], (c w2) as [r2 w2']. simpl in Hc.
  destruct Hc as (-> & Hagree' & Hproc & Hopen & Htime).
  destruct r2 as [a|e]; [|done].
  destruct (Hk a w1' w2' Hagree') as (? & ? & Hproc' & Hopen' & Htime').
  split; [done|]. split; [done|]. split; [|split]; congruence.
Qed.

Lemma quiet_gets {A} (f : world → A) :
  (∀ w1 w2, agree w1 w2 → f w1 = f w2) → quiet (gets f).
Proof. intros Hf w1 w2 Hagree. unfold gets. simpl. by rewrite (Hf w1 w2). Qed.

Lemma quiet_set_heap (f : gmap N object → gmap N object) : quiet (modify (set_heap f)).
Proof.
  intros w1 w2 (Hfs & Hheap & Hcuda). unfold modify, agree. simpl.
  by rewrite Hfs, Hheap, Hcuda.
Qed.

Lemma quiet_with_open_write (p s : string) (m : mode) :
  m ≠ ModeR → quiet (FS.with_open p m (fun file => FS.write file s)).
Proof.
  intros Hm w1 w2 (Hfs & Hheap & Hcuda). rewrite !with_open_write by done.
  rewrite <- Hfs. unfold agree.
  destruct (FS.check_parent (w_fs w1) p); [|done].
  destruct (w_fs w1 !! p) as [[]|]; simpl; by rewrite ?Hfs.
Qed.

Lemma quiet_torch_save (dumps : pyval → string) (obj : pyval) (p : string) :
  quiet (torch_save dumps obj p).
Proof.
  intros w1 w2 (Hfs & Hheap & Hcuda). rewrite !torch_save_spec.
  rewrite <- Hfs. unfold agree.
  destruct (FS.check_parent (w_fs w1) p); [|done].
  destruct (w_fs w1 !! p) as [[]|]; simpl; by rewrite ?Hfs.
Qed.

Lemma quiet_torch_load (loads : string → result pyval) (p : string) (ml : option device) :
  quiet (torch_load loads p ml).
Proof.
  intros w1 w2 (Hfs & Hheap & Hcuda). rewrite !torch_load_spec, <- Hfs.
  unfold agree.
  destruct (FS.check_parent (w_fs w1) p); [|done].
  destruct (w_fs w1 !! p) as [[|data]|]; [done| |done].
  by destruct (loads data).
Qed.

Lemma quiet_state_dict (obj : N) : quiet (state_dict obj).
Proof.
  apply quiet_bind.
  - apply quiet_gets. by intros w1 w2 (_ & -> & _).
  - intros [[]|]; auto using quiet_ret, quiet_raise.
Qed.

Lemma quiet_load_state_dict (obj : N) (sd : pyval) : quiet (load_state_dict obj sd).
Proof.
  apply quiet_bind.
  - apply quiet_gets. by intros w1 w2 (_ & -> & _).
  - intros [[m|o]|]; [..|apply quiet_raise].
    + destruct (Module_load_state_dict m sd) as [m' [e|]];
        (apply quiet_bind; [apply quiet_set_heap|intros _]);
        auto using quiet_ret, quiet_raise.
    + destruct (Optimizer_load_state_dict o sd);
        auto using quiet_set_heap, quiet_raise.
Qed.

Lemma quiet_isfile (p : string) : quiet (FS.isfile p).
Proof. apply quiet_gets. by intros w1 w2 (-> & _). Qed.

Lemma quiet_exists (p : string) : quiet (FS.exists_ p).
Proof. apply quiet_gets. by intros w1 w2 (-> & _). Qed.

Lemma quiet_mkdir (p : string) : quiet (FS.mkdir p).
Proof.
  intros w1 w2 (Hfs & Hheap & Hcuda). unfold FS.mkdir, agree. rewrite <- Hfs.
  destruct (FS.check_parent (w_fs w1) p); [|done].
  destruct (w_fs w1 !! p); [done|]. simpl. by rewrite Hfs.
Qed.

Lemma quiet_makedirs_rec (n : nat) (name : string) : quiet (FS.makedirs_rec n name).
Proof.
  revert name. induction n as [|n IH]; intros name; [apply quiet_raise|].
  cbn [FS.makedirs_rec].
  destruct (Path.split name) as [head tail].
  destruct (if Str.is_empty tail then Path.split head else (head, tail)) as [head' tail'].
  apply quiet_bind; [apply quiet_exists|]. intros head_exists.
  apply quiet_bind.
  - destruct (_ && _); [|apply quiet_ret].
    apply quiet_bind; [|intros _; apply quiet_ret].
    intros w1 w2 Hagree. specialize (IH head' w1 w2 Hagree).
    destruct (FS.makedirs_rec n head' w1) as [r1 w1'],
             (FS.makedirs_rec n head' w2) as [r2 w2'].
    simpl in IH. destruct IH as (-> & ? & ? & ? & ?).
    by destruct r2 as [|[]].
  - intros []; [apply quiet_ret|apply quiet_mkdir].
Qed.

Lemma quiet_makedirs (name : string) : quiet (FS.makedirs name).
Proof. apply quiet_makedirs_rec. Qed.

Lemma quiet_cuda_is_available : quiet Seed.torch_cuda_is_available.
Proof. apply quiet_gets. by intros w1 w2 (_ & _ & ->). Qed.

Lemma quiet_save_plotting_data float_repr eid metric epoch metric_val :
  quiet (save_plotting_data float_repr eid metric epoch metric_val).
Proof.
  unfold save_plotting_data, writerow.
  apply quiet_bind; [apply quiet_isfile|]. intros is_file.
  apply quiet_bind; [|intros _; by apply quiet_with_open_write].
  destruct is_file; simpl; [apply quiet_ret|by apply quiet_with_open_write].
Qed.

Lemma quiet_save_checkpoint dumps eid ne ba model optimizer filename :
  quiet (save_checkpoint dumps eid ne ba model optimizer filename).
Proof.
  unfold save_checkpoint.
  apply quiet_bind; [apply quiet_state_dict|]. intros msd.
  apply quiet_bind; [apply quiet_state_dict|]. intros osd.
  apply quiet_torch_save.
Qed.

Lemma quiet_save_model dumps model eid filename :
  quiet (save_model dumps model eid filename).
Proof.
  unfold save_model.
  apply quiet_bind; [apply quiet_state_dict|]. intros msd.
  apply quiet_torch_save.
Qed.

Lemma quiet_load_checkpoint loads eid model optimizer :
  quiet (load_checkpoint loads eid model optimizer).
Proof.
  unfold load_checkpoint.
  repeat (apply quiet_bind;
          [first [apply quiet_torch_load | apply quiet_lift
                 | apply quiet_load_state_dict]|intros ?]).
  apply quiet_ret.
Qed.

Lemma quiet_load_best_model loads eid model :
  quiet (load_best_model loads eid model).
Proof.
  unfold load_best_model.
  repeat (apply quiet_bind;
          [first [apply quiet_torch_load | apply quiet_cuda_is_available
                 | apply quiet_load_state_dict]|intros ?]).
  apply quiet_ret.
Qed.

Lemma agree_refl (w : world) : agree w w.
Proof. done. Qed.

(** ** The sample serializer reads back what it wrote *)

Lemma pyval_nested_ind (P : pyval → Prop) :
  P VNone → (∀ z, P (VInt z)) → (∀ x, P (VFloat x)) → (∀ s, P (VStr s)) →
  (∀ t, P (VTensor t)) →
  (∀ l, Forall P l → P (VList l)) →
  (∀ d, Forall (fun kv => P (snd kv)) d → P (VDict d)) →
  ∀ v, P v.
Proof.
  intros HN HI HF HS HT HL HD. fix IH 1.
  intros [|z|x|s|t|l|d]; [apply HN|apply HI|apply HF|apply HS|apply HT| |].
  - apply HL. induction l as [|v l IHl]; constructor; [apply IH|apply IHl].
  - apply HD. induction d as [|[k v] d IHd]; constructor; [apply IH|apply IHd].
Qed.

Lemma tree_pyval_tree (v : pyval) : tree_pyval (pyval_tree v) = v.
Proof.
  induction v as [| | x | | t | l IH | d IH] using pyval_nested_ind; simpl; try done.
  - by destruct x.
  - by destruct t as [? ? []].
  - f_equal. induction IH as [|v l Hv _ IHl]; simpl; [done|]. by rewrite Hv, IHl.
  - f_equal. induction IH as [|[k v] d Hv _ IHd]; simpl in *; [done|]. by rewrite Hv, IHd.
Qed.

Lemma pos_of_bits_of_pos (p : positive) : pos_of_bits (bits_of_pos p) = Some p.
Proof. induction p; simpl; by rewrite ?IHp. Qed.

Lemma bits_loads_dumps (v : pyval) : bits_loads (bits_dumps v) = Ok v.
Proof.
  unfold bits_loads, bits_dumps.
  rewrite pos_of_bits_of_pos, decode_encode. by rewrite tree_pyval_tree.
Qed.

Lemma checkpoint_roundtrip_witness :
  let w := sample_world fs_with_experiment in
  let w' := snd (save_checkpoint bits_dumps "e" 3 half 0 1 default_filename w) in
  save_checkpoint bits_dumps "e" 3 half 0 1 default_filename w = (Ok tt, w')
  ∧ load_checkpoint bits_loads "e" 0 1 w' = (Ok (0%N, 1%N, VInt 3, VFloat half), w').
Proof.
  intros w w'.
  assert (save_checkpoint bits_dumps "e" 3 half 0 1 default_filename w = (Ok tt, w'))
    as Hsave by (vm_compute; reflexivity).
  split; [exact Hsave|].
  exact (checkpoint_roundtrip bits_dumps bits_loads "e" 3 half 0 1 w w'
           bits_loads_dumps Hsave).
Defined.

Lemma torch_load_world loads p ml w r w' :
  torch_load loads p ml w = (r, w') → w' = w.
Proof.
  rewrite torch_load_spec.
  destruct (FS.check_parent _ _); [|congruence].
  destruct (w_fs w !! p) as [[|data]|]; [congruence| |congruence].
  destruct (loads data); congruence.
Qed.

(** ** The logger *)

Lemma quiet_ensure_log_dir (eid : string) : quiet (ensure_log_dir eid).
Proof.
  apply quiet_bind; [apply quiet_exists|].
  intros []; [apply quiet_ret|apply quiet_makedirs].
Qed.

Lemma open_append_spec (p : string) (w : world) :
  FS.open p ModeA w =
  match FS.check_parent (w_fs w) p with
  | Err e => (Err e, w)
  | Ok _ =>
      let fd := fresh (dom (w_open w)) in
      let opened := set_open (insert fd {| h_path := p; h_mode := ModeA |}) in
      match w_fs w !! p with
      | Some Dir => (Err (IsADirectoryError p), w)
      | Some (File _) => (Ok fd, opened w)
      | None => (Ok fd, opened (set_fs (insert p (File EmptyString)) w))
      end
  end.
Proof.
  unfold FS.open. destruct (FS.check_parent _ _); [|done].
  by destruct (w_fs w !! p) as [[]|].
Qed.

Lemma is_empty_app_r (s t : string) : Str.is_empty t = false → Str.is_empty (s ++ t) = false.
Proof. intros H. destruct s; [done|reflexivity]. Qed.

Lemma join2_nonempty (a b : string) :
  Str.is_empty b = false → Str.is_empty (Path.join a [b]) = false.
Proof.
  intros H. unfold Path.join, fold_left, Path.join2.
  destruct (Str.startswith _ b); [done|].
  destruct (_ || _); [by apply is_empty_app_r|].
  by apply is_empty_app_r.
Qed.

(** What [create_logger] does after the directory is there. *)
Lemma create_logger_steps (eid : string) (w : world) :
  create_logger eid w =
  match ensure_log_dir eid w with
  | (Err e, w1) => (Err e, w1)
  | (Ok _, w1) =>
      match root_handlers (w_proc w1) with
      | [] =>
          match FS.open (log_fn eid (w_localtime w1)) ModeA w1 with
          | (Err e, w2) => (Err e, w2)
          | (Ok fd, w2) =>
              (Ok RootLogger,
               set_proc (fun p =>
                 Logging.set_handlers
                   [FileHandler fd (log_fn eid (w_localtime w1)) (Some log_format);
                    StreamHandler None]
                   (Logging.set_level Logging.INFO p)) w2)
          end
      | [h] =>
          (Ok RootLogger,
           set_proc (fun p => Logging.set_handlers [h; StreamHandler None]
                                (Logging.set_level Logging.INFO p)) w1)
      | _ :: _ :: _ =>
          (Ok RootLogger, set_proc (Logging.set_level Logging.INFO) w1)
      end
  end.
Proof.
  unfold create_logger, ensure_log_dir, bind.
  destruct (FS.exists_ _ w) as [[present|] w0]; [|done].
  fold (experiment_dir eid). fold (log_dir eid).
  destruct ((if negb present then FS.makedirs (log_dir eid) else ret tt) w0)
    as [[[]|e] w1]; [|done].
  unfold gets at 1. unfold Logging.basicConfig, bind, gets at 1.
  destruct (root_handlers (w_proc w1)) as [|h [|h' hs]] eqn:Hhs.
  - assert (Str.is_empty (Path.join (log_dir eid)
                            [strftime_Ymd_HM (w_localtime w1) ++ ".log"]) = false) as ->.
    { apply join2_nonempty, is_empty_app_r. reflexivity. }
    fold (log_fn eid (w_localtime w1)).
    destruct (FS.open _ ModeA w1) as [[fd|e] w2] eqn:Hopen; [|done].
    clear Hopen. destruct w2 as [fs opens heap [] cuda now]. reflexivity.
  - destruct w1 as [fs opens heap [] cuda now]. simpl in Hhs. subst. reflexivity.
  - destruct w1 as [fs opens heap [] cuda now]. simpl in Hhs. subst. reflexivity.
Qed.

Lemma create_logger_ok (eid : string) (w w' : world) (r : logger) :
  create_logger eid w = (Ok r, w') →
  root_level (w_proc w') = Logging.INFO
  ∧ match root_handlers (w_proc w) with
    | [] =>
        ∃ fd,
          w_open w !! fd = None
          ∧ w_open w' = <[fd := {| h_path := log_fn eid (w_localtime w);
                                   h_mode := ModeA |}]> (w_open w)
          ∧ root_handlers (w_proc w') =
              [FileHandler fd (log_fn eid (w_localtime w)) (Some log_format);
               StreamHandler None]
    | [h] =>
        w_open w' = w_open w
        ∧ root_handlers (w_proc w') = [h; StreamHandler None]
    | hs => w_open w' = w_open w ∧ root_handlers (w_proc w') = hs
    end.
Proof.
  destruct r. rewrite create_logger_steps.
  destruct (quiet_ensure_log_dir eid w w (agree_refl w)) as (_ & _ & Hproc & Hopen & Htime).
  destruct (ensure_log_dir eid w) as [[[]|] w1]; [|done]. simpl in Hproc, Hopen, Htime.
  rewrite Hproc, Htime.
  destruct (root_handlers (w_proc w)) as [|h [|h' hs]] eqn:Hhs.
  - rewrite open_append_spec.
    destruct (FS.check_parent _ _); [|done].
    destruct (w_fs w1 !! _) as [[]|]; [done|..]; intros [= <-]; (split; [done|]);
      exists (fresh (dom (w_open w1))); rewrite <- Hopen; simpl;
      (split; [apply not_elem_of_dom, is_fresh|done]).
  - intros [= <-]. simpl. by rewrite Hopen.
  - intros [= <-]. simpl. by rewrite Hopen, Hproc, Hhs.
Qed.

Lemma create_logger_err (eid : string) (w w' : world) (e : exn) :
  create_logger eid w = (Err e, w') →
  w_open w' = w_open w ∧ w_proc w' = w_proc w.
Proof.
  rewrite create_logger_steps.
  destruct (quiet_ensure_log_dir eid w w (agree_refl w)) as (_ & _ & Hproc & Hopen & Htime).
  destruct (ensure_log_dir eid w) as [[[]|] w1]; simpl in Hproc, Hopen, Htime;
    [|by intros [= <- <-]].
  destruct (root_handlers (w_proc w1)) as [|h [|h' hs]]; [|done..].
  rewrite open_append_spec.
  destruct (FS.check_parent _ _); [|by intros [= <- <-]].
  destruct (w_fs w1 !! _) as [[]|]; [|done..]. by intros [= <- <-].
Qed.

Lemma fix_all_seeds_keeps (seed : Z) (w : world) :
  w_open (snd (fix_all_seeds seed w)) = w_open w
  ∧ w_fs (snd (fix_all_seeds seed w)) = w_fs w
  ∧ w_heap (snd (fix_all_seeds seed w)) = w_heap w.
Proof.
  unfold fix_all_seeds, bind, Seed.random_seed_, Seed.np_random_seed,
    Seed.torch_manual_seed, Seed.torch_cuda_is_available,
    Seed.torch_cuda_manual_seed_all, modify, gets, raise, ret.
  destruct (_ && _); [|done]. simpl. destruct (_ && _); [|done]. simpl.
  by destruct (w_cuda_available w).
Qed.

(** C7, as the code has it: the helpers that save, load and seed leave the
    table of open file handles as they found it, whether they return or raise.
    [create_logger], when the root logger has no handler yet, opens the log
    file and returns with the handle still open: the file handler of the root
    logger holds it.  When the root logger has a handler, or when the call
    raises, it leaves no handle open either. *)
Theorem handles_closed_except_logger
    (float_repr : spec_float → string)
    (dumps : pyval → string) (loads : string → result pyval) (w : world) :
  (∀ eid metric epoch val,
     w_open (snd (save_plotting_data float_repr eid metric epoch val w)) = w_open w)
  ∧ (∀ eid ne ba model optimizer filename,
       w_open (snd (save_checkpoint dumps eid ne ba model optimizer filename w))
       = w_open w)
  ∧ (∀ model eid filename,
       w_open (snd (save_model dumps model eid filename w)) = w_open w)
  ∧ (∀ eid model optimizer,
       w_open (snd (load_checkpoint loads eid model optimizer w)) = w_open w)
  ∧ (∀ eid model, w_open (snd (load_best_model loads eid model w)) = w_open w)
  ∧ (∀ seed, w_open (snd (fix_all_seeds seed w)) = w_open w)
  ∧ (∀ eid r w',
       create_logger eid w = (r, w') →
       match root_handlers (w_proc w), r with
       | [], Ok _ =>
           ∃ fd,
             w_open w !! fd = None
             ∧ w_open w' = <[fd := {| h_path := log_fn eid (w_localtime w);
                                      h_mode := ModeA |}]> (w_open w)
             ∧ root_handlers (w_proc w') =
                 [FileHandler fd (log_fn eid (w_localtime w)) (Some log_format);
                  StreamHandler None]
       | _, _ => w_open w' = w_open w
       end).
Proof.
  split; [|split; [|split; [|split; [|split; [|split]]]]].
  - intros. apply (quiet_save_plotting_data _ _ _ _ _ w w (agree_refl w)).
  - intros. apply (quiet_save_checkpoint _ _ _ _ _ _ _ w w (agree_refl w)).
  - intros. apply (quiet_save_model _ _ _ _ w w (agree_refl w)).
  - intros. apply (quiet_load_checkpoint _ _ _ _ w w (agree_refl w)).
  - intros. apply (quiet_load_best_model _ _ _ w w (agree_refl w)).
  - intros. apply fix_all_seeds_keeps.
  - intros eid [r|e] w' H.
    + apply create_logger_ok in H as [_ H].
      destruct (root_handlers (w_proc w)) as [|h [|h' hs]]; [done|apply H..].
    + apply create_logger_err in H as [H _].
      by destruct (root_handlers (w_proc w)).
Qed.

Lemma create_logger_leaves_handle_open :
  let w := sample_world ∅ in
  w_open w = ∅
  ∧ fst (create_logger "run1" w) = Ok RootLogger
  ∧ w_open (snd (create_logger "run1" w)) !! 0%N
    = Some {| h_path := "out/run1/logs/2022-01-09-17-05.log"; h_mode := ModeA |}.
Proof. vm_compute. auto. Qed.

(** ** The state of the process *)

Lemma fix_all_seeds_ok (seed : Z) (w : world) :
  (0 <= seed < 2 ^ 32)%Z →
  ∃ w',
    fix_all_seeds seed w = (Ok tt, w')
    ∧ random_seed (w_proc w') = Some seed
    ∧ numpy_seed (w_proc w') = Some seed
    ∧ torch_seed (w_proc w') = Some seed
    ∧ environ (w_proc w') !! "PYTHONHASHSEED" = Some (Str.of_Z seed)
    ∧ cuda_seed (w_proc w')
      = (if w_cuda_available w then Some seed else cuda_seed (w_proc w)).
Proof.
  intros Hseed.
  unfold fix_all_seeds, bind, Seed.random_seed_, Seed.np_random_seed,
    Seed.torch_manual_seed, Seed.torch_cuda_is_available,
    Seed.torch_cuda_manual_seed_all, modify, gets, raise, ret.
  assert ((0 <=? seed)%Z && (seed <? 2 ^ 32)%Z = true) as -> by lia.
  assert ((- 2 ^ 63 <=? seed)%Z && (seed <? 2 ^ 64)%Z = true) as -> by lia.
  simpl. destruct (w_cuda_available w); eexists; (split; [reflexivity|]); simpl;
    by rewrite lookup_insert_eq.
Qed.

(** C8, as the code has it: the helpers that save and load are functions of
    their arguments, the file system, the objects passed and the availability
    of CUDA; they neither read nor change the state of the process.
    [create_logger] reads and changes the root logger, which the process
    shares between calls, and [fix_all_seeds] sets the seeds and the
    environment of the process. *)
Theorem process_state_use
    (float_repr : spec_float → string)
    (dumps : pyval → string) (loads : string → result pyval) :
  (∀ eid metric epoch val,
     quiet (save_plotting_data float_repr eid metric epoch val))
  ∧ (∀ eid ne ba model optimizer filename,
       quiet (save_checkpoint dumps eid ne ba model optimizer filename))
  ∧ (∀ model eid filename, quiet (save_model dumps model eid filename))
  ∧ (∀ eid model optimizer, quiet (load_checkpoint loads eid model optimizer))
  ∧ (∀ eid model, quiet (load_best_model loads eid model))
  ∧ (∀ eid w r w',
       create_logger eid w = (Ok r, w') →
       root_level (w_proc w') = Logging.INFO
       ∧ match root_handlers (w_proc w) with
         | [] =>
             ∃ fd, root_handlers (w_proc w') =
                     [FileHandler fd (log_fn eid (w_localtime w)) (Some log_format);
                      StreamHandler None]
         | [h] => root_handlers (w_proc w') = [h; StreamHandler None]
         | hs => root_handlers (w_proc w') = hs
         end)
  ∧ (∀ seed w,
       (0 <= seed < 2 ^ 32)%Z →
       ∃ w',
         fix_all_seeds seed w = (Ok tt, w')
         ∧ random_seed (w_proc w') = Some seed
         ∧ numpy_seed (w_proc w') = Some seed
         ∧ torch_seed (w_proc w') = Some seed
         ∧ environ (w_proc w') !! "PYTHONHASHSEED" = Some (Str.of_Z seed)).
Proof.
  split; [|split; [|split; [|split; [|split; [|split]]]]].
  - intros. apply quiet_save_plotting_data.
  - intros. apply quiet_save_checkpoint.
  - intros. apply quiet_save_model.
  - intros. apply quiet_load_checkpoint.
  - intros. apply quiet_load_best_model.
  - intros eid w r w' H. apply create_logger_ok in H as [Hlevel H].
    split; [done|].
    destruct (root_handlers (w_proc w)) as [|h [|h' hs]].
    + destruct H as (fd & _ & _ & H). by exists fd.
    + apply H.
    + apply H.
  - intros seed w Hseed.
    destruct (fix_all_seeds_ok seed w Hseed) as (w' & ? & ? & ? & ? & ? & _).
    by exists w'.
Qed.

Lemma process_state_use_witness :
  fst (save_model bits_dumps 0 "e" "m.pth" (sample_world fs_with_experiment))
  = fst (save_model bits_dumps 0 "e" "m.pth"
           (snd (fix_all_seeds 7 (sample_world fs_with_experiment))))
  ∧ ∃ w', fix_all_seeds 7 (sample_world ∅) = (Ok tt, w')
          ∧ random_seed (w_proc w') = Some 7%Z
          ∧ numpy_seed (w_proc w') = Some 7%Z
          ∧ torch_seed (w_proc w') = Some 7%Z
          ∧ environ (w_proc w') !! "PYTHONHASHSEED" = Some (Str.of_Z 7).
Proof.
  destruct (process_state_use sample_repr bits_dumps bits_loads)
    as (_ & _ & Hsave & _ & _ & _ & Hseed).
  split.
  - apply (Hsave 0%N "e" "m.pth"). vm_compute. auto.
  - apply Hseed. lia.
Defined.

(** The same call of [create_logger], on the same file system, creates the log
    file of experiment [b] in a fresh process and does not create it after
    [create_logger] has run for experiment [a]. *)
Lemma create_logger_depends_on_history :
  let w1 := sample_world fs_logged in
  let w2 := snd (create_logger "a" w1) in
  w_fs w2 = w_fs w1
  ∧ fst (create_logger "b" w1) = Ok RootLogger
  ∧ fst (create_logger "b" w2) = Ok RootLogger
  ∧ w_fs (snd (create_logger "b" w1)) !! "out/b/logs/2022-01-09-17-05.log"
    = Some (File EmptyString)
  ∧ w_fs (snd (create_logger "b" w2)) !! "out/b/logs/2022-01-09-17-05.log" = None.
Proof. vm_compute. auto 10. Qed.

(** ** The CSV reader reads what the CSV writer wrote *)

Module CsvFacts.
Import Csv CsvReader.

Lemma append_nil_r (s : string) : s ++ EmptyString = s.
Proof. induction s; [done|]. by rewrite append_cons, IHs. Qed.

Lemma append_assoc (s t u : string) : (s ++ t) ++ u = s ++ t ++ u.
Proof. induction s; [done|]. by rewrite !append_cons, IHs. Qed.

Lemma special_false (c : ascii) :
  special c = false →
  Ascii.eqb c delimiter = false ∧ Ascii.eqb c quotechar = false
  ∧ Ascii.eqb c LF = false ∧ Ascii.eqb c CR = false.
Proof.
  unfold special, lineterminator. cbn [Str.contains].
  rewrite (Ascii.eqb_sym CR c), (Ascii.eqb_sym LF c).
  destruct (Ascii.eqb c delimiter), (Ascii.eqb c quotechar), (Ascii.eqb c LF),
    (Ascii.eqb c CR); simpl; auto; discriminate.
Qed.

Lemma run_ch (r r' : reader) (c : ascii) (evs : list input) :
  process_char r (Ch c) = Some r' → run r (Ch c :: evs) = run r' evs.
Proof. intros H. cbn [run]. by rewrite H. Qed.

Lemma run_eol_quoted (r : reader) (evs : list input) :
  state r = IN_QUOTED_FIELD → run r (EOL :: evs) = run r evs.
Proof. intros H. cbn [run]. unfold process_char. by rewrite H, H. Qed.

(** A character that ends no line, before more text. *)
Lemma events_plain (c c' : ascii) (r : string) :
  Ascii.eqb c LF = false → Ascii.eqb c CR = false →
  events (String c (String c' r)) = Ch c :: events (String c' r).
Proof. intros H1 H2. cbn [events]. by rewrite H1, H2. Qed.

Lemma events_crlf (r : string) :
  events (String CR (String LF r)) = Ch CR :: Ch LF :: EOL :: events r.
Proof. reflexivity. Qed.

(** Inside quotes a character other than the quote joins the field, whatever
    the lines are. *)
Lemma run_quoted_char (acc : string) (fs : list string) (c : ascii) (r : string) :
  Ascii.eqb c quotechar = false →
  run {| state := IN_QUOTED_FIELD; field := acc; fields := fs |} (events (String c r))
  = run {| state := IN_QUOTED_FIELD; field := acc ++ String c EmptyString; fields := fs |}
      (events r).
Proof.
  intros Hq.
  assert (Hstep : ∀ evs,
    run {| state := IN_QUOTED_FIELD; field := acc; fields := fs |} (Ch c :: evs)
    = run {| state := IN_QUOTED_FIELD; field := acc ++ String c EmptyString;
             fields := fs |} evs).
  { intros evs. apply run_ch. unfold process_char. cbn [state]. by rewrite Hq. }
  cbn [events].
  destruct (Ascii.eqb c LF) eqn:HLF.
  { by rewrite Hstep, run_eol_quoted. }
  destruct (Ascii.eqb c CR) eqn:HCR.
  { destruct r as [|c' r'].
    - by rewrite Hstep, run_eol_quoted.
    - destruct (Ascii.eqb c' LF) eqn:HLF'.
      + rewrite Hstep. cbn [events]. by rewrite HLF'.
      + by rewrite Hstep, run_eol_quoted. }
  destruct r as [|c' r'].
  - by rewrite Hstep, run_eol_quoted.
  - by rewrite Hstep.
Qed.

(** The body of a quoted field, up to the closing quote. *)
Lemma run_quoted_body (f acc : string) (fs : list string) (c : ascii) (tail : string) :
  run {| state := IN_QUOTED_FIELD; field := acc; fields := fs |}
    (events (escape f ++ String quotechar (String c tail)))
  = run {| state := QUOTE_IN_QUOTED_FIELD; field := acc ++ f; fields := fs |}
      (events (String c tail)).
Proof.
  revert acc. induction f as [|a f IH]; intros acc.
  - rewrite append_nil_r. cbn [escape].
    change (EmptyString ++ ?x) with x.
    rewrite events_plain by reflexivity. by apply run_ch.
  - cbn [escape]. destruct (Ascii.eqb a quotechar) eqn:Ha.
    + apply Ascii.eqb_eq in Ha as ->.
      rewrite !append_cons.
      set (X := escape f ++ String quotechar (String c tail)) in *.
      assert (∃ c' r', X = String c' r') as (c' & r' & HX).
      { subst X. destruct (escape f); rewrite ?append_cons; eauto. }
      rewrite events_plain by reflexivity.
      rewrite (run_ch _ {| state := QUOTE_IN_QUOTED_FIELD; field := acc; fields := fs |})
        by reflexivity.
      rewrite HX, events_plain by reflexivity.
      rewrite (run_ch _ {| state := IN_QUOTED_FIELD;
                           field := acc ++ String quotechar EmptyString;
                           fields := fs |}) by reflexivity.
      rewrite <- HX. subst X. rewrite IH. by rewrite append_assoc.
    + rewrite append_cons, run_quoted_char by done. rewrite IH.
      by rewrite append_assoc.
Qed.

Definition field_open (st : rstate) : Prop :=
  st = START_FIELD ∨ st = IN_FIELD ∨ st = QUOTE_IN_QUOTED_FIELD.

(** A delimiter after a field, before more text. *)
Lemma run_delimiter (st : rstate) (acc : string) (fs : list string) (c : ascii) (t : string) :
  field_open st ∨ (st = START_RECORD ∧ acc = EmptyString) →
  run {| state := st; field := acc; fields := fs |}
    (events (String delimiter (String c t)))
  = run {| state := START_FIELD; field := EmptyString; fields := fs ++ [acc] |}
      (events (String c t)).
Proof.
  intros Hst. rewrite events_plain by reflexivity. apply run_ch.
  destruct Hst as [[->|[->| ->]]|[-> ->]]; reflexivity.
Qed.

(** The line terminator after the last field of a record. *)
Lemma run_terminator (st : rstate) (acc : string) (fs : list string) (rest : string) :
  field_open st →
  run {| state := st; field := acc; fields := fs |}
    (events (lineterminator ++ rest))
  = option_map (cons (fs ++ [acc])%list) (run init (events rest)).
Proof.
  intros Hst. unfold lineterminator. rewrite !append_cons.
  change (EmptyString ++ rest) with rest. rewrite events_crlf.
  destruct Hst as [->|[->| ->]]; reflexivity.
Qed.

(** An unquoted field, once its first character is in. *)
Lemma run_unquoted (f acc : string) (fs : list string) (c : ascii) (t : string) :
  needs_quotes f = false →
  run {| state := IN_FIELD; field := acc; fields := fs |} (events (f ++ String c t))
  = run {| state := IN_FIELD; field := acc ++ f; fields := fs |} (events (String c t)).
Proof.
  revert acc. induction f as [|a f IH]; intros acc Hf.
  - by rewrite append_nil_r.
  - cbn [needs_quotes] in Hf. apply orb_false_iff in Hf as [Ha Hf].
    apply special_false in Ha as (Hd & Hq & HLF & HCR).
    rewrite append_cons.
    assert (∃ c' r', f ++ String c t = String c' r') as (c' & r' & HX).
    { destruct f; rewrite ?append_cons; eauto. }
    rewrite HX, events_plain by done.
    rewrite (run_ch _ {| state := IN_FIELD; field := acc ++ String a EmptyString;
                         fields := fs |}).
    + rewrite <- HX, IH by done. by rewrite append_assoc.
    + unfold process_char, is_newline. cbn [state]. by rewrite HLF, HCR, Hd.
Qed.

(** A field as the writer wrote it, read from the start of a field. *)
Lemma run_field (st : rstate) (f : string) (fs : list string) (c : ascii) (t : string) :
  st = START_FIELD ∨ st = START_RECORD →
  ∃ st',
    (field_open st' ∨ (st' = START_RECORD ∧ f = EmptyString ∧ st = START_RECORD))
    ∧ run {| state := st; field := EmptyString; fields := fs |}
        (events (field_text f ++ String c t))
      = run {| state := st'; field := f; fields := fs |} (events (String c t)).
Proof.
  intros Hst. unfold field_text. destruct (needs_quotes f) eqn:Hq.
  - exists QUOTE_IN_QUOTED_FIELD. split; [left; right; by right|].
    rewrite append_cons, append_assoc, !append_cons.
    change (EmptyString ++ String c t) with (String c t).
    assert (∃ c' r', escape f ++ String quotechar (String c t) = String c' r')
      as (c' & r' & HX).
    { destruct (escape f); rewrite ?append_cons; eauto. }
    rewrite HX, events_plain by reflexivity.
    rewrite (run_ch _ {| state := IN_QUOTED_FIELD; field := EmptyString; fields := fs |})
      by (destruct Hst as [->| ->]; reflexivity).
    by rewrite <- HX, run_quoted_body.
  - destruct f as [|a f].
    + exists st. split; [|done]. destruct Hst as [->| ->]; [left; by left|by right].
    + exists IN_FIELD. split; [left; right; by left|].
      cbn [needs_quotes] in Hq. apply orb_false_iff in Hq as [Ha Hf].
      apply special_false in Ha as (Hd & Hqc & HLF & HCR).
      rewrite append_cons.
      assert (∃ c' r', f ++ String c t = String c' r') as (c' & r' & HX).
      { destruct f; rewrite ?append_cons; eauto. }
      rewrite HX, events_plain by done.
      rewrite (run_ch _ {| state := IN_FIELD; field := String a EmptyString;
                           fields := fs |}).
      * by rewrite <- HX, run_unquoted.
      * destruct Hst as [->| ->]; unfold process_char, start_field, is_newline;
          cbn [state]; by rewrite HLF, HCR, Hqc, Hd.
Qed.

(** The fields of a record after the first, one after the other. *)
Lemma run_fields (l fs : list string) (rest : string) :
  l ≠ [] →
  run {| state := START_FIELD; field := EmptyString; fields := fs |}
    (events (join_fields l ++ lineterminator ++ rest))
  = option_map (cons (fs ++ l)%list) (run init (events rest)).
Proof.
  revert fs. induction l as [|f l IH]; intros fs Hl; [done|].
  destruct l as [|f2 l].
  - cbn [join_fields]. unfold lineterminator at 1. rewrite !append_cons.
    destruct (run_field START_FIELD f fs CR (String LF (EmptyString ++ rest)))
      as (st' & Hst' & ->); [by left|].
    destruct Hst' as [Hopen|(_ & _ & ?)]; [|done].
    exact (run_terminator st' f fs rest Hopen).
  - change (join_fields (f :: f2 :: l))
      with (field_text f ++ String delimiter (join_fields (f2 :: l))).
    rewrite append_assoc, append_cons.
    assert (∃ c' r', join_fields (f2 :: l) ++ lineterminator ++ rest = String c' r')
      as (c' & r' & HX).
    { destruct (join_fields (f2 :: l)); rewrite ?append_cons; eauto. }
    destruct (run_field START_FIELD f fs delimiter
                (join_fields (f2 :: l) ++ lineterminator ++ rest))
      as (st' & Hst' & ->); [by left|].
    destruct Hst' as [Hopen|(_ & _ & ?)]; [|done].
    rewrite HX, run_delimiter by (by left). rewrite <- HX, IH by done.
    by rewrite <- app_assoc.
Qed.

(** A record, read from the start of a record. *)
Lemma run_row (l : list string) (rest : string) :
  run init (events (row_text l ++ rest))
  = option_map (cons l) (run init (events rest)).
Proof.
  unfold row_text. rewrite append_assoc.
  destruct l as [|f l]; [reflexivity|].
  unfold record_text.
  destruct l as [|f2 l].
  - cbn [join_fields].
    destruct (Str.is_empty (field_text f)) eqn:He.
    + assert (f = EmptyString) as ->.
      { unfold field_text in He. destruct (needs_quotes f); [done|]. by destruct f. }
      reflexivity.
    + unfold lineterminator at 1. rewrite !append_cons.
      destruct (run_field START_RECORD f [] CR (String LF (EmptyString ++ rest)))
        as (st' & Hst' & Hrun); [by right|].
      unfold init. rewrite Hrun.
      destruct Hst' as [Hopen|(_ & -> & _)]; [|done].
      exact (run_terminator st' f [] rest Hopen).
  - change (join_fields (f :: f2 :: l))
      with (field_text f ++ String delimiter (join_fields (f2 :: l))).
    assert (Str.is_empty (field_text f ++ String delimiter (join_fields (f2 :: l)))
            = false) as -> by (by destruct (field_text f)).
    rewrite append_assoc, append_cons.
    assert (∃ c' r', join_fields (f2 :: l) ++ lineterminator ++ rest = String c' r')
      as (c' & r' & HX).
    { destruct (join_fields (f2 :: l)); rewrite ?append_cons; eauto. }
    destruct (run_field START_RECORD f [] delimiter
                (join_fields (f2 :: l) ++ lineterminator ++ rest))
      as (st' & Hst' & Hrun); [by right|].
    unfold init. rewrite Hrun, HX. clear Hrun.
    rewrite run_delimiter.
    + by rewrite <- HX, run_fields.
    + destruct Hst' as [?|(-> & -> & _)]; [by left|by right].
Qed.

End CsvFacts.

Lemma read_rows_text (rows : list (list string)) :
  CsvReader.read_all (rows_text rows) = Some rows.
Proof.
  unfold CsvReader.read_all. induction rows as [|r rows IH]; [reflexivity|].
  cbn [rows_text]. by rewrite CsvFacts.run_row, IH.
Qed.

Lemma rows_text_app (a b : list (list string)) :
  rows_text (a ++ b) = rows_text a ++ rows_text b.
Proof.
  induction a as [|r a IH]; [done|].
  cbn [rows_text app]. by rewrite IH, CsvFacts.append_assoc.
Qed.

(** ** The metrics file *)

Lemma rcut_all_eq (c : ascii) (s : string) :
  Str.all_eq c s = true → snd (Str.rcut c s) = EmptyString.
Proof.
  induction s as [|a r IH]; [done|].
  cbn [Str.all_eq Str.rcut Str.contains]. intros [Ha Hr]%andb_true_iff.
  rewrite Ha. simpl. specialize (IH Hr). by destruct (Str.rcut c r).
Qed.

Lemma check_parent_stat (fs : gmap string node) (p : string) :
  FS.check_parent fs p = Ok tt → FS.stat fs p = fs !! p.
Proof.
  unfold FS.check_parent, FS.stat.
  destruct (Str.contains FS.NUL p); [done|].
  destruct (negb (Str.is_empty p) && Str.all_eq Str.sep p) eqn:Hall; [|done].
  apply andb_true_iff in Hall as [_ Hall].
  unfold Path.split. pose proof (rcut_all_eq _ _ Hall) as Htail.
  destruct (Str.rcut Str.sep p) as [h t]. simpl in Htail. subst t.
  simpl. by destruct (Str.is_empty p).
Qed.

Lemma check_parent_err_stable (fs : gmap string node) (p : string) (n : node) (e : exn) :
  FS.check_parent fs p = Err e → FS.check_parent (<[p := n]> fs) p = Err e.
Proof.
  unfold FS.check_parent. destruct (Str.contains FS.NUL p); [done|].
  pose proof (split_length p) as Hlen.
  destruct (Path.split p) as [head tail]. simpl in Hlen.
  destruct tail as [|a tail]; [done|]. simpl.
  destruct (Str.is_empty head); [done|].
  unfold FS.stat. destruct (Str.contains FS.NUL head); [done|].
  destruct (_ && _); [done|].
  rewrite lookup_insert_ne; [done|].
  intros ->. simpl in Hlen. lia.
Qed.

(** [save_plotting_data] in one step. *)
Lemma save_plotting_data_spec float_repr eid metric epoch val w :
  let fn := Path.join "out" [eid; metric ++ ".csv"] in
  save_plotting_data float_repr eid metric epoch val w =
  match FS.check_parent (w_fs w) fn with
  | Err e => (Err e, w)
  | Ok _ =>
      match w_fs w !! fn with
      | Some Dir => (Err (IsADirectoryError fn), w)
      | Some (File data) =>
          (Ok tt, set_fs (insert fn (File (data ++ Csv.row_text
                                             (data_row float_repr (epoch, val))))) w)
      | None =>
          (Ok tt, set_fs (insert fn (File (Csv.row_text (header_row metric)
                                           ++ Csv.row_text
                                                (data_row float_repr (epoch, val))))) w)
      end
  end.
Proof.
  intros fn. unfold save_plotting_data, writerow, bind, FS.isfile, gets.
  fold fn.
  destruct (FS.check_parent (w_fs w) fn) as [[]|e] eqn:Hparent.
  - rewrite (check_parent_stat _ _ Hparent).
    destruct (w_fs w !! fn) as [[|data]|] eqn:Hfn; cbn [negb].
    + rewrite with_open_write by done. by rewrite Hparent, Hfn.
    + unfold ret. rewrite with_open_write by done. by rewrite Hparent, Hfn.
    + rewrite with_open_write by done. rewrite Hparent, Hfn.
      rewrite with_open_write by done. cbn [w_fs set_fs].
      rewrite (check_parent_insert _ _ _ Hparent), lookup_insert_eq.
      unfold set_fs. cbn [w_fs w_open w_heap w_proc w_cuda_available w_localtime].
      by rewrite insert_insert_eq.
  - destruct (match FS.stat (w_fs w) fn with Some (File _) => true | _ => false end);
      cbn [negb]; unfold ret; rewrite with_open_write by done; by rewrite Hparent.
Qed.

Lemma set_fs_insert_id (p : string) (n : node) (w : world) :
  w_fs w !! p = Some n → set_fs (insert p n) w = w.
Proof.
  intros H. destruct w as [fs opens heap pr cuda now]. unfold set_fs. simpl in *.
  by rewrite insert_id.
Qed.

Lemma save_plotting_data_all_existing float_repr eid metric calls data w :
  let fn := Path.join "out" [eid; metric ++ ".csv"] in
  FS.check_parent (w_fs w) fn = Ok tt →
  w_fs w !! fn = Some (File data) →
  save_plotting_data_all float_repr eid metric calls w
  = (Ok tt, set_fs (insert fn (File (data ++ rows_text (map (data_row float_repr) calls)))) w).
Proof.
  intros fn. revert data w. induction calls as [|[epoch val] calls IH]; intros data w Hparent Hfn.
  - cbn [save_plotting_data_all map rows_text]. rewrite CsvFacts.append_nil_r.
    unfold ret. by rewrite set_fs_insert_id.
  - cbn [save_plotting_data_all map rows_text fst snd]. unfold bind.
    rewrite save_plotting_data_spec. fold fn. rewrite Hparent, Hfn.
    rewrite (IH (data ++ Csv.row_text (data_row float_repr (epoch, val)))).
    + unfold set_fs. cbn [w_fs w_open w_heap w_proc w_cuda_available w_localtime].
      by rewrite insert_insert_eq, CsvFacts.append_assoc.
    + cbn [set_fs w_fs]. by apply check_parent_insert.
    + cbn [set_fs w_fs]. by rewrite lookup_insert_eq.
Qed.

Lemma needs_quotes_uint (d : Decimal.uint) :
  Csv.needs_quotes (NilEmpty.string_of_uint d) = false.
Proof. induction d; simpl; done. Qed.

Lemma needs_quotes_of_Z (z : Z) : Csv.needs_quotes (Str.of_Z z) = false.
Proof.
  unfold Str.of_Z, NilZero.string_of_int, NilZero.string_of_uint.
  destruct (Z.to_int z) as [d|d]; destruct d; simpl; try done;
    apply needs_quotes_uint.
Qed.

Lemma row_text_plain (a b : string) :
  Csv.needs_quotes a = false → Csv.needs_quotes b = false →
  Csv.row_text [a; b] = a ++ String Csv.delimiter (b ++ Csv.lineterminator).
Proof.
  intros Ha Hb. unfold Csv.row_text, Csv.record_text, Csv.join_fields, Csv.field_text.
  rewrite Ha, Hb.
  assert (Str.is_empty (a ++ String Csv.delimiter b) = false) as -> by (by destruct a).
  by rewrite CsvFacts.append_assoc, append_cons.
Qed.

(** C3: calls of [save_plotting_data] for one experiment and one metric leave
    a file that is the header row, written by the first call when the file
    was not there, followed by one row per call in the order of the calls;
    on a file that was there the rows go after what the file held.  A row
    whose fields need no quoting is the text [epoch,value] and the line
    terminator. *)
Theorem metrics_file_rows
    (float_repr : spec_float → string) (experiment_id metric : string)
    (calls : list (Z * spec_float)) (w : world) :
  let fn := Path.join "out" [experiment_id; metric ++ ".csv"] in
  FS.check_parent (w_fs w) fn = Ok tt →
  calls ≠ [] →
  (w_fs w !! fn = None →
   save_plotting_data_all float_repr experiment_id metric calls w
   = (Ok tt,
      set_fs (insert fn (File (rows_text (header_row metric
                                           :: map (data_row float_repr) calls)))) w))
  ∧ (∀ data,
       w_fs w !! fn = Some (File data) →
       save_plotting_data_all float_repr experiment_id metric calls w
       = (Ok tt,
          set_fs (insert fn (File (data ++ rows_text (map (data_row float_repr) calls)))) w))
  ∧ (Csv.needs_quotes metric = false →
     Csv.row_text (header_row metric)
     = "epoch" ++ String Csv.delimiter (metric ++ Csv.lineterminator))
  ∧ (∀ epoch val,
       Csv.needs_quotes (float_repr val) = false →
       Csv.row_text (data_row float_repr (epoch, val))
       = Str.of_Z epoch ++ String Csv.delimiter (float_repr val ++ Csv.lineterminator)).
Proof.
  intros fn Hparent Hcalls. split; [|split; [|split]].
  - intros Hfn. destruct calls as [|[epoch val] calls]; [done|].
    cbn [save_plotting_data_all map rows_text fst snd]. unfold bind.
    rewrite save_plotting_data_spec. fold fn. rewrite Hparent, Hfn.
    rewrite (save_plotting_data_all_existing _ _ _ _
               (Csv.row_text (header_row metric)
                ++ Csv.row_text (data_row float_repr (epoch, val)))).
    + unfold set_fs. cbn [w_fs w_open w_heap w_proc w_cuda_available w_localtime].
      by rewrite insert_insert_eq, CsvFacts.append_assoc.
    + cbn [set_fs w_fs]. by apply check_parent_insert.
    + cbn [set_fs w_fs]. by rewrite lookup_insert_eq.
  - intros data Hfn. by apply save_plotting_data_all_existing.
  - intros Hm. by apply row_text_plain.
  - intros epoch val Hv. apply row_text_plain; [apply needs_quotes_of_Z|done].
Qed.

Lemma metrics_file_rows_witness :
  let w := sample_world fs_with_experiment in
  save_plotting_data_all sample_repr "e" "acc" [(1%Z, half); (2%Z, three_quarters)] w
  = (Ok tt,
     set_fs (insert "out/e/acc.csv"
               (File ("epoch,acc" ++ Csv.lineterminator
                      ++ "1,0.5" ++ Csv.lineterminator
                      ++ "2,0.75" ++ Csv.lineterminator))) w).
Proof.
  intros w.
  destruct (metrics_file_rows sample_repr "e" "acc"
              [(1%Z, half); (2%Z, three_quarters)] w) as (H & _);
    [reflexivity|discriminate|].
  apply H. reflexivity.
Defined.

(** ** The paths of the layout *)

Lemma endswith_app (c : ascii) (a b : string) :
  Str.is_empty b = false → Str.endswith c (a ++ b) = Str.endswith c b.
Proof.
  intros Hb. induction a as [|x a IH]; [done|].
  rewrite append_cons. cbn [Str.endswith]. rewrite IH.
  destruct (a ++ b) eqn:E; [|done].
  destruct a, b; discriminate.
Qed.

Lemma startswith_app (c : ascii) (a b : string) :
  Str.is_empty a = false → Str.startswith c (a ++ b) = Str.startswith c a.
Proof. by destruct a. Qed.

Lemma join2_relative (a b : string) :
  Str.startswith Str.sep b = false → Str.is_empty a = false →
  Str.endswith Str.sep a = false →
  Path.join a [b] = a ++ String Str.sep b.
Proof.
  intros Hb Ha He. unfold Path.join, fold_left, Path.join2. by rewrite Hb, Ha, He.
Qed.

Lemma startswith_of_N (c : ascii) (n : N) (s : string) :
  Str.startswith c (Str.of_N n ++ s) = Str.startswith c (Str.of_N n).
Proof.
  apply startswith_app. unfold Str.of_N, NilZero.string_of_uint.
  by destruct (N.to_uint n).
Qed.

Lemma strftime_relative (now : struct_time) (s : string) :
  Str.startswith Str.sep (strftime_Ymd_HM now ++ s) = false.
Proof.
  unfold strftime_Ymd_HM. rewrite CsvFacts.append_assoc, startswith_of_N.
  unfold Str.of_N, NilZero.string_of_uint. by destruct (N.to_uint (tm_year now)).
Qed.

Lemma experiment_dir_relative (eid : string) :
  Str.startswith Str.sep eid = false →
  experiment_dir eid = "out" ++ String Str.sep eid.
Proof. intros H. by apply join2_relative. Qed.

Lemma experiment_dir_open (eid : string) :
  Str.startswith Str.sep eid = false → Str.is_empty eid = false →
  Str.endswith Str.sep eid = false →
  Str.is_empty (experiment_dir eid) = false
  ∧ Str.endswith Str.sep (experiment_dir eid) = false.
Proof.
  intros Hrel Hne Hend. rewrite experiment_dir_relative by done. split; [done|].
  by rewrite (endswith_app _ "out/" eid).
Qed.

Lemma join_under_experiment (eid b : string) :
  Str.startswith Str.sep eid = false → Str.is_empty eid = false →
  Str.endswith Str.sep eid = false → Str.startswith Str.sep b = false →
  Path.join (experiment_dir eid) [b] = "out/" ++ eid ++ String Str.sep b.
Proof.
  intros Hrel Hne Hend Hb.
  destruct (experiment_dir_open eid) as [? ?]; [done..|].
  rewrite join2_relative by done. rewrite experiment_dir_relative by done.
  rewrite CsvFacts.append_assoc. reflexivity.
Qed.

Lemma log_fn_layout (eid : string) (now : struct_time) :
  Str.startswith Str.sep eid = false → Str.is_empty eid = false →
  Str.endswith Str.sep eid = false →
  log_fn eid now = "out/" ++ eid ++ "/logs/" ++ strftime_Ymd_HM now ++ ".log".
Proof.
  intros Hrel Hne Hend. unfold log_fn, log_dir.
  rewrite (join_under_experiment eid "logs") by done.
  rewrite join2_relative.
  - rewrite !CsvFacts.append_assoc. reflexivity.
  - apply strftime_relative.
  - done.
  - rewrite <- CsvFacts.append_assoc. by rewrite endswith_app.
Qed.

Lemma torch_save_ok dumps obj p w w' :
  torch_save dumps obj p w = (Ok tt, w') →
  w' = set_fs (insert p (File (dumps obj))) w.
Proof.
  rewrite torch_save_spec. destruct (FS.check_parent _ _); [|done].
  destruct (w_fs w !! p) as [[]|]; congruence.
Qed.

Lemma torch_load_ok loads p ml w v w' :
  torch_load loads p ml w = (Ok v, w') → ∃ data, w_fs w !! p = Some (File data).
Proof.
  rewrite torch_load_spec. destruct (FS.check_parent _ _); [|done].
  destruct (w_fs w !! p) as [[|data]|]; [done| |done]. eauto.
Qed.

(** ** The directory of the experiment *)

Lemma contains_app (c : ascii) (a b : string) :
  Str.contains c (a ++ b) = Str.contains c a || Str.contains c b.
Proof.
  induction a as [|x a IH]; [done|].
  rewrite append_cons. cbn [Str.contains]. by rewrite IH, orb_assoc.
Qed.

Lemma all_eq_app (c : ascii) (a b : string) :
  Str.all_eq c (a ++ b) = Str.all_eq c a && Str.all_eq c b.
Proof.
  induction a as [|x a IH]; [done|].
  rewrite append_cons. cbn [Str.all_eq]. by rewrite IH, andb_assoc.
Qed.

Lemma all_eq_endswith (c : ascii) (d : string) :
  Str.is_empty d = false → Str.endswith c d = false → Str.all_eq c d = false.
Proof.
  induction d as [|x d IH]; [done|]. intros _.
  cbn [Str.endswith Str.all_eq]. destruct d as [|y d].
  - intros ->. done.
  - intros H. rewrite IH by done. apply andb_false_r.
Qed.

Lemma rcut_app_sep (c : ascii) (a b : string) :
  Str.rcut c (a ++ String c b)
  = (a ++ String c (fst (Str.rcut c b)), snd (Str.rcut c b)).
Proof.
  induction a as [|x a IH].
  - change (EmptyString ++ ?s) with s. cbn [Str.rcut Str.contains].
    rewrite Ascii.eqb_refl. simpl. by destruct (Str.rcut c b).
  - rewrite !append_cons. cbn [Str.rcut].
    assert (Str.contains c (String x (a ++ String c b)) = true) as ->.
    { cbn [Str.contains]. rewrite contains_app. cbn [Str.contains].
      rewrite Ascii.eqb_refl. simpl. by rewrite !orb_true_r. }
    by rewrite IH.
Qed.

Lemma rstrip_all_eq (c : ascii) (b : string) :
  Str.all_eq c b = true → Str.rstrip c b = EmptyString.
Proof.
  induction b as [|x b IH]; [done|].
  cbn [Str.all_eq Str.rstrip]. intros [Hx Hb]%andb_true_iff. by rewrite IH, Hx.
Qed.

Lemma rstrip_app_all (c : ascii) (a b : string) :
  Str.all_eq c b = true → Str.rstrip c (a ++ b) = Str.rstrip c a.
Proof.
  intros Hb. induction a as [|x a IH].
  - by rewrite rstrip_all_eq.
  - rewrite append_cons. cbn [Str.rstrip]. by rewrite IH.
Qed.

Lemma rstrip_app_r (c : ascii) (a b : string) :
  Str.is_empty (Str.rstrip c b) = false →
  Str.rstrip c (a ++ b) = a ++ Str.rstrip c b.
Proof.
  intros Hb. induction a as [|x a IH]; [done|].
  rewrite !append_cons. cbn [Str.rstrip]. rewrite IH.
  destruct (a ++ Str.rstrip c b) eqn:E; [|done].
  destruct a, (Str.rstrip c b); discriminate.
Qed.

Lemma rstrip_id (c : ascii) (d : string) :
  Str.endswith c d = false → Str.rstrip c d = d.
Proof.
  induction d as [|x d IH]; [done|].
  cbn [Str.endswith Str.rstrip]. destruct d as [|y d].
  - intros ->. done.
  - intros H. by rewrite IH.
Qed.

Lemma rstrip_head (c a : ascii) (r : string) :
  Ascii.eqb a c = false →
  ∃ r', Str.rstrip c (String a r) = String a r'.
Proof.
  intros Ha. cbn [Str.rstrip]. destruct (Str.rstrip c r); [|eauto].
  rewrite Ha. eauto.
Qed.

(** The parent of a path under [d]: [d] itself, or a shorter path under [d]. *)
Lemma split_under (d f : string) :
  Str.is_empty d = false → Str.endswith Str.sep d = false →
  Str.startswith Str.sep f = false →
  fst (Path.split (d ++ String Str.sep f)) = d
  ∨ ∃ f', fst (Path.split (d ++ String Str.sep f)) = d ++ String Str.sep f'
          ∧ Str.startswith Str.sep f' = false
          ∧ String.length f' + String.length (snd (Path.split (d ++ String Str.sep f)))
            <= String.length f.
Proof.
  intros Hne Hend Hrel. unfold Path.split. rewrite rcut_app_sep.
  pose proof (rcut_app Str.sep f) as Hf.
  destruct (Str.rcut Str.sep f) as [fh ft]. cbn [fst snd] in *.
  assert (Str.is_empty (d ++ String Str.sep fh) = false) as -> by (by destruct d).
  rewrite all_eq_app, all_eq_endswith by done. cbn [negb andb fst].
  destruct fh as [|a fh].
  - left. rewrite rstrip_app_all by reflexivity. by apply rstrip_id.
  - right. assert (Ascii.eqb a Str.sep = false) as Ha.
    { subst f. by rewrite append_cons in Hrel. }
    destruct (rstrip_head Str.sep a fh Ha) as [r' Hr'].
    exists (String a r'). split; [|split; [done|]].
    + change (d ++ String Str.sep (String a fh))
        with (d ++ String Str.sep EmptyString ++ String a fh).
      rewrite <- CsvFacts.append_assoc, rstrip_app_r by (by rewrite Hr').
      rewrite Hr', CsvFacts.append_assoc. reflexivity.
    + rewrite <- Hr', <- Hf, length_append.
      pose proof (rstrip_length Str.sep (String a fh)). lia.
Qed.

Lemma stat_dir (fs : gmap string node) (p : string) :
  Str.all_eq Str.sep p = false → FS.stat fs p = Some Dir → fs !! p = Some Dir.
Proof.
  intros Hp. unfold FS.stat. destruct (Str.contains FS.NUL p); [done|].
  by rewrite Hp, andb_false_r.
Qed.

(** Nothing can be opened or created below a directory that is not there. *)
Lemma check_parent_under_missing (fs : gmap string node) (d : string) :
  fs_wf fs → Str.is_empty d = false → Str.endswith Str.sep d = false →
  FS.stat fs d = None →
  ∀ f, Str.startswith Str.sep f = false →
       FS.check_parent fs (d ++ String Str.sep f) ≠ Ok tt.
Proof.
  intros Hwf Hne Hend Hd f.
  remember (String.length f) as n eqn:Hn. revert f Hn.
  induction n as [n IH] using lt_wf_ind. intros f -> Hrel Hok.
  pose proof Hok as Hok'. unfold FS.check_parent in Hok'.
  destruct (Str.contains FS.NUL _); [done|].
  destruct (split_under d f Hne Hend Hrel) as [Hd'|(f' & Hf' & Hrel' & Hlen)].
  - destruct (Path.split _) as [head tail]. cbn [fst] in Hd'. subst head.
    destruct (Str.is_empty tail); [done|]. rewrite Hne, Hd in Hok'. done.
  - destruct (Path.split _) as [head tail]. cbn [fst snd] in *. subst head.
    destruct tail as [|t tail]; [done|]. cbn [Str.is_empty] in Hok'.
    assert (Str.is_empty (d ++ String Str.sep f') = false) as Hne'
      by (by destruct d).
    rewrite Hne' in Hok'.
    destruct (FS.stat fs (d ++ String Str.sep f')) as [[|]|] eqn:Hstat; [|done..].
    apply stat_dir in Hstat;
      [|by rewrite all_eq_app, all_eq_endswith by done].
    apply Hwf in Hstat.
    apply (IH (String.length f')) with (f := f'); [|done..].
    simpl in Hlen. lia.
Qed.







Lemma stat_plain (fs : gmap string node) (p : string) :
  Str.contains FS.NUL p = false → Str.all_eq Str.sep p = false →
  FS.stat fs p = fs !! p.
Proof. intros H1 H2. unfold FS.stat. by rewrite H1, H2, andb_false_r. Qed.




Lemma dir_name_facts (s : string) :
  dir_name s = true →
  Str.is_empty s = false ∧ Str.contains Str.sep s = false
  ∧ Str.contains FS.NUL s = false ∧ String.eqb s "." = false
  ∧ Str.startswith Str.sep s = false ∧ Str.endswith Str.sep s = false.
Proof.
  unfold dir_name. rewrite !andb_true_iff, !negb_true_iff.
  intros ((((Hne & Hsep) & Hnul) & Hdot) & _).
  repeat split; try done.
  - destruct s; [done|]. cbn [Str.contains] in Hsep.
    by apply orb_false_iff in Hsep as [? _].
  - clear -Hsep. induction s as [|a s IH]; [done|].
    cbn [Str.contains] in Hsep. apply orb_false_iff in Hsep as [Ha Hs].
    cbn [Str.endswith]. destruct s; [done|]. by apply IH.
Qed.









(** * Further properties of the helpers *)

(** ** Seeding *)

(** X1: a seed that does not fit 32 bits makes [fix_all_seeds] raise the
    [ValueError] of [np.random.seed], after [random.seed] has taken it:
    nothing else of the process is touched. *)
Theorem fix_all_seeds_out_of_range (seed : Z) (w : world) :
  (seed < 0 ∨ 2 ^ 32 <= seed)%Z →
  fix_all_seeds seed w = (Err ValueError, set_proc (Seed.set_random seed) w).
Proof.
  intros Hseed.
  unfold fix_all_seeds, bind, Seed.random_seed_, Seed.np_random_seed, modify, raise.
  assert ((0 <=? seed)%Z && (seed <? 2 ^ 32)%Z = false) as -> by lia.
  done.
Qed.

Lemma fix_all_seeds_out_of_range_witness :
  fix_all_seeds (-1) (sample_world ∅)
  = (Err ValueError, set_proc (Seed.set_random (-1)) (sample_world ∅)).
Proof. apply fix_all_seeds_out_of_range. lia. Defined.

Lemma fix_all_seeds_value (seed : Z) (w : world) :
  (0 <= seed < 2 ^ 32)%Z →
  fix_all_seeds seed w
  = (Ok tt,
     set_proc (fun p =>
       {| root_handlers := root_handlers p; root_level := root_level p;
          random_seed := Some seed; numpy_seed := Some seed;
          torch_seed := Some seed;
          cuda_seed := (if w_cuda_available w then Some seed else cuda_seed p);
          environ := <["PYTHONHASHSEED" := Str.of_Z seed]> (environ p) |}) w).
Proof.
  intros Hseed.
  unfold fix_all_seeds, bind, Seed.random_seed_, Seed.np_random_seed,
    Seed.torch_manual_seed, Seed.torch_cuda_is_available,
    Seed.torch_cuda_manual_seed_all, modify, gets, raise, ret.
  assert ((0 <=? seed)%Z && (seed <? 2 ^ 32)%Z = true) as -> by lia.
  assert ((- 2 ^ 63 <=? seed)%Z && (seed <? 2 ^ 64)%Z = true) as -> by lia.
  destruct w as [fs opens heap [] cuda now]. simpl. by destruct cuda.
Qed.

(** X2: of two calls of [fix_all_seeds] the second decides: the process is
    left as the second call alone leaves it. *)
Theorem fix_all_seeds_last_wins (seed1 seed2 : Z) (w : world) :
  (0 <= seed1 < 2 ^ 32)%Z → (0 <= seed2 < 2 ^ 32)%Z →
  then_ (fix_all_seeds seed1) (fix_all_seeds seed2) w = fix_all_seeds seed2 w.
Proof.
  intros H1 H2. unfold then_, bind.
  rewrite (fix_all_seeds_value seed1) by done.
  rewrite !(fix_all_seeds_value seed2) by done.
  destruct w as [fs opens heap [] cuda now]. unfold set_proc. simpl.
  rewrite insert_insert_eq. by destruct cuda.
Qed.

Lemma fix_all_seeds_last_wins_witness :
  then_ (fix_all_seeds 1) (fix_all_seeds 7) (sample_world ∅)
  = fix_all_seeds 7 (sample_world ∅).
Proof. apply fix_all_seeds_last_wins; lia. Defined.

(** ** The logger, call after call *)

Lemma adds_dirs_refl (fs : gmap string node) : adds_dirs fs fs.
Proof. intros p. by left. Qed.

Lemma adds_dirs_trans (fs1 fs2 fs3 : gmap string node) :
  adds_dirs fs1 fs2 → adds_dirs fs2 fs3 → adds_dirs fs1 fs3.
Proof.
  intros H12 H23 p. destruct (H12 p) as [E12|[E1 E2]], (H23 p) as [E23|[E2' E3]].
  - left. congruence.
  - right. split; congruence.
  - right. split; congruence.
  - congruence.
Qed.

Lemma mkdir_adds_dirs (p : string) (w : world) :
  adds_dirs (w_fs w) (w_fs (snd (FS.mkdir p w))).
Proof.
  unfold FS.mkdir. destruct (FS.check_parent _ _); [|apply adds_dirs_refl].
  destruct (w_fs w !! p) eqn:Hp; [apply adds_dirs_refl|].
  intros q. cbn [snd set_fs w_fs]. destruct (decide (p = q)) as [<-|Hne].
  - right. by rewrite lookup_insert_eq.
  - left. by rewrite lookup_insert_ne.
Qed.

Lemma makedirs_rec_adds_dirs (n : nat) (name : string) (w : world) :
  adds_dirs (w_fs w) (w_fs (snd (FS.makedirs_rec n name w))).
Proof.
  revert name w. induction n as [|n IH]; intros name w; [apply adds_dirs_refl|].
  cbn [FS.makedirs_rec].
  destruct (Path.split name) as [head tail].
  destruct (if Str.is_empty tail then Path.split head else (head, tail)) as [head' tail'].
  unfold bind, FS.exists_, gets.
  destruct (_ && _).
  - specialize (IH head' w).
    destruct (FS.makedirs_rec n head' w) as [[[]|e] w1]; cbn [snd] in IH.
    + unfold ret. destruct (String.eqb tail' "."); [done|].
      eapply adds_dirs_trans; [exact IH|apply mkdir_adds_dirs].
    + destruct e; try done. unfold ret. destruct (String.eqb tail' "."); [done|].
      eapply adds_dirs_trans; [exact IH|apply mkdir_adds_dirs].
  - unfold ret. apply mkdir_adds_dirs.
Qed.

Lemma ensure_log_dir_adds_dirs (eid : string) (w : world) :
  adds_dirs (w_fs w) (w_fs (snd (ensure_log_dir eid w))).
Proof.
  unfold ensure_log_dir, bind, FS.exists_, gets.
  destruct (negb _); [apply makedirs_rec_adds_dirs|apply adds_dirs_refl].
Qed.

(** X3: [create_logger] only adds to the file system: what was there before
    the call, an earlier log file with its text included, is there unchanged
    after it, whether the call returns or raises. *)
Theorem create_logger_only_adds (experiment_id : string) (w : world) :
  w_fs w ⊆ w_fs (snd (create_logger experiment_id w)).
Proof.
  rewrite create_logger_steps.
  pose proof (ensure_log_dir_adds_dirs experiment_id w) as Hdirs.
  assert (w_fs w ⊆ w_fs (snd (ensure_log_dir experiment_id w))) as Hsub.
  { apply map_subseteq_spec. intros p n Hp.
    destruct (Hdirs p) as [E|[E _]]; congruence. }
  destruct (ensure_log_dir experiment_id w) as [[[]|e] w1]; cbn [snd] in *; [|done].
  destruct (root_handlers (w_proc w1)) as [|h [|h' hs]]; [|done..].
  rewrite open_append_spec.
  destruct (FS.check_parent _ _); [|done].
  destruct (w_fs w1 !! _) as [[]|] eqn:Hfn; [done..|].
  cbn [snd set_proc set_open set_fs w_fs].
  etrans; [exact Hsub|]. by apply insert_subseteq.
Qed.

(** X4: once [create_logger] has returned, a later call, for whatever
    experiment, leaves the process as it is: the handlers and the level of
    the root logger stay, no file is opened, and no log file is created for
    the new experiment. *)
Theorem create_logger_again
    (experiment_id1 experiment_id2 : string) (w w1 w2 : world) (r1 r2 : logger) :
  create_logger experiment_id1 w = (Ok r1, w1) →
  create_logger experiment_id2 w1 = (Ok r2, w2) →
  w_proc w2 = w_proc w1
  ∧ w_open w2 = w_open w1
  ∧ adds_dirs (w_fs w1) (w_fs w2).
Proof.
  intros H1 H2. apply create_logger_ok in H1 as [Hlevel Hhs].
  assert (∃ h h' hs, root_handlers (w_proc w1) = h :: h' :: hs) as (h & h' & hs & Hw1).
  { destruct (root_handlers (w_proc w)) as [|a [|b l]].
    - destruct Hhs as (fd & _ & _ & ->). eauto.
    - destruct Hhs as [_ ->]. eauto.
    - destruct Hhs as [_ ->]. eauto. }
  rewrite create_logger_steps in H2.
  destruct (quiet_ensure_log_dir experiment_id2 w1 w1 (agree_refl w1))
    as (_ & _ & Hproc & Hopen & _).
  pose proof (ensure_log_dir_adds_dirs experiment_id2 w1) as Hdirs.
  destruct (ensure_log_dir experiment_id2 w1) as [[[]|] w1']; [|done].
  cbn [snd] in *. rewrite Hproc, Hw1 in H2. destruct r2. injection H2 as <-.
  cbn [set_proc w_proc w_open w_fs]. rewrite Hproc. split; [|done].
  destruct (w_proc w1) as []. cbn in *. by subst.
Qed.

Lemma create_logger_again_witness :
  let w := sample_world ∅ in
  let w1 := snd (create_logger "a" w) in
  let w2 := snd (create_logger "b" w1) in
  w_proc w2 = w_proc w1 ∧ w_open w2 = w_open w1 ∧ adds_dirs (w_fs w1) (w_fs w2).
Proof.
  intros w w1 w2.
  apply (create_logger_again "a" "b" w w1 w2 RootLogger RootLogger);
    vm_compute; reflexivity.
Defined.

(** ** The metrics file, further *)

(** X5: [save_plotting_data] makes no directory: for an experiment id that
    is a directory name and a relative metric, when [out/<id>] is not there
    the call raises and writes nothing; when the path of the metrics file is
    a directory it raises [IsADirectoryError] and writes nothing. *)
Theorem save_plotting_data_cannot_write
    (float_repr : spec_float → string) (experiment_id metric : string)
    (epoch : Z) (metric_val : spec_float) (w : world) :
  (dir_name experiment_id = true → fs_wf (w_fs w) →
   Str.startswith Str.sep metric = false →
   w_fs w !! ("out/" ++ experiment_id) = None →
   ∃ e, save_plotting_data float_repr experiment_id metric epoch metric_val w
        = (Err e, w))
  ∧ (let fn := Path.join "out" [experiment_id; metric ++ ".csv"] in
     FS.check_parent (w_fs w) fn = Ok tt → w_fs w !! fn = Some Dir →
     save_plotting_data float_repr experiment_id metric epoch metric_val w
     = (Err (IsADirectoryError fn), w)).
Proof.
  split.
  - intros Hname Hwf Hm Hd.
    apply dir_name_facts in Hname as (Hne & Hsep & Hnul & Hdot & Hrel & Hend).
    rewrite save_plotting_data_spec.
    change (Path.join "out" [experiment_id; metric ++ ".csv"])
      with (Path.join (experiment_dir experiment_id) [metric ++ ".csv"]).
    assert (Str.startswith Str.sep (metric ++ ".csv") = false) as Hcsv
      by (by destruct metric).
    destruct (experiment_dir_open experiment_id) as [Hdne Hdend]; [done..|].
    rewrite join2_relative by done.
    assert (FS.check_parent (w_fs w)
              (experiment_dir experiment_id ++ String Str.sep (metric ++ ".csv"))
            ≠ Ok tt) as Hno.
    { apply check_parent_under_missing; try done.
      assert (experiment_dir experiment_id = "out/" ++ experiment_id) as Hdir
        by (by apply experiment_dir_relative).
      rewrite Hdir in *.
      rewrite stat_plain; [done| |by apply all_eq_endswith].
      by rewrite contains_app, Hnul. }
    destruct (FS.check_parent _ _) as [[]|e]; [done|eauto].
  - intros fn Hparent Hfn. rewrite save_plotting_data_spec. fold fn.
    by rewrite Hparent, Hfn.
Qed.

Lemma save_plotting_data_cannot_write_witness :
  (∃ e, save_plotting_data sample_repr "e" "acc" 1 half (sample_world ∅)
        = (Err e, sample_world ∅))
  ∧ save_plotting_data sample_repr "e" "acc" 1 half (sample_world fs_csv_dir)
    = (Err (IsADirectoryError "out/e/acc.csv"), sample_world fs_csv_dir).
Proof.
  split.
  - apply (proj1 (save_plotting_data_cannot_write sample_repr "e" "acc" 1 half
                    (sample_world ∅))); try reflexivity.
    intros p n. simpl. by rewrite lookup_empty.
  - apply (proj2 (save_plotting_data_cannot_write sample_repr "e" "acc" 1 half
                    (sample_world fs_csv_dir))); reflexivity.
Defined.

(** X6: the metrics file that calls of [save_plotting_data] made from nothing
    reads back whole: the CSV reader yields the header [epoch, <metric>],
    whatever characters the name of the metric has, and then the row of each
    call, in the order of the calls. *)
Theorem metrics_file_reads_back
    (float_repr : spec_float → string) (experiment_id metric : string)
    (calls : list (Z * spec_float)) (w : world) :
  let fn := Path.join "out" [experiment_id; metric ++ ".csv"] in
  FS.check_parent (w_fs w) fn = Ok tt →
  w_fs w !! fn = None →
  calls ≠ [] →
  ∃ w' data,
    save_plotting_data_all float_repr experiment_id metric calls w = (Ok tt, w')
    ∧ w_fs w' !! fn = Some (File data)
    ∧ CsvReader.read_all data
      = Some (header_row metric :: map (data_row float_repr) calls).
Proof.
  intros fn Hparent Hfn Hcalls. destruct calls as [|[epoch val] calls]; [done|].
  cbn [save_plotting_data_all fst snd]. unfold bind.
  rewrite save_plotting_data_spec. fold fn. rewrite Hparent, Hfn.
  rewrite (save_plotting_data_all_existing _ _ _ _
             (Csv.row_text (header_row metric)
              ++ Csv.row_text (data_row float_repr (epoch, val)))).
  - eexists _, _. split; [reflexivity|]. cbn [set_fs w_fs].
    rewrite lookup_insert_eq. split; [reflexivity|].
    rewrite <- read_rows_text. f_equal. cbn [rows_text map].
    by rewrite CsvFacts.append_assoc.
  - cbn [set_fs w_fs]. by apply check_parent_insert.
  - cbn [set_fs w_fs]. by rewrite lookup_insert_eq.
Qed.

Lemma metrics_file_reads_back_witness :
  let w := sample_world fs_with_experiment in
  ∃ w' data,
    save_plotting_data_all sample_repr "e" "top,1" [(1%Z, half); (2%Z, three_quarters)] w
    = (Ok tt, w')
    ∧ w_fs w' !! Path.join "out" ["e"; "top,1" ++ ".csv"] = Some (File data)
    ∧ CsvReader.read_all data
      = Some (header_row "top,1"
              :: map (data_row sample_repr) [(1%Z, half); (2%Z, three_quarters)]).
Proof.
  intros w.
  apply (metrics_file_reads_back sample_repr "e" "top,1"
           [(1%Z, half); (2%Z, three_quarters)] w); [reflexivity|reflexivity|done].
Defined.

(** ** What a helper leaves alone *)

Lemma load_state_dict_fs (obj : N) (sd : pyval) (w : world) :
  w_fs (snd (load_state_dict obj sd w)) = w_fs w.
Proof.
  unfold load_state_dict, bind, gets.
  destruct (w_heap w !! obj) as [[m|o]|]; [| |done].
  - destruct (Module_load_state_dict m sd) as [m' [e|]]; done.
  - destruct (Optimizer_load_state_dict o sd); done.
Qed.

Lemma torch_save_heap dumps obj p w :
  w_heap (snd (torch_save dumps obj p w)) = w_heap w.
Proof.
  rewrite torch_save_spec. destruct (FS.check_parent _ _); [|done].
  by destruct (w_fs w !! p) as [[]|].
Qed.

(** X7: saving changes no object of the caller and loading changes no file,
    whether the call returns or raises. *)
Theorem savers_and_loaders_keep_apart
    (float_repr : spec_float → string)
    (dumps : pyval → string) (loads : string → result pyval) (w : world) :
  (∀ eid metric epoch val,
     w_heap (snd (save_plotting_data float_repr eid metric epoch val w)) = w_heap w)
  ∧ (∀ eid ne ba model optimizer filename,
       w_heap (snd (save_checkpoint dumps eid ne ba model optimizer filename w))
       = w_heap w)
  ∧ (∀ model eid filename,
       w_heap (snd (save_model dumps model eid filename w)) = w_heap w)
  ∧ (∀ eid model optimizer,
       w_fs (snd (load_checkpoint loads eid model optimizer w)) = w_fs w)
  ∧ (∀ eid model, w_fs (snd (load_best_model loads eid model w)) = w_fs w).
Proof.
  split; [|split; [|split; [|split]]].
  - intros. rewrite save_plotting_data_spec.
    destruct (FS.check_parent _ _); [|done]. by destruct (w_fs w !! _) as [[]|].
  - intros. rewrite save_checkpoint_spec.
    destruct (w_heap w !! model); [|done]. destruct (w_heap w !! optimizer); [|done].
    apply torch_save_heap.
  - intros. unfold save_model, bind. rewrite state_dict_spec.
    destruct (w_heap w !! model); [|done]. apply torch_save_heap.
  - intros. unfold load_checkpoint, bind, lift.
    destruct (torch_load _ _ _ w) as [r w1] eqn:Hload.
    apply torch_load_world in Hload as ->. destruct r as [checkpoint|]; [|done].
    destruct (getitem checkpoint "model_state_dict") as [msd|]; [|done].
    pose proof (load_state_dict_fs model msd w) as H1.
    destruct (load_state_dict model msd w) as [[[]|] w1]; [|done].
    destruct (getitem checkpoint "optimizer_state_dict") as [osd|]; [|done].
    pose proof (load_state_dict_fs optimizer osd w1) as H2.
    destruct (load_state_dict optimizer osd w1) as [[[]|] w2];
      [|cbn [snd] in *; congruence].
    destruct (getitem checkpoint "next_epoch"); [|cbn [snd] in *; congruence].
    destruct (getitem checkpoint "best_acc"); unfold ret; cbn [snd] in *; congruence.
  - intros. unfold load_best_model, bind, Seed.torch_cuda_is_available, gets.
    destruct (torch_load _ _ _ w) as [r w1] eqn:Hload.
    apply torch_load_world in Hload as ->. destruct r as [sd|]; [|done].
    pose proof (load_state_dict_fs model sd w) as H1.
    by destruct (load_state_dict model sd w) as [[[]|] w1].
Qed.

(** ** The file system stays well formed *)

Lemma stat_insert_ne (fs : gmap string node) (p h : string) (x : node) :
  h ≠ p → FS.stat (<[p := x]> fs) h = FS.stat fs h.
Proof. intros Hne. unfold FS.stat. by rewrite lookup_insert_ne. Qed.

Lemma check_parent_insert_other (fs : gmap string node) (p q : string) (x : node) :
  x = Dir ∨ FS.stat fs p ≠ Some Dir →
  FS.check_parent fs q = Ok tt → FS.check_parent (<[p := x]> fs) q = Ok tt.
Proof.
  intros Hx. unfold FS.check_parent.
  destruct (Str.contains FS.NUL q); [done|].
  destruct (Path.split q) as [head tail].
  destruct (Str.is_empty tail); [done|]. destruct (Str.is_empty head); [done|].
  destruct (decide (head = p)) as [->|Hne]; [|by rewrite stat_insert_ne].
  destruct (FS.stat fs p) as [[|data]|] eqn:Hstat; [|done..].
  intros _. destruct Hx as [->|Hx]; [|done].
  unfold FS.stat in *. destruct (Str.contains FS.NUL p); [done|].
  destruct (_ && _); [done|]. by rewrite lookup_insert_eq.
Qed.

Lemma fs_wf_insert (fs : gmap string node) (p : string) (x : node) :
  fs_wf fs → FS.check_parent fs p = Ok tt →
  x = Dir ∨ fs !! p ≠ Some Dir →
  fs_wf (<[p := x]> fs).
Proof.
  intros Hwf Hparent Hx q n Hq.
  destruct (decide (q = p)) as [->|Hne]; [by apply check_parent_insert|].
  rewrite lookup_insert_ne in Hq by done.
  apply check_parent_insert_other; [|by eapply Hwf].
  destruct Hx as [->|Hx]; [by left|right].
  by rewrite (check_parent_stat _ _ Hparent).
Qed.

Lemma torch_save_wf dumps obj p w :
  fs_wf (w_fs w) → fs_wf (w_fs (snd (torch_save dumps obj p w))).
Proof.
  intros Hwf. rewrite torch_save_spec.
  destruct (FS.check_parent _ _) as [[]|] eqn:Hparent; [|done].
  destruct (w_fs w !! p) as [[]|] eqn:Hp; [done|..]; cbn [snd set_fs w_fs];
    apply fs_wf_insert; try done; right; by rewrite Hp.
Qed.

Lemma mkdir_wf (p : string) (w : world) :
  fs_wf (w_fs w) → fs_wf (w_fs (snd (FS.mkdir p w))).
Proof.
  intros Hwf. unfold FS.mkdir.
  destruct (FS.check_parent _ _) as [[]|] eqn:Hparent; [|done].
  destruct (w_fs w !! p) eqn:Hp; [done|]. cbn [snd set_fs w_fs].
  apply fs_wf_insert; auto.
Qed.

Lemma makedirs_rec_wf (n : nat) (name : string) (w : world) :
  fs_wf (w_fs w) → fs_wf (w_fs (snd (FS.makedirs_rec n name w))).
Proof.
  revert name w. induction n as [|n IH]; intros name w Hwf; [done|].
  cbn [FS.makedirs_rec].
  destruct (Path.split name) as [head tail].
  destruct (if Str.is_empty tail then Path.split head else (head, tail)) as [head' tail'].
  unfold bind, FS.exists_, gets.
  destruct (_ && _).
  - specialize (IH head' w Hwf).
    destruct (FS.makedirs_rec n head' w) as [[[]|e] w1]; cbn [snd] in IH.
    + unfold ret. destruct (String.eqb tail' "."); [done|]. by apply mkdir_wf.
    + destruct e; try done. unfold ret.
      destruct (String.eqb tail' "."); [done|]. by apply mkdir_wf.
  - unfold ret. by apply mkdir_wf.
Qed.

(** X8: the helpers that write keep the file system well formed: after
    [save_plotting_data], [save_checkpoint], [save_model] and [create_logger]
    every file and directory still sits in a directory, whether the call
    returned or raised. *)
Theorem writers_keep_fs_wf
    (float_repr : spec_float → string) (dumps : pyval → string) (w : world) :
  fs_wf (w_fs w) →
  (∀ eid metric epoch val,
     fs_wf (w_fs (snd (save_plotting_data float_repr eid metric epoch val w))))
  ∧ (∀ eid ne ba model optimizer filename,
       fs_wf (w_fs (snd (save_checkpoint dumps eid ne ba model optimizer filename w))))
  ∧ (∀ model eid filename,
       fs_wf (w_fs (snd (save_model dumps model eid filename w))))
  ∧ (∀ eid, fs_wf (w_fs (snd (create_logger eid w)))).
Proof.
  intros Hwf. split; [|split; [|split]].
  - intros. rewrite save_plotting_data_spec.
    destruct (FS.check_parent _ _) as [[]|] eqn:Hparent; [|done].
    destruct (w_fs w !! _) as [[]|] eqn:Hp; [done|..]; cbn [snd set_fs w_fs];
      apply fs_wf_insert; try done; right; by rewrite Hp.
  - intros. rewrite save_checkpoint_spec.
    destruct (w_heap w !! model); [|done]. destruct (w_heap w !! optimizer); [|done].
    by apply torch_save_wf.
  - intros. unfold save_model, bind. rewrite state_dict_spec.
    destruct (w_heap w !! model); [|done]. by apply torch_save_wf.
  - intros. rewrite create_logger_steps.
    assert (fs_wf (w_fs (snd (ensure_log_dir eid w)))) as Hwf1.
    { unfold ensure_log_dir, bind, FS.exists_, gets.
      destruct (negb _); [by apply makedirs_rec_wf|done]. }
    destruct (ensure_log_dir eid w) as [[[]|e] w1]; cbn [snd] in *; [|done].
    destruct (root_handlers (w_proc w1)) as [|h [|h' hs]]; [|done..].
    rewrite open_append_spec.
    destruct (FS.check_parent _ _) as [[]|] eqn:Hparent; [|done].
    destruct (w_fs w1 !! _) as [[]|] eqn:Hfn; [done..|].
    cbn [snd set_proc set_open set_fs w_fs].
    apply fs_wf_insert; try done. right. by rewrite Hfn.
Qed.

Lemma writers_keep_fs_wf_witness :
  fs_wf (w_fs (snd (create_logger "e" (sample_world ∅))))
  ∧ fs_wf (w_fs (snd (save_model bits_dumps 0 "e" "m.pth"
                        (sample_world fs_with_experiment)))).
Proof.
  split.
  - apply (writers_keep_fs_wf sample_repr bits_dumps (sample_world ∅)).
    intros p n. simpl. by rewrite lookup_empty.
  - apply (writers_keep_fs_wf sample_repr bits_dumps (sample_world fs_with_experiment)).
    intros p n. unfold sample_world, fs_with_experiment. cbn [w_fs].
    intros [[<- <-]|[_ H]]%lookup_insert_Some; [reflexivity|].
    apply lookup_singleton_Some in H as [<- <-]. reflexivity.
Defined.

(** ** Weights travel through the files *)

Lemma dict_get_moved (g : tensor → tensor) (k : string) (ps : list (string * tensor)) :
  dict_get k (map (fun kt => (fst kt, VTensor (g (snd kt)))) ps)
  = (fun t => VTensor (g t)) <$> named k ps.
Proof.
  induction ps as [|[k' t] ps IH]; [done|]. cbn.
  by destruct (String.eqb k' k).
Qed.

Lemma located_state_dict (ml : option device) (m : module_obj) :
  ∃ g, (∀ t, t_shape (g t) = t_shape t ∧ t_data (g t) = t_data t)
       ∧ located ml (Module_state_dict m)
         = VDict (map (fun kt => (fst kt, VTensor (g (snd kt)))) (m_params m)).
Proof.
  destruct ml as [dev|].
  - exists (tensor_to dev). split; [done|].
    unfold located, Module_state_dict. cbn [map_location]. by rewrite map_map.
  - exists (fun t => t). split; [done|]. reflexivity.
Qed.

Lemma load_params_map (f : string → tensor → tensor) (d : list (string * pyval))
    (ps : list (string * tensor)) :
  (∀ k p, (k, p) ∈ ps → load_param d k p = Copied (f k p)) →
  load_params d ps = (map (fun kt => (fst kt, f (fst kt) (snd kt))) ps, true, None).
Proof.
  induction ps as [|[k p] ps IH]; [done|]. intros H. cbn.
  rewrite (H k p) by left. rewrite IH; [done|]. intros k' p' Hin. apply H. by right.
Qed.

(** Loading the state of a module of the same shapes: every parameter takes
    the saved values and nothing raises. *)
Lemma Module_load_same_shapes (ml : option device) (m1 m2 : module_obj) :
  same_shapes m1 m2 →
  Module_load_state_dict m2 (located ml (Module_state_dict m1))
  = (with_values_of m1 m2, None).
Proof.
  intros Hshapes. destruct (located_state_dict ml m1) as (g & Hg & ->).
  unfold Module_load_state_dict.
  set (d := map _ (m_params m1)).
  assert (Hget : ∀ k, dict_get k d = (fun t => VTensor (g t)) <$> named k (m_params m1))
    by (intros k; apply dict_get_moved).
  set (f := fun (k : string) (p2 : tensor) =>
              match named k (m_params m1) with
              | Some p1 => copy_ p2 p1
              | None => p2
              end).
  rewrite (load_params_map f).
  - fold (with_values_of m1 m2).
    assert (forallb (fun kv => bool_decide (is_Some (named (fst kv) (m_params m2)))) d
            = true) as ->; [|done].
    apply forallb_forall. intros [k v] Hin. cbn.
    subst d. apply in_map_iff in Hin as ([k' t] & [= <- <-] & Hin). cbn.
    apply bool_decide_eq_true_2. specialize (Hshapes k').
    assert (is_Some (named k' (m_params m1))) as [p1 Hp1].
    { apply named_is_Some, list_elem_of_fmap. exists (k', t).
      split; [done|]. by apply list_elem_of_In. }
    rewrite Hp1 in Hshapes. destruct (named k' (m_params m2)); [eauto|done].
  - intros k p2 Hin. apply distinct_named in Hin; [|apply m_distinct].
    specialize (Hshapes k). rewrite Hin in Hshapes. subst f. cbn.
    destruct (named k (m_params m1)) as [p1|] eqn:Hp1; [|done].
    injection Hshapes as Hshapes. destruct (Hg p1) as [Hs Hd].
    rewrite (load_param_same_shape d k p2 (g p1)).
    + unfold copy_. by rewrite Hd.
    + by rewrite Hget, Hp1.
    + congruence.
Qed.

Lemma torch_save_ok_parent dumps obj p w w' :
  torch_save dumps obj p w = (Ok tt, w') →
  FS.check_parent (w_fs w) p = Ok tt
  ∧ w' = set_fs (insert p (File (dumps obj))) w.
Proof.
  rewrite torch_save_spec. destruct (FS.check_parent _ _) as [[]|]; [|done].
  destruct (w_fs w !! p) as [[]|]; [done|..]; by intros [= <-].
Qed.

(** X9: the weights [save_model] wrote as [best_model.pth.tar] are the
    weights [load_best_model] gives to any model with the same parameter
    names and shapes, in any later state with the file system the save left:
    the call returns the reference it was given, every parameter of the model
    has the saved values (and keeps its device), nothing else changes. *)
Theorem best_model_transfer
    (dumps : pyval → string) (loads : string → result pyval)
    (experiment_id : string) (saved loaded : N) (m1 m2 : module_obj)
    (w w1 w2 : world) :
  (∀ v, loads (dumps v) = Ok v) →
  w_heap w !! saved = Some (OModule m1) →
  save_model dumps saved experiment_id "best_model.pth.tar" w = (Ok tt, w1) →
  w_fs w2 = w_fs w1 →
  w_heap w2 !! loaded = Some (OModule m2) →
  same_shapes m1 m2 →
  load_best_model loads experiment_id loaded w2
  = (Ok loaded, set_heap (insert loaded (OModule (with_values_of m1 m2))) w2).
Proof.
  intros Hrt Hsaved Hsave Hfs Hloaded Hshapes.
  unfold save_model, bind in Hsave. rewrite state_dict_spec, Hsaved in Hsave.
  apply torch_save_ok_parent in Hsave as [Hparent ->].
  cbn [set_fs w_fs object_state_dict] in *.
  unfold load_best_model, bind, Seed.torch_cuda_is_available, gets.
  change (Path.join "out" [experiment_id; "best_model.pth.tar"])
    with (Path.join (Path.join "out" [experiment_id]) ["best_model.pth.tar"]).
  rewrite torch_load_spec, Hfs.
  rewrite (check_parent_insert _ _ _ Hparent), lookup_insert_eq, Hrt.
  unfold load_state_dict, bind, gets. rewrite Hloaded.
  by rewrite Module_load_same_shapes.
Qed.

Lemma best_model_transfer_witness :
  let w := sample_world fs_with_experiment in
  let w1 := snd (save_model bits_dumps 0 "e" "best_model.pth.tar" w) in
  let w2 := set_heap (insert 0%N (OModule trained_model)) w1 in
  load_best_model bits_loads "e" 0 w2
  = (Ok 0%N,
     set_heap (insert 0%N (OModule (with_values_of
                                      sample_module
                                      trained_model))) w2).
Proof.
  intros w w1 w2.
  apply (best_model_transfer bits_dumps bits_loads "e" 0 0
           sample_module trained_model w w1 w2).
  - exact bits_loads_dumps.
  - reflexivity.
  - vm_compute. reflexivity.
  - reflexivity.
  - reflexivity.
  - intros k. unfold sample_module, trained_model. cbn [m_params named].
    by destruct (String.eqb "weight" k).
Defined.

(** ** Resuming from a checkpoint *)










(** ** The two kinds of file are not interchangeable *)

Lemma load_params_unusable (d : list (string * pyval)) (ps : list (string * tensor)) :
  (∀ k p, load_param d k p = Unusable) →
  load_params d ps = (ps, match ps with [] => true | _ => false end, None).
Proof.
  intros H. induction ps as [|[k p] ps IH]; [done|]. cbn. by rewrite H, IH.
Qed.

(** A state dict with an entry, none of them usable: strict loading raises
    and no parameter changes. *)
Lemma Module_load_unusable (m : module_obj) (k0 : string) (v0 : pyval)
    (d : list (string * pyval)) :
  (∀ k p, load_param ((k0, v0) :: d) k p = Unusable) →
  Module_load_state_dict m (VDict ((k0, v0) :: d)) = (m, Some RuntimeError).
Proof.
  intros Hparam. unfold Module_load_state_dict.
  rewrite load_params_unusable by done. rewrite with_params_id. f_equal.
  destruct (m_params m) as [|[k p] ps]; [|done]. done.
Qed.

(** X12: a checkpoint is no weights file: when [save_checkpoint] wrote its
    mapping under the name [best_model.pth.tar], [load_best_model] raises for
    every object it is given (a module: the [RuntimeError] of strict loading)
    and changes nothing, no parameter either. *)
Theorem checkpoint_is_no_weights_file
    (dumps : pyval → string) (loads : string → result pyval)
    (experiment_id : string) (next_epoch : Z) (best_acc : spec_float)
    (model optimizer loaded : N) (w w1 w2 : world) :
  (∀ v, loads (dumps v) = Ok v) →
  save_checkpoint dumps experiment_id next_epoch best_acc model optimizer
    "best_model.pth.tar" w = (Ok tt, w1) →
  w_fs w2 = w_fs w1 →
  load_best_model loads experiment_id loaded w2
  = (Err (checkpoint_as_weights_error (w_heap w2 !! loaded)), w2).
Proof.
  intros Hrt Hsave Hfs.
  rewrite save_checkpoint_spec in Hsave.
  destruct (w_heap w !! model) as [mo|]; [|done].
  destruct (w_heap w !! optimizer) as [oo|]; [|done].
  apply torch_save_ok_parent in Hsave as [Hparent ->].
  cbn [set_fs w_fs] in Hfs.
  unfold load_best_model, bind, Seed.torch_cuda_is_available, gets.
  change (Path.join "out" [experiment_id; "best_model.pth.tar"])
    with (Path.join (experiment_dir experiment_id) ["best_model.pth.tar"]).
  rewrite torch_load_spec, Hfs.
  rewrite (check_parent_insert _ _ _ Hparent), lookup_insert_eq, Hrt.
  set (dev := if w_cuda_available w2 then CUDA else CPU).
  unfold load_state_dict, bind, gets.
  destruct (w_heap w2 !! loaded) as [[m2|o2]|] eqn:Hloaded; cbn [checkpoint_as_weights_error].
  - cbn [located map_location checkpoint_dict map fst snd].
    rewrite Module_load_unusable.
    + unfold modify, raise. by rewrite set_heap_insert_id.
    + intros k p. unfold load_param. cbn [dict_get].
      repeat (destruct (String.eqb _ k); [by destruct mo, oo|]). done.
  - done.
  - done.
Qed.

Lemma checkpoint_is_no_weights_file_witness :
  let w := sample_world fs_with_experiment in
  let w1 := snd (save_checkpoint bits_dumps "e" 3 half 0 1 "best_model.pth.tar" w) in
  load_best_model bits_loads "e" 0 w1 = (Err RuntimeError, w1).
Proof.
  intros w w1.
  exact (checkpoint_is_no_weights_file bits_dumps bits_loads "e" 3 half 0 1 0 w w1 w1
           bits_loads_dumps ltac:(vm_compute; reflexivity) eq_refl).
Defined.



(** ** One experiment directory, two files *)

Lemma set_fs_const_id (w : world) : set_fs (fun _ => w_fs w) w = w.
Proof. by destruct w. Qed.

(** X14: a checkpoint replaces the previous one: once [save_checkpoint] has
    succeeded for a file name, a later [save_checkpoint] for that name, with
    whatever model and optimizer, succeeds, and the file system is the one
    from before the first call with the second mapping in the file: nothing of
    the first checkpoint is left. *)
Theorem checkpoint_replaces_previous
    (dumps : pyval → string) (experiment_id filename : string)
    (next_epoch1 next_epoch2 : Z) (best_acc1 best_acc2 : spec_float)
    (model optimizer model' optimizer' : N) (mo oo : object) (w w1 w2 : world) :
  save_checkpoint dumps experiment_id next_epoch1 best_acc1 model optimizer
    filename w = (Ok tt, w1) →
  w_fs w2 = w_fs w1 →
  w_heap w2 !! model' = Some mo →
  w_heap w2 !! optimizer' = Some oo →
  save_checkpoint dumps experiment_id next_epoch2 best_acc2 model' optimizer'
    filename w2
  = (Ok tt,
     set_fs (fun _ =>
               <[Path.join (experiment_dir experiment_id) [filename] :=
                   File (dumps (checkpoint_dict next_epoch2 best_acc2
                                  (object_state_dict mo) (object_state_dict oo)))]>
                 (w_fs w)) w2).
Proof.
  intros Hsave Hfs Hmo Hoo.
  rewrite save_checkpoint_spec in Hsave.
  destruct (w_heap w !! model) as [mo1|]; [|done].
  destruct (w_heap w !! optimizer) as [oo1|]; [|done].
  apply torch_save_ok_parent in Hsave as [Hparent ->].
  cbn [set_fs w_fs] in Hfs.
  rewrite save_checkpoint_spec, Hmo, Hoo, torch_save_spec, Hfs.
  rewrite (check_parent_insert _ _ _ Hparent), lookup_insert_eq.
  unfold set_fs. by rewrite Hfs, insert_insert_eq.
Qed.

Lemma checkpoint_replaces_previous_witness :
  let w := sample_world fs_with_experiment in
  let w1 := snd (save_checkpoint bits_dumps "e" 3 half 0 1 default_filename w) in
  save_checkpoint bits_dumps "e" 4 three_quarters 0 1 default_filename w1
  = (Ok tt,
     set_fs (fun _ =>
               <[Path.join (experiment_dir "e") [default_filename] :=
                   File (bits_dumps (checkpoint_dict 4 three_quarters
                                       (object_state_dict sample_model)
                                       (object_state_dict sample_optimizer)))]>
                 (w_fs w)) w1).
Proof.
  intros w w1.
  exact (checkpoint_replaces_previous bits_dumps "e" default_filename 3 4
           half three_quarters 0 1 0 1 sample_model sample_optimizer w w1 w1
           ltac:(vm_compute; reflexivity) eq_refl eq_refl eq_refl).
Defined.

Lemma append_inv_head (pre a b : string) : pre ++ a = pre ++ b → a = b.
Proof. induction pre as [|c pre IH]; [done|]. intros [= H]. auto. Qed.

(** A path is looked up the same after another path, not shorter, got a
    node. *)
Lemma check_parent_insert_unrelated (fs : gmap string node) (p q : string) (x : node) :
  String.length q <= String.length p →
  FS.check_parent (<[p := x]> fs) q = FS.check_parent fs q.
Proof.
  intros Hlen. unfold FS.check_parent.
  destruct (Str.contains FS.NUL q); [done|].
  pose proof (split_length q) as Hsplit.
  destruct (Path.split q) as [head tail]. cbn [fst snd] in Hsplit.
  destruct tail as [|c tail]; [done|]. cbn [Str.is_empty].
  destruct (Str.is_empty head); [done|].
  rewrite stat_insert_ne; [done|]. intros ->. cbn [String.length] in Hsplit. lia.
Qed.

(** The two file names of an experiment, as the functions join them. *)
Lemma experiment_files (d : string) :
  ∃ pre, Path.join d ["checkpoint.pth.tar"] = pre ++ "checkpoint.pth.tar"
         ∧ Path.join d ["best_model.pth.tar"] = pre ++ "best_model.pth.tar".
Proof.
  unfold Path.join, fold_left, Path.join2.
  change (Str.startswith Str.sep "checkpoint.pth.tar") with false.
  change (Str.startswith Str.sep "best_model.pth.tar") with false.
  cbn match. destruct (_ || _).
  - by exists d.
  - exists (d ++ String Str.sep EmptyString). split.
    + by rewrite CsvFacts.append_assoc.
    + by rewrite CsvFacts.append_assoc.
Qed.

Lemma experiment_files_apart (d : string) :
  Path.join d ["checkpoint.pth.tar"] ≠ Path.join d ["best_model.pth.tar"]
  ∧ String.length (Path.join d ["checkpoint.pth.tar"])
    = String.length (Path.join d ["best_model.pth.tar"]).
Proof.
  destruct (experiment_files d) as (pre & -> & ->). split.
  - intros H%append_inv_head. discriminate.
  - by rewrite !length_append.
Qed.

Lemma torch_load_set_fs loads (q : string) (ml : option device) (w : world)
    (fs' : gmap string node) :
  FS.check_parent fs' q = FS.check_parent (w_fs w) q →
  fs' !! q = w_fs w !! q →
  torch_load loads q ml (set_fs (fun _ => fs') w)
  = (fst (torch_load loads q ml w), set_fs (fun _ => fs') w)
  ∧ snd (torch_load loads q ml w) = w.
Proof.
  intros Hparent Hq. rewrite !torch_load_spec. cbn [set_fs w_fs].
  rewrite Hparent, Hq. clear Hparent Hq.
  destruct (FS.check_parent (w_fs w) q); [|done].
  destruct (w_fs w !! q) as [[|data]|]; [done| |done].
  by destruct (loads data).
Qed.

Lemma load_state_dict_set_fs (obj : N) (sd : pyval)
    (f : gmap string node → gmap string node) (w : world) :
  load_state_dict obj sd (set_fs f w)
  = (fst (load_state_dict obj sd w), set_fs f (snd (load_state_dict obj sd w))).
Proof.
  unfold load_state_dict, bind, gets. cbn [set_fs w_heap].
  destruct (w_heap w !! obj) as [[m|o]|]; [| |done].
  - by destruct (Module_load_state_dict m sd) as [m' [e|]].
  - by destruct (Optimizer_load_state_dict o sd).
Qed.

Lemma load_checkpoint_set_fs loads eid (model optimizer : N) (w : world)
    (fs' : gmap string node) :
  let q := Path.join "out" [eid; "checkpoint.pth.tar"] in
  FS.check_parent fs' q = FS.check_parent (w_fs w) q →
  fs' !! q = w_fs w !! q →
  load_checkpoint loads eid model optimizer (set_fs (fun _ => fs') w)
  = (fst (load_checkpoint loads eid model optimizer w),
     set_fs (fun _ => fs') (snd (load_checkpoint loads eid model optimizer w))).
Proof.
  intros q Hparent Hq. unfold load_checkpoint, bind. fold q.
  destruct (torch_load_set_fs loads q None w fs' Hparent Hq) as [-> Hw].
  destruct (torch_load loads q None w) as [[checkpoint|e] w0]; cbn [fst snd] in *;
    subst w0; [|done].
  unfold lift. destruct (getitem checkpoint "model_state_dict") as [ms|e]; [|done].
  rewrite load_state_dict_set_fs.
  destruct (load_state_dict model ms w) as [[[]|e] w1]; cbn [fst snd]; [|done].
  destruct (getitem checkpoint "optimizer_state_dict") as [os|e]; [|done].
  rewrite load_state_dict_set_fs.
  destruct (load_state_dict optimizer os w1) as [[[]|e] w2]; cbn [fst snd]; [|done].
  destruct (getitem checkpoint "next_epoch") as [ne|e]; [|done].
  by destruct (getitem checkpoint "best_acc") as [ba|e].
Qed.

Lemma load_best_model_set_fs loads eid (model : N) (w : world)
    (fs' : gmap string node) :
  let q := Path.join "out" [eid; "best_model.pth.tar"] in
  FS.check_parent fs' q = FS.check_parent (w_fs w) q →
  fs' !! q = w_fs w !! q →
  load_best_model loads eid model (set_fs (fun _ => fs') w)
  = (fst (load_best_model loads eid model w),
     set_fs (fun _ => fs') (snd (load_best_model loads eid model w))).
Proof.
  intros q Hparent Hq.
  unfold load_best_model, bind, Seed.torch_cuda_is_available, gets. fold q.
  cbn [set_fs w_cuda_available].
  set (ml := Some (if w_cuda_available w then CUDA else CPU)).
  destruct (torch_load_set_fs loads q ml w fs' Hparent Hq) as [-> Hw].
  destruct (torch_load loads q ml w) as [[sd|e] w0]; cbn [fst snd] in *;
    subst w0; [|done].
  rewrite load_state_dict_set_fs.
  by destruct (load_state_dict model sd w) as [[[]|e] w1].
Qed.

(** What a [torch.save] to [p] leaves: the world it found, or that world with
    a file at [p]. *)
Lemma torch_save_world dumps obj p w :
  snd (torch_save dumps obj p w) = w
  ∨ snd (torch_save dumps obj p w) = set_fs (insert p (File (dumps obj))) w.
Proof.
  rewrite torch_save_spec. destruct (FS.check_parent _ _); [|by left].
  destruct (w_fs w !! p) as [[]|]; [by left|by right..].
Qed.

(** X15: the two files of an experiment do not disturb each other, whatever
    the experiment id: after [save_model] to [best_model.pth.tar],
    [load_checkpoint] does what it would have done before (same result or
    error, same objects), and after [save_checkpoint] with the default name so
    does [load_best_model]; this whether the save returned or raised. *)
Theorem experiment_files_keep_apart
    (dumps : pyval → string) (loads : string → result pyval)
    (experiment_id : string) (next_epoch : Z) (best_acc : spec_float)
    (saved saved_optimizer model optimizer : N) (w : world) :
  (let w' := snd (save_model dumps saved experiment_id "best_model.pth.tar" w) in
   load_checkpoint loads experiment_id model optimizer w'
   = (fst (load_checkpoint loads experiment_id model optimizer w),
      set_fs (fun _ => w_fs w')
        (snd (load_checkpoint loads experiment_id model optimizer w))))
  ∧ (let w' := snd (save_checkpoint dumps experiment_id next_epoch best_acc
                      saved saved_optimizer default_filename w) in
     load_best_model loads experiment_id model w'
     = (fst (load_best_model loads experiment_id model w),
        set_fs (fun _ => w_fs w') (snd (load_best_model loads experiment_id model w)))).
Proof.
  destruct (experiment_files_apart (Path.join "out" [experiment_id])) as [Hne Hlen].
  change (Path.join (Path.join "out" [experiment_id]) ["checkpoint.pth.tar"])
    with (Path.join "out" [experiment_id; "checkpoint.pth.tar"]) in *.
  change (Path.join (Path.join "out" [experiment_id]) ["best_model.pth.tar"])
    with (Path.join "out" [experiment_id; "best_model.pth.tar"]) in *.
  split; intros w'.
  - assert (w' = set_fs (fun _ => w_fs w') w
            ∧ (w_fs w' = w_fs w
               ∨ ∃ x, w_fs w' = <[Path.join "out" [experiment_id; "best_model.pth.tar"] := x]>
                                  (w_fs w))) as [Hw' Hfs].
    { subst w'. unfold save_model, bind. rewrite state_dict_spec.
      destruct (w_heap w !! saved) as [o|].
      - destruct (torch_save_world dumps (object_state_dict o)
                    (Path.join (Path.join "out" [experiment_id]) ["best_model.pth.tar"]) w)
          as [->| ->].
        + split; [by rewrite set_fs_const_id|by left].
        + split; [done|]. right. by eexists.
      - cbn [snd]. split; [by rewrite set_fs_const_id|by left]. }
    rewrite Hw' at 1. apply load_checkpoint_set_fs.
    + destruct Hfs as [->|[x ->]]; [done|].
      apply check_parent_insert_unrelated. lia.
    + destruct Hfs as [->|[x ->]]; [done|]. by rewrite lookup_insert_ne.
  - assert (w' = set_fs (fun _ => w_fs w') w
            ∧ (w_fs w' = w_fs w
               ∨ ∃ x, w_fs w' = <[Path.join "out" [experiment_id; "checkpoint.pth.tar"] := x]>
                                  (w_fs w))) as [Hw' Hfs].
    { subst w'. rewrite save_checkpoint_spec.
      destruct (w_heap w !! saved) as [mo|];
        [|cbn [snd]; split; [by rewrite set_fs_const_id|by left]].
      destruct (w_heap w !! saved_optimizer) as [oo|];
        [|cbn [snd]; split; [by rewrite set_fs_const_id|by left]].
      destruct (torch_save_world dumps
                  (checkpoint_dict next_epoch best_acc (object_state_dict mo)
                     (object_state_dict oo))
                  (Path.join (experiment_dir experiment_id) [default_filename]) w)
        as [->| ->].
      - split; [by rewrite set_fs_const_id|by left].
      - split; [done|]. right. by eexists. }
    rewrite Hw' at 1. apply load_best_model_set_fs.
    + destruct Hfs as [->|[x ->]]; [done|].
      apply check_parent_insert_unrelated. lia.
    + destruct Hfs as [->|[x ->]]; [done|]. by rewrite lookup_insert_ne.
Qed.

(** * What is read back, what is loaded, and where *)

(** ** A value read back from the metrics file *)

Lemma decimal_value_of_Z (z : Z) : decimal_value (Str.of_Z z) = Some z.
Proof.
  unfold decimal_value, Str.of_Z.
  rewrite NilZero.isi.
  - cbn. by rewrite DecimalZ.of_to.
  - destruct z; cbn; [done| |done].
    intros [= H]. by apply Unsigned.to_uint_nonnil in H.
  - destruct z; cbn; [done|done|].
    intros [= H]. by apply Unsigned.to_uint_nonnil in H.
Qed.

Lemma bits_float_repr (x : spec_float) : bits_float (bits_repr x) = Some x.
Proof. unfold bits_float, bits_repr. by rewrite bits_loads_dumps. Qed.

(** C2, as the code has it: where the directory of the metrics file is there
    and the file is absent or holds rows the CSV writer wrote (as earlier
    calls leave it), [save_plotting_data] returns, and the CSV reader then
    reads the file as rows the last of which has two fields, the decimal
    numeral of the epoch and the [repr] of the value: read as an integer and
    as a float they are the epoch and the value of the call. *)
Theorem metrics_value_readable
    (float_repr : spec_float → string) (float_value : string → option spec_float)
    (experiment_id metric : string) (epoch : Z) (metric_val : spec_float)
    (w : world) :
  let fn := Path.join "out" [experiment_id; metric ++ ".csv"] in
  (∀ x, float_value (float_repr x) = Some x) →
  FS.check_parent (w_fs w) fn = Ok tt →
  (w_fs w !! fn = None ∨ ∃ rows, w_fs w !! fn = Some (File (rows_text rows))) →
  ∃ w' data rows' f1 f2,
    save_plotting_data float_repr experiment_id metric epoch metric_val w = (Ok tt, w')
    ∧ w_fs w' !! fn = Some (File data)
    ∧ CsvReader.read_all data = Some (rows' ++ [[f1; f2]])%list
    ∧ f1 = Str.of_Z epoch ∧ decimal_value f1 = Some epoch
    ∧ f2 = float_repr metric_val ∧ float_value f2 = Some metric_val.
Proof.
  intros fn Hrepr Hparent Hfile. rewrite save_plotting_data_spec. fold fn.
  rewrite Hparent.
  destruct Hfile as [Hfn|[rows Hfn]]; rewrite Hfn.
  - eexists _, _, [header_row metric], (Str.of_Z epoch), (float_repr metric_val).
    split; [reflexivity|].
    cbn [set_fs w_fs]. rewrite lookup_insert_eq. split; [reflexivity|].
    split; [|by rewrite decimal_value_of_Z, Hrepr].
    rewrite <- read_rows_text. f_equal.
    cbn [rows_text app]. by rewrite CsvFacts.append_nil_r.
  - eexists _, _, rows, (Str.of_Z epoch), (float_repr metric_val).
    split; [reflexivity|].
    cbn [set_fs w_fs]. rewrite lookup_insert_eq. split; [reflexivity|].
    split; [|by rewrite decimal_value_of_Z, Hrepr].
    rewrite <- read_rows_text. f_equal.
    rewrite rows_text_app. cbn [rows_text]. by rewrite CsvFacts.append_nil_r.
Qed.

Lemma metrics_value_readable_witness :
  let w := sample_world fs_with_experiment in
  ∃ w' data rows' f1 f2,
    save_plotting_data bits_repr "e" "acc" 3 half w = (Ok tt, w')
    ∧ w_fs w' !! Path.join "out" ["e"; "acc" ++ ".csv"] = Some (File data)
    ∧ CsvReader.read_all data = Some (rows' ++ [[f1; f2]])%list
    ∧ f1 = Str.of_Z 3 ∧ decimal_value f1 = Some 3%Z
    ∧ f2 = bits_repr half ∧ bits_float f2 = Some half.
Proof.
  intros w.
  apply (metrics_value_readable bits_repr bits_float "e" "acc" 3 half w).
  - exact bits_float_repr.
  - reflexivity.
  - left. reflexivity.
Defined.

(** The claim as it stands fails on a metrics file that holds other text: the
    call returns, and the row it appended is read as the rest of a quoted
    field that the text before had opened. *)
Lemma open_quote_swallows_row :
  let w := sample_world fs_open_quote in
  let w' := snd (save_plotting_data sample_repr "e" "acc" 3 half w) in
  fst (save_plotting_data sample_repr "e" "acc" 3 half w) = Ok tt
  ∧ w_fs w' !! "out/e/acc.csv"
    = Some (File (String Csv.quotechar "abc" ++ Csv.row_text ["3"; "0.5"]))
  ∧ CsvReader.read_all (String Csv.quotechar "abc" ++ Csv.row_text ["3"; "0.5"])
    = Some [["abc3,0.5" ++ Csv.lineterminator]].
Proof. vm_compute. split; [reflexivity|]. split; reflexivity. Qed.

(** ** What a checkpoint holds *)

Lemma dict_get_app_other (k k' : string) (d : list (string * pyval)) (v : pyval) :
  k ≠ k' → dict_get k (d ++ [(k', v)]) = dict_get k d.
Proof.
  intros Hne. induction d as [|[k0 v0] d IH]; cbn.
  - destruct (String.eqb_spec k' k); [congruence|done].
  - by destruct (String.eqb k0 k).
Qed.

Lemma packs_group_val (g : param_group) : packs_group g (group_val g).
Proof.
  eexists. split; [reflexivity|]. split.
  - apply dict_get_app_clean, pg_clean.
  - intros k Hk. by apply dict_get_app_other.
Qed.

Lemma holds_state_dict (o : object) : holds_state o (object_state_dict o).
Proof.
  destruct o as [m|opt]; cbn.
  - eexists. split; [reflexivity|]. split.
    + rewrite map_map. by apply map_ext.
    + intros k. apply dict_get_named.
  - eexists. split; [reflexivity|].
    induction (o_groups opt) as [|g gs IH]; constructor; [apply packs_group_val|done].
Qed.

(** C4: the file a successful [save_checkpoint] leaves is the serialization of
    a mapping with exactly the four keys [next_epoch], [best_acc],
    [model_state_dict] and [optimizer_state_dict], bound to the epoch and the
    accuracy passed, to the state of the model passed (every tensor of the
    model under its name, in the order of the model, and nothing else) and to
    the state of the optimizer passed (its state and its groups). *)
Theorem save_checkpoint_contents
    (dumps : pyval → string) (experiment_id : string) (next_epoch : Z)
    (best_acc : spec_float) (model optimizer : N) (filename : string)
    (w w' : world) :
  save_checkpoint dumps experiment_id next_epoch best_acc model optimizer filename w
  = (Ok tt, w') →
  ∃ mo oo model_state optimizer_state,
    w_heap w !! model = Some mo ∧ w_heap w !! optimizer = Some oo
    ∧ w_fs w' !! Path.join (experiment_dir experiment_id) [filename] =
        Some (File (dumps (VDict [("next_epoch", VInt next_epoch);
                                  ("best_acc", VFloat best_acc);
                                  ("model_state_dict", model_state);
                                  ("optimizer_state_dict", optimizer_state)])))
    ∧ holds_state mo model_state
    ∧ holds_state oo optimizer_state.
Proof.
  rewrite save_checkpoint_spec.
  destruct (w_heap w !! model) as [mo|]; [|done].
  destruct (w_heap w !! optimizer) as [oo|]; [|done].
  intros H%torch_save_ok_parent. destruct H as [_ ->].
  exists mo, oo, (object_state_dict mo), (object_state_dict oo).
  split; [done|]. split; [done|]. split.
  - cbn [set_fs w_fs]. by rewrite lookup_insert_eq.
  - split; apply holds_state_dict.
Qed.

Lemma save_checkpoint_contents_witness :
  let w := sample_world fs_with_experiment in
  let w' := snd (save_checkpoint bits_dumps "e" 3 half 0 1 "ckpt.pth" w) in
  ∃ mo oo model_state optimizer_state,
    w_heap w !! 0%N = Some mo ∧ w_heap w !! 1%N = Some oo
    ∧ w_fs w' !! Path.join (experiment_dir "e") ["ckpt.pth"] =
        Some (File (bits_dumps (VDict [("next_epoch", VInt 3);
                                       ("best_acc", VFloat half);
                                       ("model_state_dict", model_state);
                                       ("optimizer_state_dict", optimizer_state)])))
    ∧ holds_state mo model_state
    ∧ holds_state oo optimizer_state.
Proof.
  intros w w'.
  apply (save_checkpoint_contents bits_dumps "e" 3 half 0 1 "ckpt.pth" w w').
  vm_compute. reflexivity.
Defined.

(** The state dicts of the sample objects, as the statement determines them. *)
Example sample_checkpoint_states (model_state optimizer_state : pyval) :
  holds_state sample_model model_state →
  holds_state sample_optimizer optimizer_state →
  model_state = VDict [("weight", VTensor sample_tensor)]
  ∧ ∃ g, optimizer_state = VDict [("state", VDict []); ("param_groups", VList [VDict g])]
         ∧ dict_get "params" g = Some (VList [VInt 0])
         ∧ dict_get "lr" g = Some (VFloat half).
Proof.
  intros (d & -> & Hkeys & Hget) (gs & -> & Hgs). split.
  - destruct d as [|[k v] [|? ?]]; try done. cbn in Hkeys. injection Hkeys as ->.
    specialize (Hget "weight"). cbn in Hget. by injection Hget as ->.
  - cbn in Hgs. apply Forall2_cons_inv_l in Hgs as (v & gs' & (g & -> & Hp & Ho) & Hnil & ->).
    apply Forall2_nil_inv_l in Hnil as ->. exists g. split; [done|]. split; [done|].
    by rewrite Ho.
Qed.

(** ** Failures while loading *)

(** C6: [load_checkpoint] and [load_best_model] raise what the library call
    that failed raised, in the state that call left, and return only when
    every library call returned.  A missing file makes [torch.load] raise the
    error of [open], a file that cannot be deserialized makes it raise the
    error of the deserializer; a file that deserializes to the wrong value
    makes a lookup or a [load_state_dict] raise. *)
Theorem load_failure_propagates
    (loads : string → result pyval) (experiment_id : string)
    (model optimizer : N) (w : world) :
  let checkpoint_file := Path.join "out" [experiment_id; "checkpoint.pth.tar"] in
  let best_model_file := Path.join "out" [experiment_id; "best_model.pth.tar"] in
  let device := Some (if w_cuda_available w then CUDA else CPU) in
  (* torch.load *)
  (∀ p ml, w_fs w !! p = None →
     ∃ e, torch_load loads p ml w = (Err e, w)
          ∧ (FS.check_parent (w_fs w) p = Ok tt → e = FileNotFoundError p))
  ∧ (∀ p ml data e,
       FS.check_parent (w_fs w) p = Ok tt → w_fs w !! p = Some (File data) →
       loads data = Err e →
       torch_load loads p ml w = (Err e, w))
  (* load_checkpoint, call by call *)
  ∧ (∀ e w1,
       torch_load loads checkpoint_file None w = (Err e, w1) →
       load_checkpoint loads experiment_id model optimizer w = (Err e, w1))
  ∧ (∀ checkpoint,
       torch_load loads checkpoint_file None w = (Ok checkpoint, w) →
       (∀ e, getitem checkpoint "model_state_dict" = Err e →
             load_checkpoint loads experiment_id model optimizer w = (Err e, w))
       ∧ ∀ model_state,
           getitem checkpoint "model_state_dict" = Ok model_state →
           (∀ e w1, load_state_dict model model_state w = (Err e, w1) →
                    load_checkpoint loads experiment_id model optimizer w = (Err e, w1))
           ∧ ∀ w1,
               load_state_dict model model_state w = (Ok tt, w1) →
               (∀ e, getitem checkpoint "optimizer_state_dict" = Err e →
                     load_checkpoint loads experiment_id model optimizer w = (Err e, w1))
               ∧ ∀ optimizer_state,
                   getitem checkpoint "optimizer_state_dict" = Ok optimizer_state →
                   (∀ e w2, load_state_dict optimizer optimizer_state w1 = (Err e, w2) →
                            load_checkpoint loads experiment_id model optimizer w
                            = (Err e, w2))
                   ∧ ∀ w2,
                       load_state_dict optimizer optimizer_state w1 = (Ok tt, w2) →
                       (∀ e, getitem checkpoint "next_epoch" = Err e →
                             load_checkpoint loads experiment_id model optimizer w
                             = (Err e, w2))
                       ∧ ∀ next_epoch,
                           getitem checkpoint "next_epoch" = Ok next_epoch →
                           (∀ e, getitem checkpoint "best_acc" = Err e →
                                 load_checkpoint loads experiment_id model optimizer w
                                 = (Err e, w2))
                           ∧ ∀ best_acc,
                               getitem checkpoint "best_acc" = Ok best_acc →
                               load_checkpoint loads experiment_id model optimizer w
                               = (Ok (model, optimizer, next_epoch, best_acc), w2))
  (* load_best_model, call by call *)
  ∧ (∀ e w1,
       torch_load loads best_model_file device w = (Err e, w1) →
       load_best_model loads experiment_id model w = (Err e, w1))
  ∧ (∀ model_state,
       torch_load loads best_model_file device w = (Ok model_state, w) →
       (∀ e w1, load_state_dict model model_state w = (Err e, w1) →
                load_best_model loads experiment_id model w = (Err e, w1))
       ∧ ∀ w1, load_state_dict model model_state w = (Ok tt, w1) →
               load_best_model loads experiment_id model w = (Ok model, w1)).
Proof.
  intros checkpoint_file best_model_file device.
  split; [|split; [|split; [|split; [|split]]]].
  - intros p ml Hp. rewrite torch_load_spec, Hp.
    destruct (FS.check_parent _ _) as [[]|e]; eexists; (split; [reflexivity|done]).
  - intros p ml data e Hparent Hp Hdata. by rewrite torch_load_spec, Hparent, Hp, Hdata.
  - intros e w1 H. unfold load_checkpoint, bind. fold checkpoint_file. by rewrite H.
  - intros checkpoint Hload. unfold load_checkpoint, bind, lift.
    fold checkpoint_file. rewrite Hload.
    split; [by intros e ->|]. intros model_state ->.
    split; [by intros e w1 ->|]. intros w1 ->.
    split; [by intros e ->|]. intros optimizer_state ->.
    split; [by intros e w2 ->|]. intros w2 ->.
    split; [by intros e ->|]. intros next_epoch ->.
    split; [by intros e ->|]. by intros best_acc ->.
  - intros e w1 H.
    unfold load_best_model, bind, Seed.torch_cuda_is_available, gets.
    fold best_model_file device. by rewrite H.
  - intros model_state Hload.
    unfold load_best_model, bind, Seed.torch_cuda_is_available, gets.
    fold best_model_file device. rewrite Hload.
    split; [by intros e w1 ->|]. by intros w1 ->.
Qed.

Lemma load_failure_propagates_witness :
  (let w := sample_world fs_with_experiment in
   load_checkpoint bits_loads "e" 0 1 w
   = (Err (FileNotFoundError "out/e/checkpoint.pth.tar"), w)
   ∧ load_best_model bits_loads "e" 0 w
     = (Err (FileNotFoundError "out/e/best_model.pth.tar"), w))
  ∧ (let w := sample_world fs_weights_only in
     load_checkpoint bits_loads "e" 0 1 w
     = (Err (KeyError "optimizer_state_dict"),
        set_heap (insert 0%N (OModule (with_values_of trained_model sample_module))) w)).
Proof.
  split.
  - intros w.
    destruct (load_failure_propagates bits_loads "e" 0 1 w) as (_ & _ & Hc & _ & Hb & _).
    split; [apply Hc|apply Hb]; vm_compute; reflexivity.
  - intros w.
    destruct (load_failure_propagates bits_loads "e" 0 1 w) as (_ & _ & _ & Hc & _).
    destruct (Hc (VDict [("model_state_dict", Module_state_dict trained_model)]))
      as (_ & Hm); [vm_compute; reflexivity|].
    destruct (Hm (Module_state_dict trained_model) eq_refl) as (_ & Ho).
    apply Ho; [|reflexivity].
    vm_compute. reflexivity.
Defined.

(** ** Loading updates the objects of the caller *)

Lemma load_param_copied (d : list (string * pyval)) (k : string) (p p' : tensor) :
  load_param d k p = Copied p' → holds_entry p (dict_get k d) p'.
Proof.
  unfold load_param. destruct (dict_get k d) as [[| | | |input| |]|]; try done.
  destruct (Nat.eqb (length (t_shape p)) 0 && Nat.eqb (length (t_shape input)) 1)
    eqn:Hcompat.
  - apply andb_true_iff in Hcompat as [Hp%Nat.eqb_eq Hi%Nat.eqb_eq].
    apply length_zero_iff_nil in Hp.
    unfold first_element. destruct (t_data input) as [|x rest] eqn:Hdata; [done|].
    unfold shape_eqb. destruct (bool_decide _); [|done]. intros [= <-].
    split; [done|]. split; [done|]. exists input. split; [done|]. right.
    split; [done|]. split; [done|]. exists x, rest. by split.
  - unfold shape_eqb. destruct (bool_decide _) eqn:Hshape; [|done].
    apply bool_decide_eq_true_1 in Hshape. intros [= <-].
    split; [done|]. split; [done|]. exists input. split; [done|]. by left.
Qed.

Lemma load_params_names (d : list (string * pyval)) (ps : list (string * tensor)) :
  map fst (fst (fst (load_params d ps))) = map fst ps.
Proof.
  induction ps as [|[k p] ps IH]; [done|]. cbn.
  destruct (load_param d k p); [| |done];
    destruct (load_params d ps) as [[ps' ok] e]; cbn in *; by rewrite IH.
Qed.

Lemma load_params_all (d : list (string * pyval)) (ps ps' : list (string * tensor)) :
  load_params d ps = (ps', true, None) →
  Forall2 (fun kp kp' => fst kp' = fst kp
                         ∧ holds_entry (snd kp) (dict_get (fst kp) d) (snd kp'))
    ps ps'.
Proof.
  revert ps'. induction ps as [|[k p] ps IH]; intros ps'; cbn.
  - intros [= <-]. constructor.
  - destruct (load_param d k p) as [p'| |e] eqn:Hparam; [| |done].
    + destruct (load_params d ps) as [[ps'' ok] e]. intros [= <- -> ->].
      constructor; [|by apply IH]. split; [done|]. by apply load_param_copied.
    + by destruct (load_params d ps) as [[ps'' ok] e].
Qed.

Lemma Module_load_ok (m m' : module_obj) (sd : pyval) :
  Module_load_state_dict m sd = (m', None) →
  ∃ d, sd = VDict d ∧ module_loaded d m m'.
Proof.
  unfold Module_load_state_dict. destruct sd as [| | | | | |d]; try done.
  pose proof (load_params_names d (m_params m)) as Hnames.
  destruct (load_params d (m_params m)) as [[ps ok] [e|]] eqn:Hload; [done|].
  cbn in Hnames. destruct ok; [|done]. intros [= <- _].
  exists d. split; [done|]. unfold module_loaded.
  rewrite with_params_names by done. by apply load_params_all.
Qed.

Lemma dict_get_del_key_ne (k k' : string) (d : list (string * pyval)) :
  k ≠ k' → dict_get k (del_key k' d) = dict_get k d.
Proof.
  intros Hne. induction d as [|[k0 v0] d IH]; [done|]. cbn.
  destruct (String.eqb_spec k0 k') as [->|Hne'].
  - destruct (String.eqb_spec k' k); [congruence|done].
  - cbn. by rewrite IH.
Qed.

Lemma update_groups_loaded (gs : list param_group) (saved : list pyval) :
  length gs = length saved → check_groups gs saved = Ok tt →
  Forall3 group_loaded gs saved (update_groups gs saved).
Proof.
  revert saved. induction gs as [|g gs IH]; intros [|s saved] Hlen; try done.
  - intros _. constructor.
  - cbn. destruct (check_group g s) as [[]|] eqn:Hg; [|done]. intros Hgs.
    constructor; [|apply IH; [by injection Hlen|done]].
    unfold check_group, getitem in Hg. destruct s as [| | | | | |d]; try done.
    destruct (update_group_dict g d) as [Hp Ho].
    split; [done|]. exists d. split; [done|]. intros k Hk.
    rewrite Ho. by apply dict_get_del_key_ne.
Qed.

Lemma pylen_items (v : pyval) (n : nat) : pylen v = Ok n → length (items v) = n.
Proof.
  destruct v as [| | |s| |l|d]; try done; cbn; intros [= <-];
    rewrite ?length_map; [|done..].
  induction s as [|c s IH]; [done|]. cbn. by rewrite IH.
Qed.

Lemma Optimizer_load_ok (o o' : optimizer_obj) (sd : pyval) :
  Optimizer_load_state_dict o sd = Ok o' →
  ∃ d, sd = VDict d ∧ optimizer_loaded d o o'.
Proof.
  unfold Optimizer_load_state_dict, getitem.
  destruct sd as [| | | | | |d]; try done. exists d. split; [done|]. revert H.
  destruct (dict_get "param_groups" d) as [saved|] eqn:Hsaved; [|done].
  destruct (pylen saved) as [n|] eqn:Hn; [|done]. apply pylen_items in Hn.
  destruct (Nat.eqb_spec (length (o_groups o)) n) as [Hlen|]; [|done]. cbn.
  destruct (check_groups _ _) as [[]|] eqn:Hgs; [|done].
  destruct (check_ids _); [|done].
  destruct (dict_get "state" d) as [[| | | | | |st]|] eqn:Hst; try done.
  intros [= <-]. split; [done|]. exists saved. split; [done|].
  cbn. apply update_groups_loaded; [congruence|done].
Qed.

(** A [load_state_dict] that returns has replaced the object by the object
    loaded, where it was. *)
Lemma load_state_dict_ok (obj : N) (sd : pyval) (w w' : world) :
  load_state_dict obj sd w = (Ok tt, w') →
  ∃ o o', w_heap w !! obj = Some o ∧ object_loaded sd o o'
          ∧ w' = set_heap (insert obj o') w.
Proof.
  unfold load_state_dict, bind, gets.
  destruct (w_heap w !! obj) as [[m|opt]|]; [| |done].
  - destruct (Module_load_state_dict m sd) as [m' err] eqn:E.
    unfold modify, ret, raise. destruct err; [done|].
    intros [= <-]. apply Module_load_ok in E as (d & -> & E).
    exists (OModule m), (OModule m'). by split.
  - destruct (Optimizer_load_state_dict opt sd) as [opt'|] eqn:E; [|done].
    unfold modify. intros [= <-]. apply Optimizer_load_ok in E as (d & -> & E).
    exists (OOptimizer opt), (OOptimizer opt'). by split.
Qed.

(** C10: a [load_checkpoint] or [load_best_model] that returns, returns the
    references it was given; the objects at these references are the objects
    of the caller with the state of the file loaded into them (every tensor
    of the model holds the elements of its entry, the optimizer the saved
    state and the entries of the saved groups); no object is added and
    nothing else changes. *)
Theorem load_updates_in_place
    (loads : string → result pyval) (experiment_id : string)
    (model optimizer : N) (w : world) :
  (∀ r w',
     load_checkpoint loads experiment_id model optimizer w = (Ok r, w') →
     ∃ checkpoint model_state optimizer_state o1 o1' o2 o2' next_epoch best_acc,
       torch_load loads (Path.join "out" [experiment_id; "checkpoint.pth.tar"]) None w
       = (Ok checkpoint, w)
       ∧ getitem checkpoint "model_state_dict" = Ok model_state
       ∧ getitem checkpoint "optimizer_state_dict" = Ok optimizer_state
       ∧ r = (model, optimizer, next_epoch, best_acc)
       ∧ w_heap w !! model = Some o1
       ∧ object_loaded model_state o1 o1'
       ∧ <[model := o1']> (w_heap w) !! optimizer = Some o2
       ∧ object_loaded optimizer_state o2 o2'
       ∧ w' = set_heap (fun heap => <[optimizer := o2']> (<[model := o1']> heap)) w
       ∧ dom (w_heap w') = dom (w_heap w))
  ∧ (∀ r w',
       load_best_model loads experiment_id model w = (Ok r, w') →
       ∃ model_state o1 o1',
         torch_load loads (Path.join "out" [experiment_id; "best_model.pth.tar"])
           (Some (if w_cuda_available w then CUDA else CPU)) w = (Ok model_state, w)
         ∧ r = model
         ∧ w_heap w !! model = Some o1
         ∧ object_loaded model_state o1 o1'
         ∧ w' = set_heap (insert model o1') w
         ∧ dom (w_heap w') = dom (w_heap w)).
Proof.
  split.
  - intros r w'. unfold load_checkpoint, bind.
    destruct (torch_load _ _ _ w) as [[checkpoint|] w1] eqn:Hload; [|done].
    pose proof (torch_load_world _ _ _ _ _ _ Hload) as ->.
    unfold lift at 1.
    destruct (getitem checkpoint "model_state_dict") as [msd|] eqn:Hmsd; [|done].
    destruct (load_state_dict model msd w) as [[[]|] w2] eqn:Hlm; [|done].
    apply load_state_dict_ok in Hlm as (o1 & o1' & Ho1 & Hl1 & ->).
    unfold lift at 1.
    destruct (getitem checkpoint "optimizer_state_dict") as [osd|] eqn:Hosd; [|done].
    destruct (load_state_dict optimizer osd _) as [[[]|] w3] eqn:Hlo; [|done].
    apply load_state_dict_ok in Hlo as (o2 & o2' & Ho2 & Hl2 & ->).
    unfold lift.
    destruct (getitem checkpoint "next_epoch") as [ne|]; [|done].
    destruct (getitem checkpoint "best_acc") as [ba|]; [|done].
    unfold ret. intros [= <- <-].
    exists checkpoint, msd, osd, o1, o1', o2, o2', ne, ba.
    do 8 (split; [done|]). split; [done|]. cbn in *.
    rewrite dom_insert_lookup_L by eauto. by rewrite dom_insert_lookup_L by eauto.
  - intros r w'. unfold load_best_model, bind, Seed.torch_cuda_is_available, gets.
    destruct (torch_load _ _ _ w) as [[sd|] w1] eqn:Hload; [|done].
    pose proof (torch_load_world _ _ _ _ _ _ Hload) as ->.
    destruct (load_state_dict model sd w) as [[[]|] w2] eqn:Hlm; [|done].
    apply load_state_dict_ok in Hlm as (o1 & o1' & Ho1 & Hl1 & ->).
    unfold ret. intros [= <- <-].
    exists sd, o1, o1'. do 4 (split; [done|]). split; [done|]. cbn.
    by rewrite dom_insert_lookup_L by eauto.
Qed.

Lemma load_updates_in_place_witness :
  let w1 := snd (save_checkpoint bits_dumps "e" 3 half 0 1 default_filename
                   (sample_world fs_with_experiment)) in
  let w := set_heap (fun _ => {[ 0%N := OModule trained_model;
                                 1%N := OOptimizer trained_optimizer ]}) w1 in
  let w' := snd (load_checkpoint bits_loads "e" 0 1 w) in
  (∃ checkpoint model_state optimizer_state o1 o1' o2 o2' next_epoch best_acc,
     torch_load bits_loads (Path.join "out" ["e"; "checkpoint.pth.tar"]) None w
     = (Ok checkpoint, w)
     ∧ getitem checkpoint "model_state_dict" = Ok model_state
     ∧ getitem checkpoint "optimizer_state_dict" = Ok optimizer_state
     ∧ (0%N, 1%N, VInt 3, VFloat half) = (0%N, 1%N, next_epoch, best_acc)
     ∧ w_heap w !! 0%N = Some o1
     ∧ object_loaded model_state o1 o1'
     ∧ <[0%N := o1']> (w_heap w) !! 1%N = Some o2
     ∧ object_loaded optimizer_state o2 o2'
     ∧ w' = set_heap (fun heap => <[1%N := o2']> (<[0%N := o1']> heap)) w
     ∧ dom (w_heap w') = dom (w_heap w))
  ∧ w_heap w !! 0%N = Some (OModule trained_model)
  ∧ w_heap w' !! 0%N = Some (OModule sample_module).
Proof.
  intros w1 w w'. split.
  - apply (proj1 (load_updates_in_place bits_loads "e" 0 1 w)
             (0%N, 1%N, VInt 3, VFloat half) w').
    vm_compute. reflexivity.
  - vm_compute. split; reflexivity.
Defined.

(** ** Where the files are *)

(** The log file after a [create_logger] that installed the file handler. *)
Lemma create_logger_log_file (eid : string) (w w' : world) (r : logger) :
  root_handlers (w_proc w) = [] →
  create_logger eid w = (Ok r, w') →
  ∃ data, w_fs w' !! log_fn eid (w_localtime w) = Some (File data).
Proof.
  intros Hhs. rewrite create_logger_steps.
  destruct (quiet_ensure_log_dir eid w w (agree_refl w)) as (_ & _ & Hproc & _ & Htime).
  destruct (ensure_log_dir eid w) as [[[]|] w1]; [|done]. cbn [snd] in *.
  rewrite Hproc, Hhs, Htime, open_append_spec.
  destruct (FS.check_parent _ _); [|done].
  destruct (w_fs w1 !! _) as [[|data]|] eqn:Hfn; [done|..]; intros [= <-];
    cbn [set_proc set_open set_fs w_fs]; [eauto|].
  rewrite lookup_insert_eq. eauto.
Qed.

(** A [create_logger] that found a handler on the root logger creates
    directories at most. *)
Lemma create_logger_configured (eid : string) (w w' : world) (r : logger)
    (h : log_handler) (hs : list log_handler) :
  root_handlers (w_proc w) = h :: hs →
  create_logger eid w = (Ok r, w') →
  w_open w' = w_open w ∧ adds_dirs (w_fs w) (w_fs w').
Proof.
  intros Hhs. rewrite create_logger_steps.
  destruct (quiet_ensure_log_dir eid w w (agree_refl w)) as (_ & _ & Hproc & Hopen & _).
  pose proof (ensure_log_dir_adds_dirs eid w) as Hdirs.
  destruct (ensure_log_dir eid w) as [[[]|] w1]; [|done]. cbn [snd] in *.
  rewrite Hproc, Hhs. destruct hs as [|h' hs]; by intros [= <-].
Qed.

(** C5, as the code has it: for an experiment id that is a relative path, not
    empty and without a trailing separator, the files the helpers touch are
    those of the layout.  [create_logger] opens
    [out/<id>/logs/<timestamp>.log] as the log file when the root logger has
    no handler, and no file at all when it has one.  [save_plotting_data]
    changes [out/<id>/<metric>.csv] and nothing else, [save_checkpoint] and
    [save_model] write [out/<id>/<name>] and nothing else, the metric and the
    name being relative too.  [load_checkpoint] reads
    [out/<id>/checkpoint.pth.tar] and [load_best_model]
    [out/<id>/best_model.pth.tar]: they return only when that file is there,
    and do the same in every file system with the same file, in the same
    directory, at that path. *)
Theorem paths_follow_layout
    (float_repr : spec_float → string)
    (dumps : pyval → string) (loads : string → result pyval)
    (experiment_id : string) :
  Str.startswith Str.sep experiment_id = false →
  Str.is_empty experiment_id = false →
  Str.endswith Str.sep experiment_id = false →
  let log_file := fun w => "out/" ++ experiment_id ++ "/logs/"
                           ++ strftime_Ymd_HM (w_localtime w) ++ ".log" in
  let checkpoint_file := "out/" ++ experiment_id ++ "/checkpoint.pth.tar" in
  let best_model_file := "out/" ++ experiment_id ++ "/best_model.pth.tar" in
  (∀ w r w',
     root_handlers (w_proc w) = [] →
     create_logger experiment_id w = (Ok r, w') →
     ∃ fd,
       w_open w !! fd = None
       ∧ w_open w' = <[fd := {| h_path := log_file w; h_mode := ModeA |}]> (w_open w)
       ∧ root_handlers (w_proc w')
         = [FileHandler fd (log_file w) (Some log_format); StreamHandler None]
       ∧ ∃ data, w_fs w' !! log_file w = Some (File data))
  ∧ (∀ w r w' h hs,
       root_handlers (w_proc w) = h :: hs →
       create_logger experiment_id w = (Ok r, w') →
       w_open w' = w_open w ∧ adds_dirs (w_fs w) (w_fs w'))
  ∧ (∀ metric epoch val w w',
       Str.startswith Str.sep metric = false →
       save_plotting_data float_repr experiment_id metric epoch val w = (Ok tt, w') →
       ∃ data,
         w' = set_fs (insert ("out/" ++ experiment_id ++ "/" ++ metric ++ ".csv")
                        (File data)) w)
  ∧ (∀ next_epoch best_acc model optimizer filename w w',
       Str.startswith Str.sep filename = false →
       save_checkpoint dumps experiment_id next_epoch best_acc model optimizer
         filename w = (Ok tt, w') →
       ∃ data,
         w' = set_fs (insert ("out/" ++ experiment_id ++ "/" ++ filename)
                        (File data)) w)
  ∧ (∀ model filename w w',
       Str.startswith Str.sep filename = false →
       save_model dumps model experiment_id filename w = (Ok tt, w') →
       ∃ data,
         w' = set_fs (insert ("out/" ++ experiment_id ++ "/" ++ filename)
                        (File data)) w)
  ∧ (∀ model optimizer w,
       (∀ r w',
          load_checkpoint loads experiment_id model optimizer w = (Ok r, w') →
          ∃ data, w_fs w !! checkpoint_file = Some (File data))
       ∧ ∀ fs',
           fs' !! checkpoint_file = w_fs w !! checkpoint_file →
           FS.check_parent fs' checkpoint_file
           = FS.check_parent (w_fs w) checkpoint_file →
           load_checkpoint loads experiment_id model optimizer (set_fs (fun _ => fs') w)
           = (fst (load_checkpoint loads experiment_id model optimizer w),
              set_fs (fun _ => fs')
                (snd (load_checkpoint loads experiment_id model optimizer w))))
  ∧ (∀ model w,
       (∀ r w',
          load_best_model loads experiment_id model w = (Ok r, w') →
          ∃ data, w_fs w !! best_model_file = Some (File data))
       ∧ ∀ fs',
           fs' !! best_model_file = w_fs w !! best_model_file →
           FS.check_parent fs' best_model_file
           = FS.check_parent (w_fs w) best_model_file →
           load_best_model loads experiment_id model (set_fs (fun _ => fs') w)
           = (fst (load_best_model loads experiment_id model w),
              set_fs (fun _ => fs') (snd (load_best_model loads experiment_id model w)))).
Proof.
  intros Hrel Hne Hend log_file checkpoint_file best_model_file.
  assert (Path.join "out" [experiment_id; "checkpoint.pth.tar"] = checkpoint_file)
    as Hcheckpoint.
  { change (Path.join "out" [experiment_id; "checkpoint.pth.tar"])
      with (Path.join (experiment_dir experiment_id) ["checkpoint.pth.tar"]).
    by rewrite join_under_experiment. }
  assert (Path.join "out" [experiment_id; "best_model.pth.tar"] = best_model_file)
    as Hbest.
  { change (Path.join "out" [experiment_id; "best_model.pth.tar"])
      with (Path.join (experiment_dir experiment_id) ["best_model.pth.tar"]).
    by rewrite join_under_experiment. }
  split; [|split; [|split; [|split; [|split; [|split]]]]].
  - intros w r w' Hhs H.
    pose proof (create_logger_log_file _ _ _ _ Hhs H) as Hfile.
    apply create_logger_ok in H as [_ H]. rewrite Hhs in H.
    destruct H as (fd & Hfd & Hopen & Hhandlers). exists fd.
    rewrite log_fn_layout in * by done. done.
  - intros w r w' h hs Hhs H. by eapply create_logger_configured.
  - intros metric epoch val w w' Hm. rewrite save_plotting_data_spec.
    change (Path.join "out" [experiment_id; metric ++ ".csv"])
      with (Path.join (experiment_dir experiment_id) [metric ++ ".csv"]).
    assert (Str.startswith Str.sep (metric ++ ".csv") = false) as Hcsv
      by (by destruct metric).
    rewrite join_under_experiment by done.
    change (String Str.sep (metric ++ ".csv")) with ("/" ++ metric ++ ".csv").
    destruct (FS.check_parent _ _); [|done].
    destruct (w_fs w !! _) as [[|data]|]; [done|..]; intros [= <-]; eauto.
  - intros ne ba model optimizer filename w w' Hf. rewrite save_checkpoint_spec.
    destruct (w_heap w !! model); [|done]. destruct (w_heap w !! optimizer); [|done].
    rewrite join_under_experiment by done.
    intros H%torch_save_ok. eauto.
  - intros model filename w w' Hf. unfold save_model, bind.
    rewrite state_dict_spec. destruct (w_heap w !! model); [|done].
    fold (experiment_dir experiment_id).
    rewrite join_under_experiment by done.
    intros H%torch_save_ok. eauto.
  - intros model optimizer w. split.
    + intros r w'. unfold load_checkpoint, bind. rewrite Hcheckpoint.
      destruct (torch_load _ _ _ w) as [[v|] w1] eqn:Hload; [|done].
      intros _. by apply torch_load_ok in Hload.
    + intros fs' Hfile Hparent. apply load_checkpoint_set_fs; by rewrite Hcheckpoint.
  - intros model w. split.
    + intros r w'.
      unfold load_best_model, bind, Seed.torch_cuda_is_available, gets. rewrite Hbest.
      destruct (torch_load _ _ _ w) as [[v|] w1] eqn:Hload; [|done].
      intros _. by apply torch_load_ok in Hload.
    + intros fs' Hfile Hparent. apply load_best_model_set_fs; by rewrite Hbest.
Qed.

Lemma paths_follow_layout_witness :
  let w := sample_world fs_with_experiment in
  (∃ data,
     snd (save_model bits_dumps 0 "e" "m.pth" w)
     = set_fs (insert ("out/" ++ "e" ++ "/" ++ "m.pth") (File data)) w)
  ∧ ∃ fd,
      w_open w !! fd = None
      ∧ w_open (snd (create_logger "e" w))
        = <[fd := {| h_path := "out/e/logs/2022-01-09-17-05.log"; h_mode := ModeA |}]>
            (w_open w)
      ∧ root_handlers (w_proc (snd (create_logger "e" w)))
        = [FileHandler fd "out/e/logs/2022-01-09-17-05.log" (Some log_format);
           StreamHandler None]
      ∧ ∃ data, w_fs (snd (create_logger "e" w)) !! "out/e/logs/2022-01-09-17-05.log"
                = Some (File data).
Proof.
  intros w.
  destruct (paths_follow_layout sample_repr bits_dumps bits_loads "e"
              eq_refl eq_refl eq_refl) as (Hlog & _ & _ & _ & Hsave & _).
  split.
  - apply (Hsave 0%N "m.pth" w); [reflexivity|]. vm_compute. reflexivity.
  - apply (Hlog w RootLogger (snd (create_logger "e" w))); [reflexivity|].
    vm_compute. reflexivity.
Defined.

(** An absolute experiment id takes the files out of [out/]. *)
Lemma absolute_experiment_id_leaves_layout :
  let w := sample_world fs_absolute in
  let w' := snd (save_checkpoint bits_dumps "/data/run" 3 half 0 1 default_filename w) in
  fst (save_checkpoint bits_dumps "/data/run" 3 half 0 1 default_filename w) = Ok tt
  ∧ w_fs w' !! ("out/" ++ "/data/run" ++ "/" ++ default_filename) = None
  ∧ (∃ data, w_fs w' !! "/data/run/checkpoint.pth.tar" = Some (File data))
  ∧ fst (load_checkpoint bits_loads "/data/run" 0 1 w')
    = Ok (0%N, 1%N, VInt 3, VFloat half).
Proof.
  vm_compute. split; [reflexivity|]. split; [reflexivity|].
  split; [eexists; reflexivity|reflexivity].
Qed.

(** ** The directory of the experiment *)






